(** * Anywhere Network Extension: the C data plane, embedded and verified

    A shallow embedding of the C helpers of the network extension:
    - [Packet/CPacket.c]: TLS record utilities,
    - [VLESS/CVLESS.c]: the VLESS request header and the address codec,
    - [lwip/lwip_bridge.c]: the bridge between the tunnel device and lwIP,
    - [Crypto/blake3_dispatch.c]: the portable dispatch of BLAKE3,
    - [lwip/port/sys_arch.c]: the millisecond clock of lwIP.

    Conventions.  A C byte buffer is a [list Z] whose elements are the byte
    values; a [(pointer, length)] pair of the source is one list, and a
    pointer into a NUL-terminated buffer is an index into the list.  Integer
    conversions of the source are written out ([to_uint8], [to_uint16],
    [to_ssize_t]).  A store through an index outside the list is undefined
    behaviour in C; stdpp's insert leaves the list unchanged there, and the
    theorems carry the size hypotheses under which no such store happens. *)

From stdpp Require Import base numbers list strings.
From Stdlib Require Import ZArith Lia Ascii.

Local Open Scope Z_scope.

(* ===================================================================== *)
(** * Part I: definitions                                                 *)
(* ===================================================================== *)

(** ** Machine integers *)

Definition to_uint8 (z : Z) : Z := z `mod` 2 ^ 8.
Definition to_uint16 (z : Z) : Z := z `mod` 2 ^ 16.

Definition SSIZE_MAX : Z := 2 ^ 63 - 1.

(** Conversion of a [size_t] to [ssize_t] (two's complement, 64 bits). *)
Definition to_ssize_t (z : Z) : Z :=
  let r := z `mod` 2 ^ 64 in
  if r <=? SSIZE_MAX then r else r - 2 ^ 64.

Definition is_uint8 (z : Z) : Prop := 0 <= z < 2 ^ 8.
Definition is_uint16 (z : Z) : Prop := 0 <= z < 2 ^ 16.
Definition is_uint64 (z : Z) : Prop := 0 <= z < 2 ^ 64.

(** [buffer[i]] for a buffer of bytes.  A read outside the buffer is
    undefined behaviour in C; here it gives 0, and no result below rests
    on such a read. *)
Definition byte_at (buffer : list Z) (i : nat) : Z := default 0 (buffer !! i).

(** The [n] big-endian base-256 digits of [v], most significant first. *)
Fixpoint be_bytes (n : nat) (v : Z) : list Z :=
  match n with
  | O => []
  | S k => (v `div` 256 ^ Z.of_nat k) `mod` 256 :: be_bytes k v
  end.

(** The number a big-endian byte string denotes. *)
Definition be_value (bs : list Z) : Z := foldl (λ acc b, acc * 256 + b) 0 bs.

(* --------------------------------------------------------------------- *)
(** ** Packet/CPacket.c                                                   *)
(* --------------------------------------------------------------------- *)

(** [nonce[i] ^= v;] on a [uint8_t] array. *)
Definition xor_assign (i : nat) (v : Z) (nonce : list Z) : list Z :=
  alter (λ b, to_uint8 (Z.lxor b v)) i nonce.

Definition xor_nonce_with_seq (nonce : list Z) (seqNum : Z) : list Z :=
  let nonce := xor_assign 4 (to_uint8 (seqNum ≫ 56)) nonce in
  let nonce := xor_assign 5 (to_uint8 (seqNum ≫ 48)) nonce in
  let nonce := xor_assign 6 (to_uint8 (seqNum ≫ 40)) nonce in
  let nonce := xor_assign 7 (to_uint8 (seqNum ≫ 32)) nonce in
  let nonce := xor_assign 8 (to_uint8 (seqNum ≫ 24)) nonce in
  let nonce := xor_assign 9 (to_uint8 (seqNum ≫ 16)) nonce in
  let nonce := xor_assign 10 (to_uint8 (seqNum ≫ 8)) nonce in
  let nonce := xor_assign 11 (to_uint8 seqNum) nonce in
  nonce.

(** Result of [parse_tls_header]: the [int] it returns together with the
    values stored through the two out-pointers.  The header documents the
    return value 0 as "need more data" and 1 as "header parsed". *)
Inductive tls_header_result : Type :=
  | NeedMoreData
  | HeaderParsed (outContentType outRecordLen : Z).

Definition tls_header_return (r : tls_header_result) : Z :=
  match r with NeedMoreData => 0 | HeaderParsed _ _ => 1 end.

Definition parse_tls_header (buffer : list Z) : tls_header_result :=
  let bufferLen := length buffer in
  if (bufferLen <? 5)%nat then NeedMoreData
  else
    HeaderParsed
      (byte_at buffer 0)
      (to_uint16 (Z.lor (to_uint16 (byte_at buffer 3) ≪ 8) (byte_at buffer 4))).

(** The backwards scan [while (i >= 0 && data[i] == 0) i--;] entered with
    [i = n - 1]; the result is the final value of [i]. *)
Fixpoint scan_back (data : list Z) (n : nat) : Z :=
  match n with
  | O => -1
  | S i => if byte_at data i =? 0 then scan_back data i else Z.of_nat i
  end.

(** [find_tls13_content_end] returns the [ssize_t] result and the value
    stored through [outContentType], if any. *)
Definition find_tls13_content_end (data : list Z) : Z * option Z :=
  let length := Z.of_nat (length data) in
  if length =? 0 then (-1, None)
  else
    let i := to_ssize_t length - 1 in
    let last := byte_at data (Z.to_nat (length - 1)) in
    if (8 <=? length) && negb (last =? 0) then (to_ssize_t length - 1, Some last)
    else
      let i := if 0 <=? i then scan_back data (Z.to_nat (i + 1)) else i in
      if i <? 0 then (-1, None)
      else (i, Some (byte_at data (Z.to_nat i))).

Definition tls13_unwrap_content (data : list Z) : Z * option Z :=
  let length := Z.of_nat (length data) in
  if length =? 0 then (-1, None)
  else
    let '(contentEnd, outContentType) := find_tls13_content_end data in
    if contentEnd <? 0 then (-1, outContentType)
    else (contentEnd, outContentType).

(* --------------------------------------------------------------------- *)
(** ** VLESS/CVLESS.h, VLESS/CVLESS.c                                     *)
(* --------------------------------------------------------------------- *)

Definition VLESS_CMD_TCP : Z := 0x01.
Definition VLESS_CMD_UDP : Z := 0x02.

Definition VLESS_ADDR_IPV4 : Z := 0x01.
Definition VLESS_ADDR_DOMAIN : Z := 0x02.
Definition VLESS_ADDR_IPV6 : Z := 0x03.

(** [memcpy(dst + offset, src, n)]. *)
Definition memcpy (dst : list Z) (offset : nat) (src : list Z) (n : nat)
  : list Z :=
  list_inserts offset (take n src) dst.

(** The function returns the buffer as it leaves it and the [size_t] it
    returns.  [command], [port] and [addressType] are the values of the
    [uint8_t], [uint16_t] and [uint8_t] parameters. *)
Definition build_vless_request_header
    (buffer uuid : list Z) (command port addressType : Z)
    (address : list Z) (addressLen : nat) : list Z * nat :=
  let offset := 0%nat in
  (* Version (1 byte) - always 0 *)
  let buffer := <[offset := 0x00]> buffer in
  let offset := S offset in
  (* UUID (16 bytes) *)
  let buffer := memcpy buffer offset uuid 16 in
  let offset := (offset + 16)%nat in
  (* Addons length (1 byte) - 0 for no addons *)
  let buffer := <[offset := 0x00]> buffer in
  let offset := S offset in
  (* Command (1 byte) *)
  let buffer := <[offset := command]> buffer in
  let offset := S offset in
  (* Port (2 bytes, big-endian) *)
  let buffer := <[offset := to_uint8 (port ≫ 8)]> buffer in
  let offset := S offset in
  let buffer := <[offset := to_uint8 (Z.land port 0xFF)]> buffer in
  let offset := S offset in
  (* Address type (1 byte) *)
  let buffer := <[offset := addressType]> buffer in
  let offset := S offset in
  (* Address data *)
  if addressType =? VLESS_ADDR_DOMAIN then
    let buffer := <[offset := to_uint8 (Z.of_nat addressLen)]> buffer in
    let offset := S offset in
    let buffer := memcpy buffer offset address addressLen in
    (buffer, (offset + addressLen)%nat)
  else if addressType =? VLESS_ADDR_IPV4 then
    (memcpy buffer offset address 4, (offset + 4)%nat)
  else if addressType =? VLESS_ADDR_IPV6 then
    (memcpy buffer offset address 16, (offset + 16)%nat)
  else (buffer, offset).

(** The typed address the builder is documented to take (CVLESS.h: 4 bytes
    for IPv4, 16 for IPv6, or a domain string), with the triple of arguments
    that passes it to [build_vless_request_header]. *)
Inductive VlessAddress : Type :=
  | IPv4 (bytes : list Z)
  | IPv6 (bytes : list Z)
  | Domain (bytes : list Z).

Definition address_type (a : VlessAddress) : Z :=
  match a with
  | IPv4 _ => VLESS_ADDR_IPV4
  | IPv6 _ => VLESS_ADDR_IPV6
  | Domain _ => VLESS_ADDR_DOMAIN
  end.

Definition address_bytes (a : VlessAddress) : list Z :=
  match a with IPv4 b | IPv6 b | Domain b => b end.

Definition is_domain (a : VlessAddress) : bool :=
  match a with Domain _ => true | _ => false end.

Definition valid_address (a : VlessAddress) : Prop :=
  match a with
  | IPv4 b => length b = 4%nat
  | IPv6 b => length b = 16%nat
  | Domain b => (length b ≤ 255)%nat
  end.

(** The request header as a value, and the wire layout of the claim written
    as a list: what a serializer of that layout has to produce. *)
Record VlessRequestHeader : Type := {
  h_version : Z;
  h_uuid : list Z;
  h_addonsLength : Z;
  h_command : Z;
  h_port : Z;
  h_address : VlessAddress;
}.

Definition address_payload (a : VlessAddress) : list Z :=
  match a with
  | Domain b => Z.of_nat (length b) :: b
  | IPv4 b | IPv6 b => b
  end.

Definition header_layout (h : VlessRequestHeader) : list Z :=
  [h_version h] ++ h_uuid h ++ [h_addonsLength h; h_command h]
  ++ be_bytes 2 (h_port h) ++ [address_type (h_address h)]
  ++ address_payload (h_address h).

(** Reader of the layout, every field from its fixed offset. *)
Definition read_address (bytes : list Z) : option VlessAddress :=
  let ty := byte_at bytes 21 in
  if ty =? VLESS_ADDR_IPV4 then Some (IPv4 (take 4 (drop 22 bytes)))
  else if ty =? VLESS_ADDR_IPV6 then Some (IPv6 (take 16 (drop 22 bytes)))
  else if ty =? VLESS_ADDR_DOMAIN then
    Some (Domain (take (Z.to_nat (byte_at bytes 22)) (drop 23 bytes)))
  else None.

Definition read_vless_request_header (bytes : list Z)
  : option VlessRequestHeader :=
  match read_address bytes with
  | Some a =>
      Some {| h_version := byte_at bytes 0;
              h_uuid := take 16 (drop 1 bytes);
              h_addonsLength := byte_at bytes 17;
              h_command := byte_at bytes 18;
              h_port := be_value [byte_at bytes 19; byte_at bytes 20];
              h_address := a |}
  | None => None
  end.

(** *** Characters and C strings *)

Definition chr (a : ascii) : Z := Z.of_nat (nat_of_ascii a).
Arguments chr a%_char.

Definition bytes_of_string (s : string) : list Z :=
  chr <$> String.list_ascii_of_string s.
Arguments bytes_of_string s%_string.

(** [*p] for a pointer at index [p] of a NUL-terminated buffer. *)
Definition char_at (buf : list Z) (p : nat) : Z := default 0 (buf !! p).

(** *** [strtol], after ISO C 7.22.1.4 in the "C" locale: white space is
    skipped, then an optional sign, then for base 16 an optional [0x] or
    [0X] that a hexadecimal digit follows, then the longest run of digits of
    the base.  The result is the value, clamped to the range of [long], and
    the index one past the last digit; without any digit it is 0 and the
    start index. *)

Definition LONG_MAX : Z := 2 ^ 63 - 1.
Definition LONG_MIN : Z := - 2 ^ 63.

Definition isspace (c : Z) : bool :=
  (c =? chr " ") || ((9 <=? c) && (c <=? 13)).

Definition digit_value (c : Z) : option Z :=
  if (chr "0" <=? c) && (c <=? chr "9") then Some (c - chr "0")
  else if (chr "a" <=? c) && (c <=? chr "z") then Some (c - chr "a" + 10)
  else if (chr "A" <=? c) && (c <=? chr "Z") then Some (c - chr "A" + 10)
  else None.

Definition digit_in_base (base c : Z) : option Z :=
  match digit_value c with
  | Some d => if d <? base then Some d else None
  | None => None
  end.

Fixpoint skip_spaces (s : list Z) : nat :=
  match s with
  | c :: s' => if isspace c then S (skip_spaces s') else O
  | [] => O
  end.

(** Value and number of the leading digits of [s], accumulated onto [acc]. *)
Fixpoint scan_digits (base : Z) (s : list Z) (acc : Z) : Z * nat :=
  match s with
  | c :: s' =>
      match digit_in_base base c with
      | Some d =>
          let '(v, n) := scan_digits base s' (acc * base + d) in (v, S n)
      | None => (acc, O)
      end
  | [] => (acc, O)
  end.

Definition sign_length (s : list Z) : bool * nat :=
  match s with
  | c :: _ =>
      if c =? chr "-" then (true, 1%nat)
      else if c =? chr "+" then (false, 1%nat)
      else (false, 0%nat)
  | [] => (false, 0%nat)
  end.

Definition hex_prefix_length (base : Z) (s : list Z) : nat :=
  if base =? 16 then
    match s with
    | z :: s1 =>
        if z =? chr "0" then
          match s1 with
          | x :: s2 =>
              if (x =? chr "x") || (x =? chr "X") then
                match s2 with
                | h :: _ =>
                    if bool_decide (is_Some (digit_in_base 16 h))
                    then 2%nat else 0%nat
                | [] => 0%nat
                end
              else 0%nat
          | [] => 0%nat
          end
        else 0%nat
    | [] => 0%nat
    end
  else 0%nat.

Definition clamp_long (v : Z) : Z :=
  if LONG_MAX <? v then LONG_MAX
  else if v <? LONG_MIN then LONG_MIN
  else v.

(** [strtol(buf + nptr, &end, base)]: the value and [end] as an index. *)
Definition strtol (buf : list Z) (nptr : nat) (base : Z) : Z * nat :=
  let s := drop nptr buf in
  let ws := skip_spaces s in
  let s := drop ws s in
  let '(neg, sg) := sign_length s in
  let s := drop sg s in
  let px := hex_prefix_length base s in
  let s := drop px s in
  let '(v, n) := scan_digits base s 0 in
  if (n =? 0)%nat then (0, nptr)
  else (clamp_long (if neg then - v else v), (nptr + ws + sg + px + n)%nat).

(** *** [parse_ipv4_address] *)

(** The loop [while (count < 4) { ... }], entered with [4 - count =
    remaining]; [parts] holds the [count] values stored so far.  [None] is
    a [return 0] from inside the loop, [Some parts] is leaving the loop. *)
Fixpoint parse_ipv4_loop (remaining : nat) (buf : list Z) (ptr : nat)
    (parts : list Z) : option (list Z) :=
  match remaining with
  | O => Some parts
  | S remaining =>
      let '(val, end_) := strtol buf ptr 10 in
      if (val <? 0) || (255 <? val) then None
      else if (ptr =? end_)%nat then None (* No digits parsed *)
      else
        let parts := parts ++ [val] in
        if char_at buf end_ =? 0 then Some parts
        else if negb (char_at buf end_ =? chr ".") then None
        else parse_ipv4_loop remaining buf (end_ + 1) parts
  end.

(** [Some outBytes] is a return of 1, [None] a return of 0. *)
Definition parse_ipv4_address (str : list Z) : option (list Z) :=
  let strLen := length str in
  if (strLen =? 0)%nat || (15 <? strLen)%nat then None
  else
    (* Copy to null-terminated buffer for parsing *)
    let buf := str ++ [0] in
    match parse_ipv4_loop 4 buf 0 [] with
    | None => None
    | Some parts =>
        if negb (length parts =? 4)%nat then None
        else Some (to_uint8 <$> parts)
    end.

(** *** [parse_ipv6_address] *)

(** Outcome of the scanning loop: a [return 0] from inside it, or leaving
    it with [parts], [partCount] and [doubleColonPos]. *)
Inductive ipv6_scan : Type :=
  | ScanReturn0
  | ScanDone (parts : list Z) (partCount : nat) (doubleColonPos : Z).

(** The loop [while ( *ptr && partCount < 8) { ... }].  Every iteration that
    continues moves [ptr] forward, so [fuel] above the number of characters
    left is never used up ([parse_ipv6_loop_fuel]); the outer [None] is
    running out of fuel. *)
Fixpoint parse_ipv6_loop (fuel : nat) (buf : list Z) (ptr : nat)
    (parts : list Z) (partCount : nat) (doubleColonPos : Z)
  : option ipv6_scan :=
  match fuel with
  | O => None
  | S fuel =>
      if (char_at buf ptr =? 0) || negb (partCount <? 8)%nat
      then Some (ScanDone parts partCount doubleColonPos)
      else if char_at buf ptr =? chr ":" then
        if char_at buf (ptr + 1) =? chr ":" then
          if 0 <=? doubleColonPos then Some ScanReturn0 (* Multiple :: *)
          else
            let doubleColonPos := Z.of_nat partCount in
            let ptr := (ptr + 2)%nat in
            if char_at buf ptr =? 0
            then Some (ScanDone parts partCount doubleColonPos)
            else parse_ipv6_loop fuel buf ptr parts partCount doubleColonPos
        else parse_ipv6_loop fuel buf (ptr + 1) parts partCount doubleColonPos
      else
        let '(val, end_) := strtol buf ptr 16 in
        if (val <? 0) || (0xFFFF <? val) then Some ScanReturn0
        else if (ptr =? end_)%nat then Some ScanReturn0
        else
          parse_ipv6_loop fuel buf end_
            (<[partCount := to_uint16 val]> parts) (S partCount)
            doubleColonPos
  end.

(** [for (int i = 7; i >= lo; i--) parts[i] = parts[i - missing];]
    entered with [i = n - 1]. *)
Fixpoint shift_parts (n : nat) (lo missing : Z) (parts : list Z) : list Z :=
  match n with
  | O => parts
  | S i =>
      if lo <=? Z.of_nat i
      then shift_parts i lo missing
             (<[i := byte_at parts (Z.to_nat (Z.of_nat i - missing))]> parts)
      else parts
  end.

(** [for (int i = lo; i < hi; i++) parts[i] = 0;] with [hi - lo = count]. *)
Fixpoint zero_parts (count : nat) (i : nat) (parts : list Z) : list Z :=
  match count with
  | O => parts
  | S count => zero_parts count (S i) (<[i := 0]> parts)
  end.

(** Convert to bytes (big-endian). *)
Definition parts_to_bytes (parts : list Z) : list Z :=
  p ← parts; [to_uint8 (p ≫ 8); to_uint8 (Z.land p 0xFF)].

Definition parse_ipv6_address (str : list Z) : option (list Z) :=
  let strLen := length str in
  if (strLen =? 0)%nat || (45 <? strLen)%nat then None
  else
    (* Copy to buffer, strip brackets if present *)
    let '(start, len) :=
      if (2 <=? strLen)%nat && (char_at str 0 =? chr "[")
         && (char_at str (strLen - 1) =? chr "]")
      then (1%nat, (strLen - 2)%nat) else (0%nat, strLen) in
    if (len =? 0)%nat || (39 <? len)%nat then None
    else
      let buf := take len (drop start str) ++ [0] in
      match parse_ipv6_loop (S (length buf)) buf 0 (replicate 8 0) 0 (-1) with
      | None | Some ScanReturn0 => None
      | Some (ScanDone parts partCount doubleColonPos) =>
          if 0 <=? doubleColonPos then
            (* Expand :: if present *)
            let missing := 8 - Z.of_nat partCount in
            if missing <? 0 then None
            else
              let parts :=
                shift_parts 8 (doubleColonPos + missing) missing parts in
              let parts :=
                zero_parts (Z.to_nat missing) (Z.to_nat doubleColonPos) parts in
              Some (parts_to_bytes parts)
          else if negb (partCount =? 8)%nat then None
          else Some (parts_to_bytes parts)
      end.

(** *** [parse_vless_address]: [Some (outType, outBytes, outLen)] is a
    return of 1, [None] a return of 0. *)
Definition parse_vless_address (str : list Z) : option (Z * list Z * nat) :=
  let strLen := length str in
  match parse_ipv4_address str with
  | Some outBytes => Some (VLESS_ADDR_IPV4, outBytes, 4%nat)
  | None =>
      match parse_ipv6_address str with
      | Some outBytes => Some (VLESS_ADDR_IPV6, outBytes, 16%nat)
      | None =>
          if (255 <? strLen)%nat then None (* Domain too long *)
          else Some (VLESS_ADDR_DOMAIN, str, strLen)
      end
  end.

(* --------------------------------------------------------------------- *)
(** ** lwip/lwip_bridge.c                                                 *)
(* --------------------------------------------------------------------- *)

(** lwip/err.h *)
Definition ERR_OK : Z := 0.
Definition ERR_ABRT : Z := -13.

(** The opaque connection pointer Swift returns from its accept callback;
    [NULL] is [None]. *)
Definition conn : Type := nat.

(** A TCP PCB, as far as the bridge touches it: its address, the callback
    argument ([tcp_arg]) and whether the bridge's [tcp_recv_cb],
    [tcp_sent_cb] and [tcp_err_cb] are installed ([false] is [NULL]). *)
Record tcp_pcb : Type := {
  pcb_id : nat;
  callback_arg : option conn;
  recv : bool;
  sent : bool;
  errf : bool;
}.

Inductive ip_addr_t : Type :=
  | IPADDR_TYPE_V4 (addr : list Z)
  | IPADDR_TYPE_V6 (addr : list Z).

(** A call out of the bridge into Swift: [s_tcp_err_fn(conn, err)]. *)
Inductive swift_call : Type :=
  | TcpErr (c : conn) (err : Z).

(** The file-scope state of the bridge and the PCB lists of the engine.
    [swift_calls] records the calls made into Swift, oldest first. *)
Record bridge : Type := {
  s_tcp_err_fn : bool;
  tcp_active_pcbs : list tcp_pcb;
  tcp_tw_pcbs : list tcp_pcb;
  tcp_listen_pcb_v4 : bool;
  tcp_listen_pcb_v6 : bool;
  udp_listen_pcb_v4 : bool;
  udp_listen_pcb_v6 : bool;
  tun_netif_up : bool;
  s_current_udp_dst_port : Z;
  s_current_udp_dst_ip : ip_addr_t;
  swift_calls : list swift_call;
}.

Definition set_pcbs (active tw : list tcp_pcb) (st : bridge) : bridge :=
  {| s_tcp_err_fn := s_tcp_err_fn st;
     tcp_active_pcbs := active;
     tcp_tw_pcbs := tw;
     tcp_listen_pcb_v4 := tcp_listen_pcb_v4 st;
     tcp_listen_pcb_v6 := tcp_listen_pcb_v6 st;
     udp_listen_pcb_v4 := udp_listen_pcb_v4 st;
     udp_listen_pcb_v6 := udp_listen_pcb_v6 st;
     tun_netif_up := tun_netif_up st;
     s_current_udp_dst_port := s_current_udp_dst_port st;
     s_current_udp_dst_ip := s_current_udp_dst_ip st;
     swift_calls := swift_calls st |}.

Definition call_swift (c : swift_call) (st : bridge) : bridge :=
  {| s_tcp_err_fn := s_tcp_err_fn st;
     tcp_active_pcbs := tcp_active_pcbs st;
     tcp_tw_pcbs := tcp_tw_pcbs st;
     tcp_listen_pcb_v4 := tcp_listen_pcb_v4 st;
     tcp_listen_pcb_v6 := tcp_listen_pcb_v6 st;
     udp_listen_pcb_v4 := udp_listen_pcb_v4 st;
     udp_listen_pcb_v6 := udp_listen_pcb_v6 st;
     tun_netif_up := tun_netif_up st;
     s_current_udp_dst_port := s_current_udp_dst_port st;
     s_current_udp_dst_ip := s_current_udp_dst_ip st;
     swift_calls := swift_calls st ++ [c] |}.

Definition set_current_udp_dst (port : Z) (ip : ip_addr_t) (st : bridge)
  : bridge :=
  {| s_tcp_err_fn := s_tcp_err_fn st;
     tcp_active_pcbs := tcp_active_pcbs st;
     tcp_tw_pcbs := tcp_tw_pcbs st;
     tcp_listen_pcb_v4 := tcp_listen_pcb_v4 st;
     tcp_listen_pcb_v6 := tcp_listen_pcb_v6 st;
     udp_listen_pcb_v4 := udp_listen_pcb_v4 st;
     udp_listen_pcb_v6 := udp_listen_pcb_v6 st;
     tun_netif_up := tun_netif_up st;
     s_current_udp_dst_port := port;
     s_current_udp_dst_ip := ip;
     swift_calls := swift_calls st |}.

(** Listeners closed or removed and set to [NULL], interface taken down. *)
Definition close_listeners (st : bridge) : bridge :=
  {| s_tcp_err_fn := s_tcp_err_fn st;
     tcp_active_pcbs := tcp_active_pcbs st;
     tcp_tw_pcbs := tcp_tw_pcbs st;
     tcp_listen_pcb_v4 := false;
     tcp_listen_pcb_v6 := false;
     udp_listen_pcb_v4 := false;
     udp_listen_pcb_v6 := false;
     tun_netif_up := false;
     s_current_udp_dst_port := s_current_udp_dst_port st;
     s_current_udp_dst_ip := s_current_udp_dst_ip st;
     swift_calls := swift_calls st |}.

(** *** The engine (lwIP) *)

(** Unlinking a PCB from a PCB list: the first entry with that address. *)
Fixpoint tcp_pcb_remove (id : nat) (pcbs : list tcp_pcb) : list tcp_pcb :=
  match pcbs with
  | [] => []
  | p :: pcbs' =>
      if (pcb_id p =? id)%nat then pcbs' else p :: tcp_pcb_remove id pcbs'
  end.

Fixpoint find_pcb (id : nat) (pcbs : list tcp_pcb) : option tcp_pcb :=
  match pcbs with
  | [] => None
  | p :: pcbs' => if (pcb_id p =? id)%nat then Some p else find_pcb id pcbs'
  end.

(** Writing the fields of the PCB at address [id], on whichever list it is. *)
Definition update_pcb (id : nat) (f : tcp_pcb → tcp_pcb) (st : bridge)
  : bridge :=
  let upd p := if (pcb_id p =? id)%nat then f p else p in
  set_pcbs (upd <$> tcp_active_pcbs st) (upd <$> tcp_tw_pcbs st) st.

Definition tcp_arg (id : nat) (arg : option conn) : bridge → bridge :=
  update_pcb id (λ p, {| pcb_id := pcb_id p; callback_arg := arg;
                         recv := recv p; sent := sent p; errf := errf p |}).

Definition tcp_recv (id : nat) (cb : bool) : bridge → bridge :=
  update_pcb id (λ p, {| pcb_id := pcb_id p; callback_arg := callback_arg p;
                         recv := cb; sent := sent p; errf := errf p |}).

Definition tcp_sent (id : nat) (cb : bool) : bridge → bridge :=
  update_pcb id (λ p, {| pcb_id := pcb_id p; callback_arg := callback_arg p;
                         recv := recv p; sent := cb; errf := errf p |}).

Definition tcp_err (id : nat) (cb : bool) : bridge → bridge :=
  update_pcb id (λ p, {| pcb_id := pcb_id p; callback_arg := callback_arg p;
                         recv := recv p; sent := sent p; errf := cb |}).

(** [tcp_err_cb], the error callback the bridge installs on accepted PCBs. *)
Definition tcp_err_cb (arg : option conn) (err : Z) (st : bridge) : bridge :=
  match arg with
  | Some c => if s_tcp_err_fn st then call_swift (TcpErr c err) st else st
  | None => st
  end.

(** Modelled from the spec: lwIP's [tcp_abort] (file [tcp.c], not among the
    sources).  "onError ... fired when the underlying engine aborts or
    errors the connection; the engine-level resource is already invalid by
    the time this fires", and, in the words of [lwip_bridge_shutdown],
    "tcp_abort() removes the PCB from tcp_active_pcbs" and "fires the err
    callback" when one is installed.  A PCB in TIME_WAIT is freed without a
    callback. *)
Definition tcp_abort (id : nat) (st : bridge) : bridge :=
  match find_pcb id (tcp_active_pcbs st) with
  | Some p =>
      let st := set_pcbs (tcp_pcb_remove id (tcp_active_pcbs st))
                         (tcp_tw_pcbs st) st in
      if errf p then tcp_err_cb (callback_arg p) ERR_ABRT st else st
  | None =>
      set_pcbs (tcp_active_pcbs st) (tcp_pcb_remove id (tcp_tw_pcbs st)) st
  end.



(** *** The bridge *)



(** [while (tcp_active_pcbs != NULL) tcp_abort(tcp_active_pcbs);]
    [None] is running out of fuel. *)
Fixpoint abort_active_pcbs (fuel : nat) (st : bridge) : option bridge :=
  match tcp_active_pcbs st with
  | [] => Some st
  | pcb :: _ =>
      match fuel with
      | O => None
      | S fuel => abort_active_pcbs fuel (tcp_abort (pcb_id pcb) st)
      end
  end.

(** [while (tcp_tw_pcbs != NULL) { tcp_pcb_remove(&tcp_tw_pcbs, pcb);
    tcp_free(pcb); }] *)
Fixpoint free_tw_pcbs (fuel : nat) (st : bridge) : option bridge :=
  match tcp_tw_pcbs st with
  | [] => Some st
  | pcb :: _ =>
      match fuel with
      | O => None
      | S fuel =>
          free_tw_pcbs fuel
            (set_pcbs (tcp_active_pcbs st)
                      (tcp_pcb_remove (pcb_id pcb) (tcp_tw_pcbs st)) st)
      end
  end.

Definition lwip_bridge_shutdown (fuel : nat) (st : bridge) : option bridge :=
  st ← abort_active_pcbs fuel st;
  st ← free_tw_pcbs fuel st;
  Some (close_listeners st).

(** The PCB [tcp_accept_cb] leaves behind for a flow bound to [c]. *)
Definition bound_pcb (flow : nat * conn) : tcp_pcb :=
  {| pcb_id := flow.1; callback_arg := Some flow.2;
     recv := true; sent := true; errf := true |}.

(** The call an abort of [p] makes into Swift when an error callback is
    registered: none unless [tcp_err_cb] is installed with an argument. *)
Definition notification (p : tcp_pcb) : option swift_call :=
  if errf p then c ← callback_arg p; Some (TcpErr c ERR_ABRT) else None.

(** The PCB after [lwip_bridge_tcp_close] has cleared its callbacks. *)
Definition cleared (p : tcp_pcb) : tcp_pcb :=
  {| pcb_id := pcb_id p; callback_arg := None;
     recv := false; sent := false; errf := false |}.

(** [teardown ids l l']: the PCB list [l'] is [l] after the PCBs with an
    address in [ids] were closed: each is still there with its callbacks
    cleared, or gone; the other PCBs are as they were. *)
Inductive teardown (ids : list nat) : list tcp_pcb → list tcp_pcb → Prop :=
  | teardown_nil : teardown ids [] []
  | teardown_keep p l l' :
      pcb_id p ∉ ids → teardown ids l l' → teardown ids (p :: l) (p :: l')
  | teardown_cleared p l l' :
      pcb_id p ∈ ids → teardown ids l l' →
      teardown ids (p :: l) (cleared p :: l')
  | teardown_gone p l l' :
      pcb_id p ∈ ids → teardown ids l l' → teardown ids (p :: l) l'.

(** What [lwip_bridge_input] does with a packet, up to the point where the
    engine takes over: it returns early; or [pbuf_alloc] fails; or the
    packet [p] is passed to [tun_netif.input], the bridge being in state
    [st] at that moment. *)
Inductive input_result : Type :=
  | InputDropped (st : bridge)
  | InputAllocFailed (st : bridge)
  | InputToEngine (p : list Z) (st : bridge).

(** [data] is [None] for a null pointer; [pbuf_alloc_ok] tells whether
    [pbuf_alloc] finds a buffer. *)
Definition lwip_bridge_input (data : option (list Z)) (len : Z)
    (pbuf_alloc_ok : bool) (st : bridge) : input_result :=
  match data with
  | None => InputDropped st
  | Some pkt =>
      if len <=? 0 then InputDropped st
      else
        (* Parse IP version for UDP destination capture *)
        let version := Z.land (byte_at pkt 0 ≫ 4) 0x0F in
        let captured :=
          if (version =? 4) && (20 <=? len) then
            let proto := byte_at pkt 9 in
            let ihl := to_uint8 (Z.land (byte_at pkt 0) 0x0F * 4) in
            if (proto =? 17) && (ihl + 8 <=? len) then
              Some (set_current_udp_dst
                      (to_uint16
                         (Z.lor (to_uint16 (byte_at pkt (Z.to_nat (ihl + 2))) ≪ 8)
                                (byte_at pkt (Z.to_nat (ihl + 3)))))
                      (IPADDR_TYPE_V4 (take 4 (drop 16 pkt))) st)
            else Some st
          else if (version =? 6) && (40 <=? len) then
            let proto := byte_at pkt 6 in
            if (proto =? 17) && (48 <=? len) then
              Some (set_current_udp_dst
                      (to_uint16
                         (Z.lor (to_uint16 (byte_at pkt 42) ≪ 8)
                                (byte_at pkt 43)))
                      (IPADDR_TYPE_V6 (take 16 (drop 24 pkt))) st)
            else Some st
          else None in
        match captured with
        | None => InputDropped st
        | Some st =>
            if pbuf_alloc_ok
            then InputToEngine (take (Z.to_nat (to_uint16 len)) pkt) st
            else InputAllocFailed st
        end
  end.

(** The state [lwip_bridge_init] leaves when every allocation succeeds:
    the four catch-all listeners, the interface up, no connection yet.
    [err_fn] tells whether Swift has registered its error callback. *)
Definition bridge_after_init (err_fn : bool) : bridge :=
  {| s_tcp_err_fn := err_fn;
     tcp_active_pcbs := [];
     tcp_tw_pcbs := [];
     tcp_listen_pcb_v4 := true;
     tcp_listen_pcb_v6 := true;
     udp_listen_pcb_v4 := true;
     udp_listen_pcb_v6 := true;
     tun_netif_up := true;
     s_current_udp_dst_port := 0;
     s_current_udp_dst_ip := IPADDR_TYPE_V4 [0; 0; 0; 0];
     swift_calls := [] |}.

(** The version nibble and, for IPv4, the header length in bytes (IHL
    field times 4), as the packet formats define them. *)
Definition ip_version (pkt : list Z) : Z := byte_at pkt 0 `div` 16.
Definition ipv4_header_length (pkt : list Z) : Z :=
  (byte_at pkt 0 `mod` 16) * 4.

(* --------------------------------------------------------------------- *)
(** ** Text forms of addresses                                            *)
(* --------------------------------------------------------------------- *)

(** The decimal digits of an octet, without leading zeros, and the
    dotted-quad text of four octets: the strings [parse_ipv4_address] is
    meant for. *)
Definition decimal (n : Z) : list Z :=
  if n <? 10 then [chr "0" + n]
  else if n <? 100 then [chr "0" + n `div` 10; chr "0" + n `mod` 10]
  else [chr "0" + n `div` 100; chr "0" + (n `div` 10) `mod` 10;
        chr "0" + n `mod` 10].

Definition dotted_quad (a b c d : Z) : list Z :=
  decimal a ++ [chr "."] ++ decimal b ++ [chr "."] ++ decimal c
  ++ [chr "."] ++ decimal d.

(* --------------------------------------------------------------------- *)
(** ** lwip/lwip_bridge.c, continued                                      *)
(* --------------------------------------------------------------------- *)

Definition lwip_bridge_tcp_abort (pcb : nat) (st : bridge) : bridge :=
  let st := tcp_arg pcb None st in
  let st := tcp_recv pcb false st in
  let st := tcp_sent pcb false st in
  let st := tcp_err pcb false st in
  tcp_abort pcb st.

(** A PCB the engine has just created for an incoming connection: no
    callback argument and no callback yet. *)
Definition fresh_pcb (id : nat) : tcp_pcb :=
  {| pcb_id := id; callback_arg := None;
     recv := false; sent := false; errf := false |}.

(** lwIP's [struct pbuf], as far as the bridge reads it: the bytes of the
    first buffer, the length of the whole chain and the rest of the
    chain. *)
#[warnings="-register-all"]
Inductive pbuf : Type :=
  Pbuf { payload : list Z; tot_len : Z; next : option pbuf }.

(** The pointer a callback hands to Swift together with a length: the
    payload of a pbuf, or the heap buffer [buf] that the [mem_malloc] and
    [pbuf_copy_partial] just before have prepared. *)
Inductive data_ptr : Type :=
  | PayloadOf (p : pbuf)
  | HeapBuf.

(** A call out of the bridge, into the allocator, the engine or Swift, in
    the order the code makes them.  [MemMalloc], [UdpNewIpType] and
    [PbufAlloc] carry whether they returned a pointer, [UdpBind] its
    [err_t]; [UdpNewIpType] is asked for an IPv6 PCB when [v6] holds. *)
Inductive call : Type :=
  | MemMalloc (size : Z) (ok : bool)
  | PbufCopyPartial (p : pbuf) (len offset : Z)
  | MemFree
  | PbufFree (p : pbuf)
  | OutputFn (data : data_ptr) (len : Z) (is_ipv6 : Z)
  | TcpRecvFn (c : conn) (data : option data_ptr) (len : Z)
  | UdpRecvFn (src_ip : list Z) (src_port : Z) (dst_ip : list Z)
      (dst_port : Z) (is_ipv6 : Z) (data : data_ptr) (len : Z)
  | UdpNewIpType (v6 : bool) (ok : bool)
  | UdpBind (addr : ip_addr_t) (port : Z) (err : Z)
  | PbufAlloc (length : Z) (ok : bool)
  | UdpSendtoIfSrc (p : pbuf) (dst_ip : ip_addr_t) (dst_port : Z)
      (src_ip : ip_addr_t)
  | UdpRemove.

(** [s_output_fn] tells whether Swift has registered its output callback,
    [mem_malloc_ok] whether [mem_malloc] finds memory. *)
Definition netif_output_ip4 (s_output_fn mem_malloc_ok : bool)
    (p : option pbuf) : Z * list call :=
  (ERR_OK,
   match p with
   | Some p =>
       if s_output_fn then
         match next p with
         | Some _ =>
             if mem_malloc_ok then
               [MemMalloc (tot_len p) true;
                PbufCopyPartial p (tot_len p) 0;
                OutputFn HeapBuf (tot_len p) 0;
                MemFree]
             else [MemMalloc (tot_len p) false]
         | None => [OutputFn (PayloadOf p) (tot_len p) 0]
         end
       else []
   | None => []
   end).

Definition netif_output_ip6 (s_output_fn mem_malloc_ok : bool)
    (p : option pbuf) : Z * list call :=
  (ERR_OK,
   match p with
   | Some p =>
       if s_output_fn then
         match next p with
         | Some _ =>
             if mem_malloc_ok then
               [MemMalloc (tot_len p) true;
                PbufCopyPartial p (tot_len p) 0;
                OutputFn HeapBuf (tot_len p) 1;
                MemFree]
             else [MemMalloc (tot_len p) false]
         | None => [OutputFn (PayloadOf p) (tot_len p) 1]
         end
       else []
   | None => []
   end).

(** [out] is the caller's array; the result is the array as written and
    the value stored through [is_ipv6]. *)
Definition ip_addr_to_bytes (addr : ip_addr_t) (out : list Z) : list Z * Z :=
  match addr with
  | IPADDR_TYPE_V6 a => (memcpy out 0 a 16, 1)
  | IPADDR_TYPE_V4 a => (memcpy out 0 a 4, 0)
  end.

(** [s_tcp_recv_fn] tells whether Swift has registered its receive
    callback, [mem_malloc_ok] whether [mem_malloc] finds memory. *)
Definition tcp_recv_cb (s_tcp_recv_fn mem_malloc_ok : bool)
    (arg : option conn) (p : option pbuf) : Z * list call :=
  match arg with
  | None =>
      (ERR_ABRT, match p with Some p => [PbufFree p] | None => [] end)
  | Some c =>
      match p with
      | None =>
          (* Remote closed connection (graceful FIN) *)
          (ERR_OK, if s_tcp_recv_fn then [TcpRecvFn c None 0] else [])
      | Some p =>
          (ERR_OK,
           (if s_tcp_recv_fn then
              match next p with
              | Some _ =>
                  if mem_malloc_ok then
                    [MemMalloc (tot_len p) true;
                     PbufCopyPartial p (tot_len p) 0;
                     TcpRecvFn c (Some HeapBuf) (tot_len p);
                     MemFree]
                  else [MemMalloc (tot_len p) false]
              | None => [TcpRecvFn c (Some (PayloadOf p)) (tot_len p)]
              end
            else [])
           ++ [PbufFree p])
      end
  end.


(** The [ip_addr_t] that [lwip_bridge_udp_sendto] rebuilds from raw bytes:
    [memset], [memcpy] of 16 or 4 bytes and [IP_SET_TYPE_VAL]. *)
Definition ip_addr_of_bytes (is_ipv6 : Z) (ip_bytes : list Z) : ip_addr_t :=
  if is_ipv6 =? 0
  then IPADDR_TYPE_V4 (memcpy (replicate 4 0) 0 ip_bytes 4)
  else IPADDR_TYPE_V6 (memcpy (replicate 16 0) 0 ip_bytes 16).

(** [udp_new_ok] and [pbuf_alloc_ok] tell whether the two allocations
    succeed; [bind_err] is the result of [udp_bind].  The result is the
    sequence of calls made, or [None] where the [memcpy] into the new
    pbuf runs past the [(u16_t)len] bytes allocated for it. *)
Definition lwip_bridge_udp_sendto
    (udp_new_ok : bool) (bind_err : Z) (pbuf_alloc_ok : bool)
    (src_ip_bytes : list Z) (src_port : Z)
    (dst_ip_bytes : list Z) (dst_port : Z) (is_ipv6 : Z)
    (data : option (list Z)) (len : Z) : option (list call) :=
  match data with
  | None => Some []
  | Some data =>
      if len <=? 0 then Some []
      else
        (* Reconstruct ip_addr_t from raw bytes *)
        let src_addr := ip_addr_of_bytes is_ipv6 src_ip_bytes in
        let dst_addr := ip_addr_of_bytes is_ipv6 dst_ip_bytes in
        let type := negb (is_ipv6 =? 0) in
        if negb udp_new_ok then Some [UdpNewIpType type false]
        else if negb (bind_err =? ERR_OK) then
          Some [UdpNewIpType type true; UdpBind src_addr src_port bind_err;
                UdpRemove]
        else if negb pbuf_alloc_ok then
          Some [UdpNewIpType type true; UdpBind src_addr src_port bind_err;
                PbufAlloc (to_uint16 len) false; UdpRemove]
        else if to_uint16 len <? len then None
        else
          let p := {| payload :=
                        memcpy (replicate (Z.to_nat (to_uint16 len)) 0) 0
                               data (Z.to_nat len);
                      tot_len := to_uint16 len;
                      next := None |} in
          Some [UdpNewIpType type true; UdpBind src_addr src_port bind_err;
                PbufAlloc (to_uint16 len) true;
                UdpSendtoIfSrc p dst_addr dst_port src_addr;
                PbufFree p; UdpRemove]
  end.

(* --------------------------------------------------------------------- *)
(** ** Crypto/blake3_dispatch.c                                           *)
(* --------------------------------------------------------------------- *)

Definition to_uint64 (z : Z) : Z := z `mod` 2 ^ 64.

Section blake3_dispatch.

(** The portable compression function of [blake3_portable.c], which is
    not among the sources: the 64 bytes it writes to [out] for a chaining
    value, a block, its length, a counter and flags. *)
Variable blake3_compress_xof_portable :
  list Z → list Z → Z → Z → Z → list Z.

Definition blake3_compress_xof (cv block : list Z)
    (block_len counter flags : Z) (out : list Z) : list Z :=
  memcpy out 0
    (blake3_compress_xof_portable cv block block_len counter flags) 64.

(** [out] is the whole output buffer and [offset] the position the
    pointer [out] of the source has reached in it. *)
Fixpoint blake3_xof_many (cv block : list Z) (block_len counter flags : Z)
    (out : list Z) (offset : nat) (outblocks : nat) : list Z :=
  match outblocks with
  | O => out
  | S outblocks =>
      let out :=
        memcpy out offset
          (blake3_compress_xof_portable cv block block_len counter flags)
          64 in
      blake3_xof_many cv block block_len (to_uint64 (counter + 1)) flags
        out (offset + 64) outblocks
  end.

End blake3_dispatch.

(* --------------------------------------------------------------------- *)
(** ** lwip/port/sys_arch.c                                               *)
(* --------------------------------------------------------------------- *)

Definition to_uint32 (z : Z) : Z := z `mod` 2 ^ 32.

Record mach_timebase_info_data_t : Type := {
  numer : Z;
  denom : Z;
}.

(** The two file-scope variables. *)
Record sys_arch : Type := {
  timebase_info : mach_timebase_info_data_t;
  timebase_initialized : bool;
}.

(** [mach_timebase_info] is what the system call of that name would
    report, [mach_absolute_time] the tick count read by this call. *)
Definition sys_now (mach_timebase_info : mach_timebase_info_data_t)
    (mach_absolute_time : Z) (st : sys_arch) : Z * sys_arch :=
  let st :=
    if negb (timebase_initialized st)
    then {| timebase_info := mach_timebase_info;
            timebase_initialized := true |}
    else st in
  let ticks := mach_absolute_time in
  (* Convert to milliseconds *)
  let nanos :=
    to_uint64 (ticks * numer (timebase_info st)) `div` denom (timebase_info st) in
  (to_uint32 (nanos `div` 1000000), st).

(* --------------------------------------------------------------------- *)
(** ** Counting calls                                                     *)
(* --------------------------------------------------------------------- *)

(** How often a sequence of calls makes a call of a given kind. *)
Definition count_calls (kind : call → bool) (calls : list call) : nat :=
  length (List.filter kind calls).

Definition is_pbuf_free (c : call) : bool :=
  match c with PbufFree _ => true | _ => false end.
Definition is_pbuf_alloc (c : call) : bool :=
  match c with PbufAlloc _ ok => ok | _ => false end.
Definition is_mem_malloc (c : call) : bool :=
  match c with MemMalloc _ ok => ok | _ => false end.
Definition is_mem_free (c : call) : bool :=
  match c with MemFree => true | _ => false end.
Definition is_udp_new (c : call) : bool :=
  match c with UdpNewIpType _ ok => ok | _ => false end.
Definition is_udp_remove (c : call) : bool :=
  match c with UdpRemove => true | _ => false end.
Definition is_udp_send (c : call) : bool :=
  match c with UdpSendtoIfSrc _ _ _ _ => true | _ => false end.
Definition is_tcp_recv_fn (c : call) : bool :=
  match c with TcpRecvFn _ _ _ => true | _ => false end.
Definition is_output_fn (c : call) : bool :=
  match c with OutputFn _ _ _ => true | _ => false end.

(* --------------------------------------------------------------------- *)
(** ** Text forms of addresses, continued                                 *)
(* --------------------------------------------------------------------- *)

(** A hexadecimal digit in lower case, the hexadecimal digits of a 16-bit
    group without leading zeros, and groups separated by colons: the full
    text form of an IPv6 address when there are eight groups. *)
Definition hex_digit (d : Z) : Z :=
  if d <? 10 then chr "0" + d else chr "a" + (d - 10).

Definition hex (n : Z) : list Z :=
  if n <? 16 then [hex_digit n]
  else if n <? 256 then [hex_digit (n `div` 16); hex_digit (n `mod` 16)]
  else if n <? 4096 then
    [hex_digit (n `div` 256); hex_digit ((n `div` 16) `mod` 16);
     hex_digit (n `mod` 16)]
  else
    [hex_digit (n `div` 4096); hex_digit ((n `div` 256) `mod` 16);
     hex_digit ((n `div` 16) `mod` 16); hex_digit (n `mod` 16)].

Fixpoint colon_hex (groups : list Z) : list Z :=
  match groups with
  | [] => []
  | g :: groups' =>
      match groups' with
      | [] => hex g
      | _ :: _ => hex g ++ chr ":" :: colon_hex groups'
      end
  end.

(* ===================================================================== *)
(** * Part II: theorems                                                   *)
(* ===================================================================== *)

(** ** Machine integers *)

Lemma to_uint8_id z : is_uint8 z → to_uint8 z = z.
Proof. unfold is_uint8, to_uint8. intros H. by apply Z.mod_small. Qed.

Lemma to_uint16_id z : is_uint16 z → to_uint16 z = z.
Proof. unfold is_uint16, to_uint16. intros H. by apply Z.mod_small. Qed.

Lemma to_uint8_range z : is_uint8 (to_uint8 z).
Proof. unfold is_uint8, to_uint8. apply Z.mod_pos_bound. lia. Qed.

Lemma to_ssize_t_id z : 0 <= z <= SSIZE_MAX → to_ssize_t z = z.
Proof.
  unfold to_ssize_t, SSIZE_MAX. intros H.
  rewrite Z.mod_small by lia.
  destruct (Z.leb_spec z (2 ^ 63 - 1)); lia.
Qed.

Lemma lxor_uint8 a b : is_uint8 a → is_uint8 b → is_uint8 (Z.lxor a b).
Proof.
  unfold is_uint8. intros [Ha1 Ha2] [Hb1 Hb2]. split.
  - by apply Z.lxor_nonneg.
  - destruct (decide (Z.lxor a b = 0)) as [->|Hne]; [lia|].
    assert (0 < Z.lxor a b) by (pose proof (proj2 (Z.lxor_nonneg a b)); lia).
    apply Z.log2_lt_pow2; [done|].
    eapply Z.le_lt_trans; [apply Z.log2_lxor; lia|].
    apply Z.max_lub_lt.
    + destruct (decide (a = 0)) as [->|]; [done|]. apply Z.log2_lt_pow2; lia.
    + destruct (decide (b = 0)) as [->|]; [done|]. apply Z.log2_lt_pow2; lia.
Qed.

Lemma lxor_cancel a b : Z.lxor (Z.lxor a b) b = a.
Proof. by rewrite Z.lxor_assoc, Z.lxor_nilpotent, Z.lxor_0_r. Qed.

Lemma byte_at_lookup buffer i b : buffer !! i = Some b → byte_at buffer i = b.
Proof. unfold byte_at. by intros ->. Qed.

Lemma byte_at_Forall (P : Z → Prop) buffer i :
  Forall P buffer → (i < length buffer)%nat → P (byte_at buffer i).
Proof.
  intros HP Hi. destruct (lookup_lt_is_Some_2 buffer i Hi) as [b Hb].
  rewrite (byte_at_lookup _ _ _ Hb). by eapply Forall_lookup_1.
Qed.

Lemma shiftr_byte z k :
  0 <= k → to_uint8 (z ≫ (8 * k)) = (z `div` 256 ^ k) `mod` 256.
Proof.
  intros Hk. unfold to_uint8.
  rewrite Z.shiftr_div_pow2 by lia.
  replace (2 ^ (8 * k)) with (256 ^ k); [done|].
  rewrite Z.pow_mul_r by lia. done.
Qed.

Lemma be_value_snoc bs b : be_value (bs ++ [b]) = be_value bs * 256 + b.
Proof. unfold be_value. by rewrite foldl_app. Qed.

(** [be_bytes] really are the big-endian digits: decoding them gives back
    the number. *)
Lemma be_value_be_bytes n v :
  0 <= v < 256 ^ Z.of_nat n → be_value (be_bytes n v) = v.
Proof.
  assert (Hgen : ∀ n v acc, 0 <= v →
    foldl (λ acc b, acc * 256 + b) acc (be_bytes n v)
    = acc * 256 ^ Z.of_nat n + v `mod` 256 ^ Z.of_nat n).
  { clear. induction n as [|n IH]; intros v acc Hv.
    - simpl. rewrite Z.mod_1_r. lia.
    - cbn [be_bytes foldl]. rewrite IH by done.
      replace (Z.of_nat (S n)) with (Z.of_nat n + 1) by lia.
      rewrite Z.pow_add_r, Z.pow_1_r by lia.
      assert (0 < 256 ^ Z.of_nat n) by (apply Z.pow_pos_nonneg; lia).
      rewrite (Z.rem_mul_r v (256 ^ Z.of_nat n) 256) by lia. lia. }
  intros Hv. unfold be_value. rewrite Hgen by lia.
  rewrite Z.mod_small by done. lia.
Qed.

(** ** Packet/CPacket.c *)

Lemma xor_assign_length i v nonce : length (xor_assign i v nonce) = length nonce.
Proof. apply length_alter. Qed.

Lemma xor_byte_twice b v :
  is_uint8 b → is_uint8 v →
  to_uint8 (Z.lxor (to_uint8 (Z.lxor b v)) v) = b.
Proof.
  intros Hb Hv.
  rewrite (to_uint8_id (Z.lxor b v)) by by apply lxor_uint8.
  rewrite lxor_cancel. by apply to_uint8_id.
Qed.

(** C8.  For a 12-byte nonce and a 64-bit sequence number,
    [xor_nonce_with_seq] leaves bytes 0..3 as they are, replaces bytes 4..11
    by their XOR with the eight big-endian bytes of the sequence number, and
    applying it a second time with the same sequence number gives back the
    original nonce. *)
Theorem xor_nonce_with_seq_spec (nonce : list Z) (seqNum : Z) :
  length nonce = 12%nat →
  Forall is_uint8 nonce →
  is_uint64 seqNum →
  let out := xor_nonce_with_seq nonce seqNum in
  length out = 12%nat
  ∧ take 4 out = take 4 nonce
  ∧ drop 4 out = zip_with Z.lxor (drop 4 nonce) (be_bytes 8 seqNum)
  ∧ xor_nonce_with_seq out seqNum = nonce.
Proof.
  intros Hlen Hbytes Hseq.
  do 12 (destruct nonce as [|? nonce]; [discriminate Hlen|]).
  destruct nonce; [|discriminate Hlen]. clear Hlen.
  repeat match goal with
         | H : Forall _ (_ :: _) |- _ => apply Forall_cons in H as [? H]
         end.
  assert (Hb : ∀ k, 0 <= k → is_uint8 (to_uint8 (seqNum ≫ (8 * k))))
    by (intros; apply to_uint8_range).
  pose proof (Hb 7 ltac:(lia)) as Hs7. pose proof (Hb 6 ltac:(lia)) as Hs6.
  pose proof (Hb 5 ltac:(lia)) as Hs5. pose proof (Hb 4 ltac:(lia)) as Hs4.
  pose proof (Hb 3 ltac:(lia)) as Hs3. pose proof (Hb 2 ltac:(lia)) as Hs2.
  pose proof (Hb 1 ltac:(lia)) as Hs1.
  pose proof (to_uint8_range seqNum) as Hs0.
  change (8 * 7) with 56 in Hs7. change (8 * 6) with 48 in Hs6.
  change (8 * 5) with 40 in Hs5. change (8 * 4) with 32 in Hs4.
  change (8 * 3) with 24 in Hs3. change (8 * 2) with 16 in Hs2.
  change (8 * 1) with 8 in Hs1.
  cbv [xor_nonce_with_seq xor_assign alter list_alter].
  cbn [length take drop zip_with be_bytes].
  split; [done|]. split; [done|]. split.
  - change (Z.of_nat 7) with 7. change (Z.of_nat 6) with 6.
    change (Z.of_nat 5) with 5. change (Z.of_nat 4) with 4.
    change (Z.of_nat 3) with 3. change (Z.of_nat 2) with 2.
    change (Z.of_nat 1) with 1. change (Z.of_nat 0) with 0.
    rewrite <-(shiftr_byte seqNum 7), <-(shiftr_byte seqNum 6),
      <-(shiftr_byte seqNum 5), <-(shiftr_byte seqNum 4),
      <-(shiftr_byte seqNum 3), <-(shiftr_byte seqNum 2),
      <-(shiftr_byte seqNum 1), <-(shiftr_byte seqNum 0) by lia.
    change (seqNum ≫ (8 * 0)) with (seqNum ≫ 0). rewrite Z.shiftr_0_r.
    change (8 * 7) with 56. change (8 * 6) with 48. change (8 * 5) with 40.
    change (8 * 4) with 32. change (8 * 3) with 24. change (8 * 2) with 16.
    change (8 * 1) with 8.
    repeat (f_equal; [by apply to_uint8_id, lxor_uint8|]).
    f_equal. by apply to_uint8_id, lxor_uint8.
  - do 4 f_equal.
    repeat (f_equal; [by apply xor_byte_twice|]).
    f_equal. by apply xor_byte_twice.
Qed.

Lemma xor_nonce_with_seq_witness :
  let nonce := [1; 2; 3; 4; 5; 6; 7; 8; 9; 10; 11; 12] in
  let seqNum := 0x0102030405060708 in
  let out := xor_nonce_with_seq nonce seqNum in
  length out = 12%nat
  ∧ take 4 out = take 4 nonce
  ∧ drop 4 out = zip_with Z.lxor (drop 4 nonce) (be_bytes 8 seqNum)
  ∧ xor_nonce_with_seq out seqNum = nonce.
Proof.
  apply (xor_nonce_with_seq_spec [1; 2; 3; 4; 5; 6; 7; 8; 9; 10; 11; 12]
           0x0102030405060708).
  - reflexivity.
  - repeat constructor; unfold is_uint8; lia.
  - unfold is_uint64; lia.
Defined.

Lemma land_shiftl_small a b n :
  0 <= n → 0 <= b < 2 ^ n → Z.land (a ≪ n) b = 0.
Proof.
  intros Hn Hb. apply Z.bits_inj'. intros k Hk.
  rewrite Z.land_spec, Z.bits_0.
  destruct (Z.lt_ge_cases k n) as [Hlt|Hge].
  - rewrite Z.shiftl_spec_low by done. done.
  - destruct (decide (b = 0)) as [->|Hb0].
    + rewrite Z.bits_0. apply andb_false_r.
    + rewrite (Z.bits_above_log2 b k); [apply andb_false_r|lia|].
      assert (Z.log2 b < n) by (apply Z.log2_lt_pow2; lia). lia.
Qed.

Lemma lor_shiftl_add a b n :
  0 <= n → 0 <= b < 2 ^ n → Z.lor (a ≪ n) b = a * 2 ^ n + b.
Proof.
  intros Hn Hb.
  rewrite <-Z.lxor_lor by by apply land_shiftl_small.
  rewrite <-Z.add_nocarry_lxor by by apply land_shiftl_small.
  by rewrite Z.shiftl_mul_pow2.
Qed.

(** The 16-bit big-endian read [((uint16_t)hi << 8) | lo] of the source. *)
Lemma read_be16 hi lo :
  is_uint8 hi → is_uint8 lo →
  to_uint16 (Z.lor (to_uint16 hi ≪ 8) lo) = be_value [hi; lo].
Proof.
  unfold is_uint8. intros Hhi Hlo.
  rewrite (to_uint16_id hi) by (unfold is_uint16; lia).
  rewrite lor_shiftl_add by lia.
  unfold be_value. cbn [foldl].
  apply to_uint16_id. unfold is_uint16. lia.
Qed.

(** C7.  With fewer than 5 bytes available [parse_tls_header] returns 0,
    which its interface documents as "need more data", and stores nothing;
    with 5 bytes or more it returns 1, the content type being the byte at
    offset 0 and the record length the big-endian 16-bit value of the bytes
    at offsets 3 and 4.  The function has no other outcome, so running short
    of data is never reported as a parse failure. *)
Theorem parse_tls_header_spec (buffer : list Z) :
  Forall is_uint8 buffer →
  ((length buffer < 5)%nat →
     parse_tls_header buffer = NeedMoreData
     ∧ tls_header_return (parse_tls_header buffer) = 0)
  ∧ ((5 ≤ length buffer)%nat →
     parse_tls_header buffer
     = HeaderParsed (byte_at buffer 0)
                    (be_value [byte_at buffer 3; byte_at buffer 4])
     ∧ tls_header_return (parse_tls_header buffer) = 1)
  ∧ ((length buffer = 4)%nat → parse_tls_header buffer = NeedMoreData).
Proof.
  intros Hbytes. unfold parse_tls_header.
  split; [|split].
  - intros Hlt. apply Nat.ltb_lt in Hlt. by rewrite Hlt.
  - intros Hge. apply Nat.ltb_ge in Hge as Hge'. rewrite Hge'.
    rewrite read_be16; [done| |].
    + apply byte_at_Forall; [done|lia].
    + apply byte_at_Forall; [done|lia].
  - intros ->. done.
Qed.

Lemma parse_tls_header_witness :
  parse_tls_header [0x17; 0x03; 0x03; 0x01] = NeedMoreData
  ∧ parse_tls_header [0x17; 0x03; 0x03; 0x01; 0x02] = HeaderParsed 0x17 0x0102.
Proof.
  split.
  - apply (parse_tls_header_spec [0x17; 0x03; 0x03; 0x01]).
    + repeat constructor; unfold is_uint8; lia.
    + reflexivity.
  - apply (parse_tls_header_spec [0x17; 0x03; 0x03; 0x01; 0x02]).
    + repeat constructor; unfold is_uint8; lia.
    + simpl. lia.
Defined.

Lemma scan_back_skip data n k :
  (∀ j, (n ≤ j < n + k)%nat → byte_at data j = 0) →
  scan_back data (n + k) = scan_back data n.
Proof.
  induction k as [|k IH]; intros Hz.
  - by rewrite Nat.add_0_r.
  - replace (n + S k)%nat with (S (n + k)) by lia. cbn [scan_back].
    rewrite (Hz (n + k)%nat) by lia. cbn. apply IH.
    intros j Hj. apply Hz. lia.
Qed.

Lemma scan_back_all_zero data :
  Forall (λ b, b = 0) data → scan_back data (length data) = -1.
Proof.
  intros Hz. change (length data) with (0 + length data)%nat.
  rewrite scan_back_skip; [done|].
  intros j Hj. apply (byte_at_Forall (λ b, b = 0)); [done|lia].
Qed.

Lemma byte_at_middle content ct padding :
  byte_at (content ++ ct :: padding) (length content) = ct.
Proof. apply byte_at_lookup. by apply list_lookup_middle. Qed.

Lemma byte_at_padding content ct padding j :
  Forall (λ b, b = 0) padding →
  (length content < j < length content + 1 + length padding)%nat →
  byte_at (content ++ ct :: padding) j = 0.
Proof.
  intros Hz Hj. unfold byte_at.
  rewrite lookup_app_r by lia.
  destruct (j - length content)%nat as [|i] eqn:Hi; [lia|].
  cbn [lookup list_lookup].
  apply (byte_at_Forall (λ b, b = 0) padding i); [done|lia].
Qed.

Lemma scan_back_decomp content ct padding :
  ct ≠ 0 → Forall (λ b, b = 0) padding →
  scan_back (content ++ ct :: padding)
            (length (content ++ ct :: padding))
  = Z.of_nat (length content).
Proof.
  intros Hct Hz.
  rewrite length_app. cbn [length].
  replace (length content + S (length padding))%nat
    with (S (length content) + length padding)%nat by lia.
  rewrite scan_back_skip.
  - cbn [scan_back]. rewrite byte_at_middle.
    destruct (Z.eqb_spec ct 0); [done|done].
  - intros j Hj. apply byte_at_padding; [done|lia].
Qed.

Lemma find_tls13_content_end_all_zero data :
  Z.of_nat (length data) <= SSIZE_MAX →
  Forall (λ b, b = 0) data →
  find_tls13_content_end data = (-1, None).
Proof.
  intros Hmax Hz. unfold find_tls13_content_end.
  destruct (Z.eqb_spec (Z.of_nat (length data)) 0) as [|Hne]; [done|].
  rewrite to_ssize_t_id by lia.
  assert (Hlast : byte_at data (Z.to_nat (Z.of_nat (length data) - 1)) = 0).
  { apply (byte_at_Forall (λ b, b = 0)); [done|lia]. }
  rewrite Hlast. cbn [Z.eqb negb]. rewrite andb_false_r.
  destruct (Z.leb_spec 0 (Z.of_nat (length data) - 1)); [|lia].
  replace (Z.to_nat (Z.of_nat (length data) - 1 + 1)) with (length data) by lia.
  by rewrite scan_back_all_zero.
Qed.

Lemma find_tls13_content_end_decomp content ct padding :
  Z.of_nat (length (content ++ ct :: padding)) <= SSIZE_MAX →
  ct ≠ 0 → Forall (λ b, b = 0) padding →
  find_tls13_content_end (content ++ ct :: padding)
  = (Z.of_nat (length content), Some ct).
Proof.
  intros Hmax Hct Hz.
  pose proof (scan_back_decomp content ct padding Hct Hz) as Hscan.
  pose proof (byte_at_middle content ct padding) as Hmid.
  pose proof (byte_at_padding content ct padding) as Hpad.
  assert (Hlen : length (content ++ ct :: padding)
                 = (length content + 1 + length padding)%nat).
  { rewrite length_app. cbn. lia. }
  revert Hmax Hscan Hmid Hpad Hlen.
  generalize (content ++ ct :: padding). intros data Hmax Hscan Hmid Hpad Hlen.
  unfold find_tls13_content_end.
  destruct (Z.eqb_spec (Z.of_nat (length data)) 0) as [|_]; [lia|].
  rewrite to_ssize_t_id by lia.
  destruct ((8 <=? Z.of_nat (length data))
            && negb (byte_at data (Z.to_nat (Z.of_nat (length data) - 1)) =? 0))
    eqn:Efast.
  - apply andb_true_iff in Efast as [_ Hlast].
    apply negb_true_iff, Z.eqb_neq in Hlast.
    destruct padding as [|p ps].
    + cbn [length] in Hlen.
      replace (Z.to_nat (Z.of_nat (length data) - 1)) with (length content)
        in * by lia.
      rewrite Hmid. f_equal. lia.
    + exfalso. apply Hlast. apply Hpad; [done|]. cbn [length] in *. lia.
  - destruct (Z.leb_spec 0 (Z.of_nat (length data) - 1)); [|lia].
    replace (Z.to_nat (Z.of_nat (length data) - 1 + 1)) with (length data) by lia.
    rewrite Hscan.
    destruct (Z.ltb_spec (Z.of_nat (length content)) 0); [lia|].
    by rewrite Nat2Z.id, Hmid.
Qed.

(** Every byte string is all zero, or splits at its last non-zero byte. *)
Lemma last_nonzero_split (data : list Z) :
  Forall (λ b, b = 0) data
  ∨ ∃ content ct padding,
      data = content ++ ct :: padding ∧ ct ≠ 0 ∧ Forall (λ b, b = 0) padding.
Proof.
  induction data as [|a data IH].
  - left. constructor.
  - destruct IH as [Hz|(content & ct & padding & -> & Hct & Hz)].
    + destruct (decide (a = 0)) as [->|Ha].
      * left. by constructor.
      * right. by exists [], a, data.
    + right. by exists (a :: content), ct, padding.
Qed.

Lemma tls13_unwrap_content_decomp content ct padding :
  Z.of_nat (length (content ++ ct :: padding)) <= SSIZE_MAX →
  ct ≠ 0 → Forall (λ b, b = 0) padding →
  tls13_unwrap_content (content ++ ct :: padding)
  = (Z.of_nat (length content), Some ct).
Proof.
  intros Hmax Hct Hz. unfold tls13_unwrap_content.
  rewrite find_tls13_content_end_decomp by done.
  destruct (Z.eqb_spec (Z.of_nat (length (content ++ ct :: padding))) 0) as [E|_].
  { rewrite length_app in E. cbn in E. lia. }
  destruct (Z.ltb_spec (Z.of_nat (length content)) 0); [lia|done].
Qed.

Lemma tls13_unwrap_content_all_zero data :
  Z.of_nat (length data) <= SSIZE_MAX →
  Forall (λ b, b = 0) data →
  tls13_unwrap_content data = (-1, None).
Proof.
  intros Hmax Hz. unfold tls13_unwrap_content.
  destruct (Z.of_nat (length data) =? 0); [done|].
  by rewrite find_tls13_content_end_all_zero.
Qed.

(** C5.  [tls13_unwrap_content] returns -1 exactly when the body is empty
    or all zero.  Otherwise the body splits as content, a last non-zero
    byte, and zero padding; the byte stored as content type is that last
    non-zero byte and the returned length is its index, the length of the
    content before it.  (A C object is never larger than [SSIZE_MAX].) *)
Theorem tls13_unwrap_content_spec (data : list Z) :
  Z.of_nat (length data) <= SSIZE_MAX →
  (fst (tls13_unwrap_content data) = -1
     ↔ data = [] ∨ Forall (λ b, b = 0) data)
  ∧ (¬ (data = [] ∨ Forall (λ b, b = 0) data) →
       ∃ content ct padding,
         data = content ++ ct :: padding
         ∧ ct ≠ 0 ∧ Forall (λ b, b = 0) padding
         ∧ tls13_unwrap_content data = (Z.of_nat (length content), Some ct))
  ∧ (∀ content ct padding,
       data = content ++ ct :: padding →
       ct ≠ 0 → Forall (λ b, b = 0) padding →
       tls13_unwrap_content data = (Z.of_nat (length content), Some ct)
       ∧ take (Z.to_nat (fst (tls13_unwrap_content data))) data = content).
Proof.
  intros Hmax. split; [|split].
  - split.
    + intros Hfail.
      destruct (last_nonzero_split data)
        as [Hz|(content & ct & padding & -> & Hct & Hz)]; [by right|].
      rewrite tls13_unwrap_content_decomp in Hfail by done.
      cbn in Hfail. lia.
    + intros [->|Hz]; [done|].
      by rewrite tls13_unwrap_content_all_zero.
  - intros Hnot.
    destruct (last_nonzero_split data)
      as [Hz|(content & ct & padding & -> & Hct & Hz)].
    + destruct Hnot. by right.
    + exists content, ct, padding.
      by rewrite tls13_unwrap_content_decomp.
  - intros content ct padding -> Hct Hz.
    rewrite tls13_unwrap_content_decomp by done. split; [done|].
    cbn [fst]. rewrite Nat2Z.id. by rewrite take_app_length.
Qed.

Lemma tls13_unwrap_content_witness :
  tls13_unwrap_content [0x41; 0x42; 0x16; 0x00; 0x00] = (2, Some 0x16)
  ∧ take (Z.to_nat (fst (tls13_unwrap_content [0x41; 0x42; 0x16; 0x00; 0x00])))
         [0x41; 0x42; 0x16; 0x00; 0x00] = [0x41; 0x42].
Proof.
  assert (Hmax : Z.of_nat (length [0x41; 0x42; 0x16; 0x00; 0x00]) <= SSIZE_MAX)
    by (vm_compute; discriminate).
  destruct (tls13_unwrap_content_spec [0x41; 0x42; 0x16; 0x00; 0x00] Hmax)
    as (_ & _ & Hsplit).
  apply (Hsplit [0x41; 0x42] 0x16 [0x00; 0x00]).
  - reflexivity.
  - lia.
  - repeat constructor.
Defined.

(** ** VLESS/CVLESS.c: the request header *)

(** Writing at the cursor: the buffer is [w ++ r], with [w] the bytes written
    so far and the cursor at [length w]. *)
Lemma store_cursor (w r : list Z) (offset : nat) (v : Z) :
  offset = length w → (0 < length r)%nat →
  <[offset := v]> (w ++ r) = (w ++ [v]) ++ drop 1 r.
Proof.
  intros -> Hr. destruct r as [|x r]; [cbn in Hr; lia|].
  rewrite insert_app_r_alt by lia. rewrite Nat.sub_diag. cbn.
  by rewrite <-app_assoc.
Qed.

Lemma memcpy_cursor (w r src : list Z) (offset n : nat) :
  offset = length w → (n ≤ length src)%nat → (n ≤ length r)%nat →
  memcpy (w ++ r) offset src n = (w ++ take n src) ++ drop n r.
Proof.
  intros -> Hsrc Hr. unfold memcpy.
  rewrite <-(Nat.add_0_r (length w)), list_inserts_app_r.
  rewrite <-(take_drop n r) at 1.
  rewrite list_inserts_0_r by (rewrite !length_take; lia).
  by rewrite <-app_assoc.
Qed.

Ltac cursor_side :=
  rewrite ?length_app, ?length_take, ?length_drop; cbn [length be_bytes]; lia.

Ltac cursor_step :=
  first [ rewrite store_cursor by cursor_side
        | rewrite memcpy_cursor by cursor_side ].

Lemma port_bytes port :
  [to_uint8 (port ≫ 8); to_uint8 (Z.land port 0xFF)] = be_bytes 2 port.
Proof.
  cbn [be_bytes]. f_equal; [|f_equal].
  - change 8 with (8 * 1). by rewrite shiftr_byte.
  - unfold to_uint8. change 0xFF with (Z.ones 8). rewrite Z.land_ones by lia.
    change (256 ^ Z.of_nat 0) with 1. rewrite Z.div_1_r.
    change (2 ^ 8) with 256. by rewrite Z.mod_mod.
Qed.

(** The 22 bytes every call writes first. *)
Lemma build_vless_fixed_part buffer uuid command port addressType :
  (16 ≤ length uuid)%nat → (22 ≤ length buffer)%nat →
  <[21%nat := addressType]>
    (<[20%nat := to_uint8 (Z.land port 0xFF)]>
       (<[19%nat := to_uint8 (port ≫ 8)]>
          (<[18%nat := command]>
             (<[17%nat := 0]> (memcpy (<[0%nat := 0]> buffer) 1 uuid 16)))))
  = ([0] ++ take 16 uuid ++ [0; command] ++ be_bytes 2 port ++ [addressType])
    ++ drop 22 buffer.
Proof.
  intros Huuid Hbuf.
  change (<[0%nat := 0]> buffer) with (<[0%nat := 0]> ([] ++ buffer)).
  do 7 cursor_step.
  rewrite !drop_drop. cbn [Nat.add].
  rewrite <-port_bytes. by rewrite <-!app_assoc.
Qed.

(** C10.  For an address type other than IPv4 (1), Domain (2) and IPv6 (3),
    [build_vless_request_header] writes the 22 fixed bytes (version, UUID,
    addons length, command, big-endian port, address type), leaves the rest
    of the buffer as it was, and returns 22, whatever [address] and
    [addressLen] are; it reports no failure. *)
Theorem build_vless_request_header_unknown_type
    (buffer uuid : list Z) (command port addressType : Z)
    (address : list Z) (addressLen : nat) :
  addressType ≠ VLESS_ADDR_IPV4 →
  addressType ≠ VLESS_ADDR_DOMAIN →
  addressType ≠ VLESS_ADDR_IPV6 →
  (16 ≤ length uuid)%nat →
  (22 ≤ length buffer)%nat →
  build_vless_request_header buffer uuid command port addressType
                             address addressLen
  = (([0x00] ++ take 16 uuid ++ [0x00; command] ++ be_bytes 2 port
       ++ [addressType]) ++ drop 22 buffer,
     22%nat).
Proof.
  intros H4 Hd H6 Huuid Hbuf.
  unfold build_vless_request_header. cbv zeta.
  destruct (Z.eqb_spec addressType VLESS_ADDR_DOMAIN); [done|].
  destruct (Z.eqb_spec addressType VLESS_ADDR_IPV4); [done|].
  destruct (Z.eqb_spec addressType VLESS_ADDR_IPV6); [done|].
  cbn [Nat.add]. by rewrite build_vless_fixed_part.
Qed.

Lemma build_vless_request_header_unknown_type_witness :
  build_vless_request_header (replicate 40 0xEE) (replicate 16 0xAB)
                             VLESS_CMD_TCP 443 0x7F [1; 2; 3; 4] 4
  = (([0x00] ++ take 16 (replicate 16 0xAB) ++ [0x00; VLESS_CMD_TCP]
       ++ be_bytes 2 443 ++ [0x7F]) ++ drop 22 (replicate 40 0xEE),
     22%nat).
Proof.
  apply (build_vless_request_header_unknown_type
           (replicate 40 0xEE) (replicate 16 0xAB) VLESS_CMD_TCP 443 0x7F
           [1; 2; 3; 4] 4).
  - vm_compute. discriminate.
  - vm_compute. discriminate.
  - vm_compute. discriminate.
  - vm_compute. lia.
  - vm_compute. lia.
Defined.

Lemma header_layout_length h :
  length (h_uuid h) = 16%nat →
  length (header_layout h)
  = (22 + length (address_bytes (h_address h))
     + (if is_domain (h_address h) then 1 else 0))%nat.
Proof.
  intros Hu. unfold header_layout.
  rewrite !length_app, Hu. cbn [length be_bytes].
  destruct (h_address h); cbn [address_payload address_bytes is_domain length]; lia.
Qed.

Lemma build_vless_request_header_layout
    (buffer uuid : list Z) (command port : Z) (a : VlessAddress) :
  length uuid = 16%nat →
  valid_address a →
  (22 + length (address_payload a) ≤ length buffer)%nat →
  let h := {| h_version := 0; h_uuid := uuid; h_addonsLength := 0;
              h_command := command; h_port := port; h_address := a |} in
  build_vless_request_header buffer uuid command port (address_type a)
                             (address_bytes a) (length (address_bytes a))
  = (header_layout h ++ drop (length (header_layout h)) buffer,
     length (header_layout h)).
Proof.
  intros Huuid Hvalid Hbuf h.
  unfold build_vless_request_header. cbv zeta. cbn [Nat.add].
  rewrite build_vless_fixed_part by lia.
  rewrite (take_ge uuid 16) by lia.
  rewrite header_layout_length by done.
  unfold header_layout, h.
  cbn [h_version h_uuid h_addonsLength h_command h_port h_address].
  destruct a as [b|b|b];
    cbn [address_type address_bytes address_payload is_domain valid_address
         length] in *.
  - change (VLESS_ADDR_IPV4 =? VLESS_ADDR_DOMAIN) with false.
    change (VLESS_ADDR_IPV4 =? VLESS_ADDR_IPV4) with true. cbv iota.
    cursor_step. rewrite drop_drop, (take_ge b 4) by lia.
    rewrite Hvalid. f_equal. by rewrite <-!app_assoc.
  - change (VLESS_ADDR_IPV6 =? VLESS_ADDR_DOMAIN) with false.
    change (VLESS_ADDR_IPV6 =? VLESS_ADDR_IPV4) with false.
    change (VLESS_ADDR_IPV6 =? VLESS_ADDR_IPV6) with true. cbv iota.
    cursor_step. rewrite drop_drop, (take_ge b 16) by lia.
    rewrite Hvalid. f_equal. by rewrite <-!app_assoc.
  - change (VLESS_ADDR_DOMAIN =? VLESS_ADDR_DOMAIN) with true. cbv iota.
    do 2 cursor_step. rewrite !drop_drop, (take_ge b (length b)) by lia.
    rewrite to_uint8_id by (unfold is_uint8; lia).
    f_equal; [|lia].
    rewrite <-!app_assoc. cbn [app].
    by replace (22 + (1 + length b))%nat with (22 + length b + 1)%nat by lia.
Qed.

Lemma be_value_be_bytes_2 port :
  is_uint16 port →
  be_value [(port `div` 256 ^ Z.of_nat 1) `mod` 256;
            (port `div` 256 ^ Z.of_nat 0) `mod` 256] = port.
Proof.
  intros Hp. apply (be_value_be_bytes 2 port). unfold is_uint16 in Hp.
  change (256 ^ Z.of_nat 2) with (2 ^ 16). lia.
Qed.

(** Reading a laid-out header back, field by field, gives the header. *)
Lemma read_header_layout (h : VlessRequestHeader) (rest : list Z) :
  length (h_uuid h) = 16%nat →
  is_uint16 (h_port h) →
  valid_address (h_address h) →
  read_vless_request_header (header_layout h ++ rest) = Some h.
Proof.
  destruct h as [v u al c p a]. cbn [h_uuid h_port h_address].
  intros Hu Hp Ha.
  do 16 (destruct u as [|? u]; [discriminate Hu|]).
  destruct u; [|discriminate Hu]. clear Hu.
  unfold read_vless_request_header, read_address, header_layout.
  cbn [h_version h_uuid h_addonsLength h_command h_port h_address
       app be_bytes].
  unfold byte_at. cbn [lookup list_lookup default from_option id drop take].
  rewrite (be_value_be_bytes_2 p Hp).
  destruct a as [b|b|b]; cbn [address_type address_payload valid_address] in *.
  - change (VLESS_ADDR_IPV4 =? VLESS_ADDR_IPV4) with true. cbv iota.
    cbn [app drop]. rewrite drop_0. by rewrite take_app_length' by done.
  - change (VLESS_ADDR_IPV6 =? VLESS_ADDR_IPV4) with false.
    change (VLESS_ADDR_IPV6 =? VLESS_ADDR_IPV6) with true. cbv iota.
    cbn [app drop]. rewrite drop_0. by rewrite take_app_length' by done.
  - change (VLESS_ADDR_DOMAIN =? VLESS_ADDR_IPV4) with false.
    change (VLESS_ADDR_DOMAIN =? VLESS_ADDR_IPV6) with false.
    change (VLESS_ADDR_DOMAIN =? VLESS_ADDR_DOMAIN) with true. cbv iota.
    cbn [app drop lookup list_lookup default from_option id].
    by rewrite drop_0, Nat2Z.id, take_app_length.
Qed.

(** C1, as the code has it.  For a 16-byte UUID, a 16-bit port and a typed
    address (4 bytes, 16 bytes, or a domain of at most 255 bytes),
    [build_vless_request_header] writes, in order, the version byte 0, the
    UUID, the addons-length byte 0, the command byte, the port as two
    big-endian bytes, the address-type byte and the address payload (a
    domain preceded by its one-byte length); it returns
    22 + addressPayloadLength, plus 1 for a Domain; and reading the fields
    back from their fixed offsets gives the original values. *)
Theorem build_vless_request_header_spec
    (buffer uuid : list Z) (command port : Z) (a : VlessAddress) :
  length uuid = 16%nat →
  is_uint16 port →
  valid_address a →
  (22 + length (address_payload a) ≤ length buffer)%nat →
  let h := {| h_version := 0x00; h_uuid := uuid; h_addonsLength := 0x00;
              h_command := command; h_port := port; h_address := a |} in
  let n := (22 + length (address_bytes a)
            + (if is_domain a then 1 else 0))%nat in
  build_vless_request_header buffer uuid command port (address_type a)
                             (address_bytes a) (length (address_bytes a))
  = (header_layout h ++ drop n buffer, n)
  ∧ length (header_layout h) = n
  ∧ read_vless_request_header (header_layout h ++ drop n buffer) = Some h.
Proof.
  intros Huuid Hport Hvalid Hbuf h n.
  assert (Hn : length (header_layout h) = n) by by apply header_layout_length.
  split; [|split; [done|]].
  - rewrite <-Hn. by apply build_vless_request_header_layout.
  - by apply read_header_layout.
Qed.

Lemma build_vless_request_header_witness :
  let buffer := replicate 64 0xEE in
  let uuid := [1; 2; 3; 4; 5; 6; 7; 8; 9; 10; 11; 12; 13; 14; 15; 16] in
  let a := Domain [0x61; 0x2E; 0x69; 0x6F] in
  let h := {| h_version := 0x00; h_uuid := uuid; h_addonsLength := 0x00;
              h_command := VLESS_CMD_TCP; h_port := 443; h_address := a |} in
  build_vless_request_header buffer uuid VLESS_CMD_TCP 443 VLESS_ADDR_DOMAIN
                             [0x61; 0x2E; 0x69; 0x6F] 4
  = (header_layout h ++ drop 27 buffer, 27%nat)
  ∧ length (header_layout h) = 27%nat
  ∧ read_vless_request_header (header_layout h ++ drop 27 buffer) = Some h.
Proof.
  apply (build_vless_request_header_spec
           (replicate 64 0xEE)
           [1; 2; 3; 4; 5; 6; 7; 8; 9; 10; 11; 12; 13; 14; 15; 16]
           VLESS_CMD_TCP 443 (Domain [0x61; 0x2E; 0x69; 0x6F])).
  - reflexivity.
  - unfold is_uint16. lia.
  - simpl. lia.
  - simpl. lia.
Defined.

(** C1 as the specification words it: the returned length is not
    21 + addressPayloadLength; for an IPv4 address the code returns 26. *)
Lemma build_vless_request_header_length_not_21 :
  let r := build_vless_request_header
             (replicate 64 0xEE)
             [1; 2; 3; 4; 5; 6; 7; 8; 9; 10; 11; 12; 13; 14; 15; 16]
             VLESS_CMD_TCP 443 VLESS_ADDR_IPV4 [10; 0; 0; 1] 4 in
  snd r = 26%nat ∧ snd r ≠ (21 + length [10; 0; 0; 1])%nat.
Proof. vm_compute. split; [reflexivity|discriminate]. Qed.

(** ** VLESS/CVLESS.c: the address codec *)

Lemma char_at_nonzero buf p : char_at buf p ≠ 0 → (p < length buf)%nat.
Proof.
  unfold char_at. intros Hc.
  destruct (buf !! p) as [c|] eqn:E; [by eapply lookup_lt_Some|done].
Qed.

(** [strtol] leaves [end] at the start or moves it forward. *)
Lemma strtol_end buf nptr base v e :
  strtol buf nptr base = (v, e) → e = nptr ∨ (nptr < e)%nat.
Proof.
  unfold strtol.
  destruct (sign_length _) as [neg sg].
  destruct (scan_digits _ _ _) as [v' n].
  destruct (Nat.eqb_spec n 0); intros [= <- <-]; [by left|right; lia].
Qed.

(** The fuel [parse_ipv6_address] gives its loop is never used up. *)
Lemma parse_ipv6_loop_fuel fuel buf ptr parts partCount doubleColonPos :
  (length buf - ptr < fuel)%nat →
  is_Some (parse_ipv6_loop fuel buf ptr parts partCount doubleColonPos).
Proof.
  revert ptr parts partCount doubleColonPos.
  induction fuel as [|fuel IH]; intros ptr parts partCount dcp Hfuel; [lia|].
  cbn [parse_ipv6_loop].
  destruct ((char_at buf ptr =? 0) || negb (partCount <? 8)%nat) eqn:Econd;
    [done|].
  apply orb_false_iff in Econd as [Hc _]. apply Z.eqb_neq in Hc.
  apply char_at_nonzero in Hc.
  destruct (char_at buf ptr =? chr ":").
  - destruct (char_at buf (ptr + 1) =? chr ":").
    + destruct (0 <=? dcp); [done|].
      destruct (char_at buf (ptr + 2) =? 0); [done|]. apply IH. lia.
    + apply IH. lia.
  - destruct (strtol buf ptr 16) as [val end_] eqn:Estr.
    destruct ((val <? 0) || (65535 <? val)); [done|].
    destruct (Nat.eqb_spec ptr end_); [done|].
    apply strtol_end in Estr as [->|Hlt]; [done|]. apply IH. lia.
Qed.

Example parse_ipv4_address_ok :
  parse_ipv4_address (bytes_of_string "192.168.1.1") = Some [192; 168; 1; 1].
Proof. vm_compute. reflexivity. Qed.

Example parse_ipv4_address_out_of_range :
  parse_ipv4_address (bytes_of_string "256.1.1.1") = None.
Proof. vm_compute. reflexivity. Qed.

Example parse_ipv4_address_three_groups :
  parse_ipv4_address (bytes_of_string "1.2.3") = None.
Proof. vm_compute. reflexivity. Qed.

Example parse_ipv4_address_residue :
  parse_ipv4_address (bytes_of_string "1.2.3.4x") = None.
Proof. vm_compute. reflexivity. Qed.

(** Whatever follows ["1.2.3.4."] is ignored: the loop has its four parts
    and ends. *)
Lemma parse_ipv4_address_ignores_rest (rest : list Z) :
  (length rest ≤ 7)%nat →
  parse_ipv4_address (bytes_of_string "1.2.3.4." ++ rest) = Some [1; 2; 3; 4].
Proof.
  intros Hlen. unfold parse_ipv4_address.
  assert (Hc : ((length (bytes_of_string "1.2.3.4." ++ rest) =? 0)%nat
                || (15 <? length (bytes_of_string "1.2.3.4." ++ rest))%nat)
               = false).
  { rewrite length_app. change (length (bytes_of_string "1.2.3.4.")) with 8%nat.
    apply orb_false_iff. split; [apply Nat.eqb_neq|apply Nat.ltb_ge]; lia. }
  rewrite Hc. vm_compute. reflexivity.
Qed.

(** C3, where the code departs from it.  Once the fourth octet is stored
    the loop [while (count < 4)] ends without looking at what follows a
    dot, so a fifth group, or any residue after ["1.2.3.4."], is accepted:
    ["1.2.3.4.5"] and ["1.2.3.4.x"] both parse as 1.2.3.4. *)
Theorem parse_ipv4_address_accepts_fifth_group :
  parse_ipv4_address (bytes_of_string "1.2.3.4.5") = Some [1; 2; 3; 4]
  ∧ parse_ipv4_address (bytes_of_string "1.2.3.4.x") = Some [1; 2; 3; 4].
Proof. split; vm_compute; reflexivity. Qed.

Example parse_ipv6_address_elision :
  parse_ipv6_address (bytes_of_string "2001:db8::1")
  = Some [0x20; 0x01; 0x0d; 0xb8; 0; 0; 0; 0; 0; 0; 0; 0; 0; 0; 0; 1].
Proof. vm_compute. reflexivity. Qed.

Example parse_ipv6_address_brackets :
  parse_ipv6_address (bytes_of_string "[::1]")
  = Some [0; 0; 0; 0; 0; 0; 0; 0; 0; 0; 0; 0; 0; 0; 0; 1].
Proof. vm_compute. reflexivity. Qed.

Example parse_ipv6_address_two_elisions :
  parse_ipv6_address (bytes_of_string "1::2::3") = None.
Proof. vm_compute. reflexivity. Qed.

Example parse_ipv6_address_group_too_large :
  parse_ipv6_address (bytes_of_string "12345::") = None.
Proof. vm_compute. reflexivity. Qed.

(** Whatever follows ["1:2:3:4:5:6:7:8:"] is ignored: the loop has its
    eight parts and ends. *)
Lemma parse_ipv6_address_ignores_rest (rest : list Z) :
  (length rest ≤ 23)%nat →
  parse_ipv6_address (bytes_of_string "1:2:3:4:5:6:7:8:" ++ rest)
  = Some [0; 1; 0; 2; 0; 3; 0; 4; 0; 5; 0; 6; 0; 7; 0; 8].
Proof.
  intros Hlen. unfold parse_ipv6_address.
  set (str := bytes_of_string "1:2:3:4:5:6:7:8:" ++ rest).
  assert (Hstr : length str = (16 + length rest)%nat).
  { unfold str. by rewrite length_app. }
  assert (Hc : ((length str =? 0)%nat || (45 <? length str)%nat) = false).
  { apply orb_false_iff. split; [apply Nat.eqb_neq|apply Nat.ltb_ge]; lia. }
  rewrite Hc.
  assert (Hb : (2 <=? length str)%nat && (char_at str 0 =? chr "[")
               && (char_at str (length str - 1) =? chr "]") = false).
  { change (char_at str 0) with 49. by rewrite andb_false_r. }
  rewrite Hb.
  assert (Hl : ((length str =? 0)%nat || (39 <? length str)%nat) = false).
  { apply orb_false_iff. split; [apply Nat.eqb_neq|apply Nat.ltb_ge]; lia. }
  rewrite Hl. rewrite drop_0, firstn_all.
  rewrite length_app, Hstr. unfold str. vm_compute. reflexivity.
Qed.

(** C4, where the code departs from it.  The loop
    [while ( *ptr && partCount < 8)] ends as soon as eight groups are
    stored and the rest of the string is never looked at, so a second
    ["::"] after the eighth group, or a ninth group, is accepted. *)
Theorem parse_ipv6_address_accepts_second_elision :
  parse_ipv6_address (bytes_of_string "::1:2:3:4:5:6:7:8::")
  = Some [0; 1; 0; 2; 0; 3; 0; 4; 0; 5; 0; 6; 0; 7; 0; 8]
  ∧ parse_ipv6_address (bytes_of_string "1:2:3:4:5:6:7:8:9")
    = Some [0; 1; 0; 2; 0; 3; 0; 4; 0; 5; 0; 6; 0; 7; 0; 8].
Proof. split; vm_compute; reflexivity. Qed.

(** C9.  A string of at most 255 bytes that neither [parse_ipv4_address]
    nor [parse_ipv6_address] accepts is returned by [parse_vless_address]
    as a Domain: the bytes are the input bytes and the length is the input
    length.  The empty string is such an input and gives a Domain of
    length 0. *)
Theorem parse_vless_address_domain (str : list Z) :
  (length str ≤ 255)%nat →
  parse_ipv4_address str = None →
  parse_ipv6_address str = None →
  parse_vless_address str = Some (VLESS_ADDR_DOMAIN, str, length str)
  ∧ parse_vless_address [] = Some (VLESS_ADDR_DOMAIN, [], 0%nat).
Proof.
  intros Hlen H4 H6. split.
  - unfold parse_vless_address. rewrite H4, H6.
    destruct (Nat.ltb_spec 255 (length str)); [lia|done].
  - reflexivity.
Qed.

Lemma parse_vless_address_domain_witness :
  parse_vless_address (bytes_of_string "example.com")
  = Some (VLESS_ADDR_DOMAIN, bytes_of_string "example.com", 11%nat)
  ∧ parse_vless_address [] = Some (VLESS_ADDR_DOMAIN, [], 0%nat).
Proof.
  apply (parse_vless_address_domain (bytes_of_string "example.com")).
  - vm_compute. lia.
  - vm_compute. reflexivity.
  - vm_compute. reflexivity.
Defined.

(** ** lwip/lwip_bridge.c: shutdown *)

Lemma tcp_pcb_remove_length id pcbs :
  (length (tcp_pcb_remove id pcbs) ≤ length pcbs)%nat.
Proof.
  induction pcbs as [|p pcbs IH]; cbn [tcp_pcb_remove length]; [lia|].
  destruct (pcb_id p =? id)%nat; cbn [length]; lia.
Qed.




Lemma free_tw_pcbs_spec fuel st :
  (length (tcp_tw_pcbs st) ≤ fuel)%nat →
  ∃ st',
    free_tw_pcbs fuel st = Some st'
    ∧ tcp_tw_pcbs st' = []
    ∧ tcp_active_pcbs st' = tcp_active_pcbs st
    ∧ swift_calls st' = swift_calls st.
Proof.
  revert st. induction fuel as [|fuel IH]; intros st Hlen.
  - destruct (tcp_tw_pcbs st) as [|p rest] eqn:Htw; [|cbn in Hlen; lia].
    exists st. cbn [free_tw_pcbs]. by rewrite Htw.
  - cbn [free_tw_pcbs].
    destruct (tcp_tw_pcbs st) as [|p rest] eqn:Htw; [by exists st|].
    cbn [tcp_pcb_remove]. rewrite Nat.eqb_refl.
    destruct (IH (set_pcbs (tcp_active_pcbs st) rest st))
      as (st' & Hrun & Ht & Ha & Hc).
    + cbn [set_pcbs tcp_tw_pcbs]. cbn [length] in Hlen. lia.
    + by exists st'.
Qed.

(** *** Passive teardown *)

Lemma teardown_refl l : teardown [] l l.
Proof.
  induction l as [|p l IH]; [constructor|].
  apply teardown_keep; [apply not_elem_of_nil|done].
Qed.


Lemma teardown_length ids l l' :
  teardown ids l l' → (length l' ≤ length l)%nat.
Proof. induction 1; cbn [length]; lia. Qed.

(** Clearing the callbacks of the PCB at [id]. *)
Lemma teardown_clear id ids l l' :
  teardown ids l l' →
  teardown (id :: ids) l
    ((λ p, if (pcb_id p =? id)%nat then cleared p else p) <$> l').
Proof.
  induction 1 as [|p l l' Hp _ IH|p l l' Hp _ IH|p l l' Hp _ IH];
    cbn [fmap list_fmap].
  - constructor.
  - destruct (Nat.eqb_spec (pcb_id p) id) as [Heq|Hne].
    + apply teardown_cleared; [rewrite Heq; apply list_elem_of_here|done].
    + apply teardown_keep; [|done].
      rewrite elem_of_cons. by intros [?|?].
  - replace (if (pcb_id (cleared p) =? id)%nat
             then cleared (cleared p) else cleared p) with (cleared p)
      by by destruct (pcb_id (cleared p) =? id)%nat.
    apply teardown_cleared; [by apply list_elem_of_further|done].
  - apply teardown_gone; [by apply list_elem_of_further|done].
Qed.

(** Unlinking the PCB at [id] once its callbacks are cleared. *)
Lemma teardown_remove id ids l l' :
  id ∈ ids → teardown ids l l' → teardown ids l (tcp_pcb_remove id l').
Proof.
  intros Hid.
  induction 1 as [|p l l' Hp Ht IH|p l l' Hp Ht IH|p l l' Hp Ht IH];
    cbn [tcp_pcb_remove].
  - constructor.
  - destruct (Nat.eqb_spec (pcb_id p) id) as [Heq|Hne]; [by subst|].
    by apply teardown_keep.
  - cbn [cleared pcb_id].
    destruct (Nat.eqb_spec (pcb_id p) id) as [Heq|Hne].
    + by apply teardown_gone.
    + by apply teardown_cleared.
  - by apply teardown_gone.
Qed.

(** Closed PCBs are not notified; the others are, as before. *)
Lemma teardown_notifications ids l l' :
  teardown ids l l' →
  omap notification l'
  = omap notification (filter (λ p, pcb_id p ∉ ids) l).
Proof.
  induction 1 as [|p l l' Hp _ IH|p l l' Hp _ IH|p l l' Hp _ IH].
  - done.
  - rewrite filter_cons_True by done. cbn [omap list_omap]. by rewrite IH.
  - rewrite filter_cons_False by (intros Hn; by apply Hn). done.
  - rewrite filter_cons_False by (intros Hn; by apply Hn). done.
Qed.

Lemma clear_callbacks id st :
  tcp_err id false (tcp_sent id false (tcp_recv id false (tcp_arg id None st)))
  = update_pcb id cleared st.
Proof.
  unfold tcp_err, tcp_sent, tcp_recv, tcp_arg, update_pcb, set_pcbs.
  cbn [s_tcp_err_fn tcp_active_pcbs tcp_tw_pcbs tcp_listen_pcb_v4
       tcp_listen_pcb_v6 udp_listen_pcb_v4 udp_listen_pcb_v6 tun_netif_up
       s_current_udp_dst_port s_current_udp_dst_ip swift_calls].
  rewrite <-!list_fmap_compose.
  f_equal; apply list_fmap_ext; intros i p _; cbn;
    destruct (pcb_id p =? id)%nat eqn:E; cbn; rewrite ?E; cbn; rewrite ?E;
    cbn; rewrite ?E; done.
Qed.

Lemma find_pcb_cleared id l p :
  find_pcb id ((λ p, if (pcb_id p =? id)%nat then cleared p else p) <$> l)
  = Some p →
  errf p = false.
Proof.
  induction l as [|q l IH]; cbn [fmap list_fmap find_pcb]; [done|].
  destruct (pcb_id q =? id)%nat eqn:E.
  - cbn [cleared pcb_id]. rewrite E. by intros [= <-].
  - rewrite E. apply IH.
Qed.

Ltac pcb_lengths :=
  repeat match goal with
         | |- context [length (tcp_pcb_remove ?i ?l)] =>
             let n := fresh "n" in
             pose proof (tcp_pcb_remove_length i l);
             set (n := length (tcp_pcb_remove i l)) in *; clearbody n
         end;
  rewrite ?length_fmap in *; lia.








(** ** lwip/lwip_bridge.c: packet input *)

Lemma version_nibble b :
  is_uint8 b → Z.land (b ≫ 4) 0x0F = b `div` 16.
Proof.
  unfold is_uint8. intros Hb.
  rewrite Z.shiftr_div_pow2 by lia. change (2 ^ 4) with 16.
  change 0x0F with (Z.ones 4). rewrite Z.land_ones by lia.
  apply Z.mod_small. change (2 ^ 4) with 16.
  split; [apply Z.div_pos; lia|apply Z.div_lt_upper_bound; lia].
Qed.

Lemma header_length_bytes b :
  is_uint8 b → to_uint8 (Z.land b 0x0F * 4) = (b `mod` 16) * 4.
Proof.
  intros Hb. change 0x0F with (Z.ones 4). rewrite Z.land_ones by lia.
  change (2 ^ 4) with 16. apply to_uint8_id. unfold is_uint8.
  pose proof (Z.mod_pos_bound b 16). lia.
Qed.

Lemma take_drop_bytes_4 pkt i :
  (i + 4 ≤ length pkt)%nat →
  take 4 (drop i pkt)
  = [byte_at pkt i; byte_at pkt (i + 1); byte_at pkt (i + 2);
     byte_at pkt (i + 3)].
Proof.
  intros Hlen. apply list_eq. intros k.
  rewrite lookup_take, lookup_drop.
  destruct (decide (k < 4)%nat) as [Hk|Hk].
  - unfold byte_at.
    destruct (lookup_lt_is_Some_2 pkt (i + k)%nat ltac:(lia)) as [b Hb].
    do 4 (destruct k as [|k];
          [rewrite ?Nat.add_0_r in *; by rewrite Hb|]).
    lia.
  - do 4 (destruct k as [|k]; [lia|]). done.
Qed.

(** C6.  [lwip_bridge_input] returns at once, with the state as it was and
    nothing passed to the engine, when [data] is null, when [len] is not
    positive, and when the header is truncated for the declared version
    (IPv4 under 20 bytes, IPv6 under 40, any other version nibble).  For
    an IPv4 packet with protocol 17 and at least IHL + 8 bytes it stores
    the destination address (bytes 16..19) and the big-endian destination
    port (bytes IHL + 2 and IHL + 3) in the file-scope variables
    [s_current_udp_dst_ip] and [s_current_udp_dst_port], everything else
    staying as it was, and the engine's input routine is entered in that
    state unless [pbuf_alloc] fails.  For an IPv6 packet with next header
    17 and at least 48 bytes the port is read from bytes 42 and 43 and the
    address from bytes 24..39. *)
Theorem lwip_bridge_input_spec
    (data : option (list Z)) (len : Z) (pbuf_alloc_ok : bool) (st : bridge) :
  (∀ pkt, data = Some pkt → Forall is_uint8 pkt ∧ len <= Z.of_nat (length pkt)) →
  ((data = None ∨ len <= 0
    ∨ ∃ pkt, data = Some pkt
        ∧ ((ip_version pkt = 4 ∧ len < 20)
           ∨ (ip_version pkt = 6 ∧ len < 40)
           ∨ (ip_version pkt ≠ 4 ∧ ip_version pkt ≠ 6))) →
   lwip_bridge_input data len pbuf_alloc_ok st = InputDropped st)
  ∧ (∀ pkt,
       data = Some pkt → ip_version pkt = 4 → 20 <= len →
       byte_at pkt 9 = 17 → ipv4_header_length pkt + 8 <= len →
       let ihl := Z.to_nat (ipv4_header_length pkt) in
       let st' :=
         {| s_tcp_err_fn := s_tcp_err_fn st;
            tcp_active_pcbs := tcp_active_pcbs st;
            tcp_tw_pcbs := tcp_tw_pcbs st;
            tcp_listen_pcb_v4 := tcp_listen_pcb_v4 st;
            tcp_listen_pcb_v6 := tcp_listen_pcb_v6 st;
            udp_listen_pcb_v4 := udp_listen_pcb_v4 st;
            udp_listen_pcb_v6 := udp_listen_pcb_v6 st;
            tun_netif_up := tun_netif_up st;
            s_current_udp_dst_port :=
              be_value [byte_at pkt (ihl + 2); byte_at pkt (ihl + 3)];
            s_current_udp_dst_ip :=
              IPADDR_TYPE_V4 [byte_at pkt 16; byte_at pkt 17;
                              byte_at pkt 18; byte_at pkt 19];
            swift_calls := swift_calls st |} in
       lwip_bridge_input data len pbuf_alloc_ok st
       = if pbuf_alloc_ok
         then InputToEngine (take (Z.to_nat (to_uint16 len)) pkt) st'
         else InputAllocFailed st')
  ∧ (∀ pkt,
       data = Some pkt → ip_version pkt = 6 → 48 <= len →
       byte_at pkt 6 = 17 →
       let st' :=
         {| s_tcp_err_fn := s_tcp_err_fn st;
            tcp_active_pcbs := tcp_active_pcbs st;
            tcp_tw_pcbs := tcp_tw_pcbs st;
            tcp_listen_pcb_v4 := tcp_listen_pcb_v4 st;
            tcp_listen_pcb_v6 := tcp_listen_pcb_v6 st;
            udp_listen_pcb_v4 := udp_listen_pcb_v4 st;
            udp_listen_pcb_v6 := udp_listen_pcb_v6 st;
            tun_netif_up := tun_netif_up st;
            s_current_udp_dst_port := be_value [byte_at pkt 42; byte_at pkt 43];
            s_current_udp_dst_ip := IPADDR_TYPE_V6 (take 16 (drop 24 pkt));
            swift_calls := swift_calls st |} in
       lwip_bridge_input data len pbuf_alloc_ok st
       = if pbuf_alloc_ok
         then InputToEngine (take (Z.to_nat (to_uint16 len)) pkt) st'
         else InputAllocFailed st').
Proof.
  intros Hwf.
  assert (Hver : ∀ pkt, data = Some pkt → 0 < len →
            Z.land (byte_at pkt 0 ≫ 4) 0x0F = ip_version pkt).
  { intros pkt Hd Hlen. destruct (Hwf pkt Hd) as [Hb Hl].
    apply version_nibble, byte_at_Forall; [done|lia]. }
  split; [|split].
  - intros [->|[Hlen|(pkt & -> & Hcase)]]; [done| |].
    + destruct data as [pkt|]; [|done]. cbn.
      by destruct (Z.leb_spec len 0); [|lia].
    + cbn. destruct (Z.leb_spec len 0) as [|Hpos]; [done|].
      rewrite (Hver pkt eq_refl Hpos).
      destruct Hcase as [[-> Hl]|[[-> Hl]|[H4 H6]]].
      * destruct (Z.leb_spec 20 len); [lia|]. done.
      * destruct (Z.leb_spec 40 len); [lia|]. done.
      * destruct (Z.eqb_spec (ip_version pkt) 4); [done|].
        destruct (Z.eqb_spec (ip_version pkt) 6); [done|]. done.
  - intros pkt -> H4 Hlen Hproto Hihl ihl st'.
    destruct (Hwf pkt eq_refl) as [Hb Hl].
    assert (Hb0 : is_uint8 (byte_at pkt 0))
      by (apply byte_at_Forall; [done|lia]).
    assert (Hihl_range : 0 <= ipv4_header_length pkt <= 60).
    { unfold ipv4_header_length. pose proof (Z.mod_pos_bound (byte_at pkt 0) 16).
      lia. }
    cbn. destruct (Z.leb_spec len 0) as [|Hpos]; [lia|].
    rewrite (Hver pkt eq_refl Hpos), H4, Hproto.
    rewrite header_length_bytes by done. fold (ipv4_header_length pkt).
    destruct (Z.leb_spec 20 len); [|lia].
    destruct (Z.leb_spec (ipv4_header_length pkt + 8) len); [|lia].
    cbn [Z.eqb Pos.eqb andb].
    rewrite read_be16 by (apply byte_at_Forall; [done|lia]).
    rewrite (take_drop_bytes_4 pkt 16) by lia. cbn [Nat.add].
    subst st' ihl.
    replace (Z.to_nat (ipv4_header_length pkt + 2))
      with (Z.to_nat (ipv4_header_length pkt) + 2)%nat by lia.
    replace (Z.to_nat (ipv4_header_length pkt + 3))
      with (Z.to_nat (ipv4_header_length pkt) + 3)%nat by lia.
    done.
  - intros pkt -> H6 Hlen Hproto st'.
    destruct (Hwf pkt eq_refl) as [Hb Hl].
    cbn. destruct (Z.leb_spec len 0) as [|Hpos]; [lia|].
    rewrite (Hver pkt eq_refl Hpos), H6, Hproto.
    destruct (Z.leb_spec 40 len); [|lia].
    destruct (Z.leb_spec 48 len); [|lia].
    cbn [Z.eqb Pos.eqb andb].
    rewrite read_be16 by (apply byte_at_Forall; [done|lia]).
    done.
Qed.

Lemma lwip_bridge_input_witness :
  let st := bridge_after_init true in
  let udp4 := [0x45; 0; 0; 28; 0; 0; 0; 0; 64; 17; 0; 0;
               10; 0; 0; 1; 8; 8; 8; 8;
               0x30; 0x39; 0x00; 0x35; 0; 8; 0; 0] in
  let udp6 := [0x60; 0; 0; 0; 0; 8; 17; 64]
              ++ replicate 15 0 ++ [1] ++ replicate 15 0 ++ [2]
              ++ [0x30; 0x39; 0x01; 0xBB; 0; 8; 0; 0] in
  let captured (port : Z) (ip : ip_addr_t) :=
    {| s_tcp_err_fn := true;
       tcp_active_pcbs := [];
       tcp_tw_pcbs := [];
       tcp_listen_pcb_v4 := true; tcp_listen_pcb_v6 := true;
       udp_listen_pcb_v4 := true; udp_listen_pcb_v6 := true;
       tun_netif_up := true;
       s_current_udp_dst_port := port;
       s_current_udp_dst_ip := ip;
       swift_calls := [] |} in
  lwip_bridge_input (Some [0x45; 0; 0; 28]) 4 true st = InputDropped st
  ∧ lwip_bridge_input (Some udp4) 28 true st
    = InputToEngine udp4 (captured 53 (IPADDR_TYPE_V4 [8; 8; 8; 8]))
  ∧ lwip_bridge_input (Some udp6) 48 true st
    = InputToEngine udp6
        (captured 443 (IPADDR_TYPE_V6 (replicate 15 0 ++ [2]))).
Proof.
  intros st udp4 udp6 captured.
  assert (Hwf : ∀ (l : list Z) (len : Z),
            forallb (λ b, (0 <=? b) && (b <? 256)) l = true →
            (len <=? Z.of_nat (length l)) = true →
            ∀ pkt, Some l = Some pkt →
                   Forall is_uint8 pkt ∧ len <= Z.of_nat (length pkt)).
  { intros l len Hb Hl pkt [= <-]. split; [|by apply Z.leb_le].
    apply Forall_forall. intros b Hin.
    apply list_elem_of_In in Hin.
    pose proof (proj1 (forallb_forall _ l) Hb b Hin) as Hr.
    apply andb_true_iff in Hr as [Hlo Hhi].
    apply Z.leb_le in Hlo. apply Z.ltb_lt in Hhi.
    unfold is_uint8. lia. }
  split; [|split].
  - apply (lwip_bridge_input_spec (Some [0x45; 0; 0; 28]) 4 true st).
    + apply Hwf; reflexivity.
    + right. right. exists [0x45; 0; 0; 28]. split; [reflexivity|].
      left. split; [reflexivity|lia].
  - destruct (lwip_bridge_input_spec (Some udp4) 28 true st) as (_ & H4 & _).
    + apply Hwf; reflexivity.
    + rewrite (H4 udp4); [reflexivity|reflexivity|reflexivity|lia|reflexivity|].
      vm_compute. discriminate.
  - destruct (lwip_bridge_input_spec (Some udp6) 48 true st) as (_ & _ & H6).
    + apply Hwf; reflexivity.
    + rewrite (H6 udp6); [reflexivity|reflexivity|reflexivity|lia|reflexivity].
Defined.

(* ===================================================================== *)
(** * Part III: further properties of the code                            *)
(* ===================================================================== *)

(** ** Packet/CPacket.c *)

Lemma to_uint8_land z : to_uint8 z = Z.land z (Z.ones 8).
Proof. unfold to_uint8. by rewrite Z.land_ones by lia. Qed.

(** XOR-ing in a byte of [s1] and then the same byte of [s2] is XOR-ing in
    that byte of [Z.lxor s1 s2]. *)
Lemma xor_byte_compose b s1 s2 k :
  0 <= k →
  to_uint8 (Z.lxor (to_uint8 (Z.lxor b (to_uint8 (s1 ≫ k))))
                   (to_uint8 (s2 ≫ k)))
  = to_uint8 (Z.lxor b (to_uint8 (Z.lxor s1 s2 ≫ k))).
Proof.
  intros Hk. rewrite !to_uint8_land. apply Z.bits_inj'. intros n Hn.
  rewrite !Z.land_spec, !Z.lxor_spec, !Z.land_spec, !Z.lxor_spec,
    !Z.land_spec, !Z.shiftr_spec, Z.lxor_spec by lia.
  destruct (Z.testbit b n), (Z.testbit s1 (n + k)), (Z.testbit s2 (n + k)),
    (Z.testbit (Z.ones 8) n); reflexivity.
Qed.

Lemma xor_byte_zero b k : is_uint8 b → to_uint8 (Z.lxor b (to_uint8 (0 ≫ k))) = b.
Proof.
  intros Hb. rewrite Z.shiftr_0_l. change (to_uint8 0) with 0.
  rewrite Z.lxor_0_r. by apply to_uint8_id.
Qed.

(** X1.  On a 12-byte nonce, applying [xor_nonce_with_seq] with [s1] and
    then with [s2] is applying it once with [Z.lxor s1 s2], so the order of
    two applications does not matter; with sequence number 0 the nonce is
    left as it is. *)
Theorem xor_nonce_with_seq_compose (nonce : list Z) (s1 s2 : Z) :
  length nonce = 12%nat →
  Forall is_uint8 nonce →
  xor_nonce_with_seq (xor_nonce_with_seq nonce s1) s2
  = xor_nonce_with_seq nonce (Z.lxor s1 s2)
  ∧ xor_nonce_with_seq (xor_nonce_with_seq nonce s1) s2
    = xor_nonce_with_seq (xor_nonce_with_seq nonce s2) s1
  ∧ xor_nonce_with_seq nonce 0 = nonce.
Proof.
  intros Hlen Hbytes.
  do 12 (destruct nonce as [|? nonce]; [discriminate Hlen|]).
  destruct nonce; [|discriminate Hlen]. clear Hlen.
  repeat match goal with
         | H : Forall _ (_ :: _) |- _ => apply Forall_cons in H as [? H]
         end.
  assert (Hcomp : ∀ a b,
    xor_nonce_with_seq
      (xor_nonce_with_seq [z; z0; z1; z2; z3; z4; z5; z6; z7; z8; z9; z10] a) b
    = xor_nonce_with_seq [z; z0; z1; z2; z3; z4; z5; z6; z7; z8; z9; z10]
        (Z.lxor a b)).
  { intros a b. cbv [xor_nonce_with_seq xor_assign alter list_alter].
    do 4 f_equal.
    repeat (f_equal; [by apply xor_byte_compose|]).
    f_equal. pose proof (xor_byte_compose z10 a b 0 ltac:(lia)) as Hlast.
    by rewrite !Z.shiftr_0_r in Hlast. }
  split; [apply Hcomp|]. split.
  - by rewrite !Hcomp, Z.lxor_comm.
  - cbv [xor_nonce_with_seq xor_assign alter list_alter].
    do 4 f_equal.
    repeat (f_equal; [by apply xor_byte_zero|]).
    f_equal. pose proof (xor_byte_zero z10 0 ltac:(done)) as Hlast.
    by rewrite Z.shiftr_0_r in Hlast.
Qed.

Lemma xor_nonce_with_seq_compose_witness :
  let nonce := [1; 2; 3; 4; 5; 6; 7; 8; 9; 10; 11; 12] in
  xor_nonce_with_seq (xor_nonce_with_seq nonce 7) 0x0100
  = xor_nonce_with_seq nonce (Z.lxor 7 0x0100)
  ∧ xor_nonce_with_seq (xor_nonce_with_seq nonce 7) 0x0100
    = xor_nonce_with_seq (xor_nonce_with_seq nonce 0x0100) 7
  ∧ xor_nonce_with_seq nonce 0 = nonce.
Proof.
  apply (xor_nonce_with_seq_compose [1; 2; 3; 4; 5; 6; 7; 8; 9; 10; 11; 12]
           7 0x0100).
  - reflexivity.
  - repeat constructor; unfold is_uint8; lia.
Defined.

(** X2.  Zero bytes appended to a record body change nothing:
    [tls13_unwrap_content] returns the same length and content type with
    or without them. *)
Theorem tls13_unwrap_content_padding (data : list Z) (n : nat) :
  Z.of_nat (length data + n) <= SSIZE_MAX →
  tls13_unwrap_content (data ++ replicate n 0) = tls13_unwrap_content data.
Proof.
  intros Hmax.
  assert (Hzeros : Forall (λ b, b = 0) (replicate n 0)).
  { apply Forall_forall. by intros b [-> _]%elem_of_replicate. }
  destruct (last_nonzero_split data)
    as [Hz|(content & ct & padding & -> & Hct & Hz)].
  - rewrite !tls13_unwrap_content_all_zero; [done|lia|done| |].
    + rewrite length_app, length_replicate. lia.
    + by apply Forall_app.
  - rewrite <-app_assoc. cbn [app].
    rewrite !tls13_unwrap_content_decomp; [done|lia|done|done| |done|].
    + rewrite !length_app in *. cbn [length] in *.
      rewrite length_app, length_replicate. lia.
    + by apply Forall_app.
Qed.

Lemma tls13_unwrap_content_padding_witness :
  tls13_unwrap_content ([0x41; 0x42; 0x17] ++ replicate 5 0)
  = tls13_unwrap_content [0x41; 0x42; 0x17].
Proof.
  apply (tls13_unwrap_content_padding [0x41; 0x42; 0x17] 5).
  vm_compute. discriminate.
Defined.

(** X3.  The fast path of [find_tls13_content_end] (length at least 8 and
    a non-zero last byte) gives what the backwards scan gives: for every
    buffer the result is that of the scan alone. *)
Theorem find_tls13_content_end_scan (data : list Z) :
  Z.of_nat (length data) <= SSIZE_MAX →
  find_tls13_content_end data
  = let i := scan_back data (length data) in
    if i <? 0 then (-1, None) else (i, Some (byte_at data (Z.to_nat i))).
Proof.
  intros Hmax.
  destruct (last_nonzero_split data)
    as [Hz|(content & ct & padding & -> & Hct & Hz)].
  - rewrite find_tls13_content_end_all_zero, scan_back_all_zero by done.
    done.
  - rewrite find_tls13_content_end_decomp, scan_back_decomp by done.
    cbv zeta. destruct (Z.ltb_spec (Z.of_nat (length content)) 0); [lia|].
    by rewrite Nat2Z.id, byte_at_middle.
Qed.

Lemma find_tls13_content_end_scan_witness :
  find_tls13_content_end [1; 2; 3; 4; 5; 6; 7; 8; 0x17]
  = (8, Some 0x17).
Proof.
  rewrite (find_tls13_content_end_scan [1; 2; 3; 4; 5; 6; 7; 8; 0x17]).
  - reflexivity.
  - vm_compute. discriminate.
Defined.

(** X4.  A record header written as content type, two version bytes and
    the body length as two big-endian bytes is read back by
    [parse_tls_header] whatever follows it: the version bytes and the body
    play no part. *)
Theorem parse_tls_header_roundtrip (ct v1 v2 n : Z) (body : list Z) :
  is_uint16 n →
  parse_tls_header ([ct; v1; v2] ++ be_bytes 2 n ++ body) = HeaderParsed ct n.
Proof.
  intros Hn. unfold parse_tls_header. cbn [app be_bytes length Nat.ltb Nat.leb].
  unfold byte_at. cbn [lookup list_lookup default from_option id].
  rewrite read_be16.
  - by rewrite be_value_be_bytes_2.
  - unfold is_uint8. apply Z.mod_pos_bound. lia.
  - unfold is_uint8. apply Z.mod_pos_bound. lia.
Qed.

Lemma parse_tls_header_roundtrip_witness :
  parse_tls_header ([0x17; 0x03; 0x03] ++ be_bytes 2 16384 ++ [1; 2; 3])
  = HeaderParsed 0x17 16384.
Proof.
  apply (parse_tls_header_roundtrip 0x17 0x03 0x03 16384 [1; 2; 3]).
  unfold is_uint16. lia.
Defined.

(** ** VLESS/CVLESS.c *)

Lemma parse_ipv4_loop_parts remaining buf ptr parts parts' :
  parse_ipv4_loop remaining buf ptr parts = Some parts' →
  Forall is_uint8 parts → Forall is_uint8 parts'.
Proof.
  revert ptr parts. induction remaining as [|remaining IH]; intros ptr parts.
  - cbn. by intros [= <-].
  - cbn [parse_ipv4_loop]. destruct (strtol buf ptr 10) as [val end_].
    destruct (Z.ltb_spec val 0); [done|].
    destruct (Z.ltb_spec 255 val); [done|]. cbn [orb].
    destruct (ptr =? end_)%nat; [done|].
    assert (Hparts : Forall is_uint8 parts → Forall is_uint8 (parts ++ [val])).
    { intros Hp. apply Forall_app. split; [done|].
      constructor; [unfold is_uint8; lia|constructor]. }
    destruct (char_at buf end_ =? 0); [intros [= <-]; done|].
    destruct (negb _); [done|].
    intros Hloop Hp. eapply IH; [exact Hloop|auto].
Qed.

Lemma parse_ipv4_address_bytes str outBytes :
  parse_ipv4_address str = Some outBytes →
  length outBytes = 4%nat ∧ Forall is_uint8 outBytes.
Proof.
  unfold parse_ipv4_address.
  destruct ((length str =? 0)%nat || (15 <? length str)%nat); [done|].
  destruct (parse_ipv4_loop 4 (str ++ [0]) 0 []) as [parts|] eqn:Hloop; [|done].
  destruct (Nat.eqb_spec (length parts) 4) as [Hlen|]; [|done].
  cbn [negb]. intros [= <-]. rewrite length_fmap. split; [done|].
  apply Forall_fmap, Forall_forall. intros b _. apply to_uint8_range.
Qed.

(** X5.  Whenever [parse_ipv4_address] succeeds it has written exactly
    four bytes, each the value of one accepted group, and no group value
    was reduced modulo 256 on the way. *)
Theorem parse_ipv4_address_output (str outBytes : list Z) :
  parse_ipv4_address str = Some outBytes →
  length outBytes = 4%nat
  ∧ Forall is_uint8 outBytes
  ∧ parse_ipv4_loop 4 (str ++ [0]) 0 [] = Some outBytes
  ∧ (1 ≤ length str ≤ 15)%nat.
Proof.
  intros Hparse. destruct (parse_ipv4_address_bytes _ _ Hparse) as [Hlen Hb].
  split; [done|]. split; [done|].
  revert Hparse. unfold parse_ipv4_address.
  destruct (Nat.eqb_spec (length str) 0); [done|].
  destruct (Nat.ltb_spec 15 (length str)); [done|]. cbn [orb].
  destruct (parse_ipv4_loop 4 (str ++ [0]) 0 []) as [parts|] eqn:Hloop; [|done].
  destruct (negb _); [done|]. intros [= <-].
  split; [|lia]. f_equal.
  pose proof (parse_ipv4_loop_parts _ _ _ _ _ Hloop ltac:(constructor)) as Hparts.
  clear -Hparts. induction Hparts as [|p parts Hp _ IH]; [done|].
  cbn [fmap list_fmap]. f_equal; [symmetry; by apply to_uint8_id|done].
Qed.

Lemma parse_ipv4_address_output_witness :
  length [10; 0; 0; 1] = 4%nat
  ∧ Forall is_uint8 [10; 0; 0; 1]
  ∧ parse_ipv4_loop 4 (bytes_of_string "10.0.0.1" ++ [0]) 0 []
    = Some [10; 0; 0; 1]
  ∧ (1 ≤ length (bytes_of_string "10.0.0.1") ≤ 15)%nat.
Proof.
  apply (parse_ipv4_address_output (bytes_of_string "10.0.0.1") [10; 0; 0; 1]).
  vm_compute. reflexivity.
Defined.

Lemma parse_ipv6_loop_length fuel buf ptr parts partCount dcp parts' pc' dcp' :
  parse_ipv6_loop fuel buf ptr parts partCount dcp
  = Some (ScanDone parts' pc' dcp') →
  (partCount ≤ 8)%nat →
  length parts' = length parts ∧ (pc' ≤ 8)%nat.
Proof.
  revert ptr parts partCount dcp.
  induction fuel as [|fuel IH]; intros ptr parts partCount dcp; [done|].
  cbn [parse_ipv6_loop]. intros Hloop Hpc.
  destruct ((char_at buf ptr =? 0) || negb (partCount <? 8)%nat) eqn:Econd.
  { by injection Hloop as <- <- <-. }
  apply orb_false_iff in Econd as [_ Hlt].
  apply negb_false_iff, Nat.ltb_lt in Hlt.
  destruct (char_at buf ptr =? chr ":").
  - destruct (char_at buf (ptr + 1) =? chr ":").
    + destruct (0 <=? dcp); [done|].
      destruct (char_at buf (ptr + 2) =? 0).
      * by injection Hloop as <- <- <-.
      * by apply IH in Hloop.
    + by apply IH in Hloop.
  - destruct (strtol buf ptr 16) as [val end_].
    destruct ((val <? 0) || (65535 <? val)); [done|].
    destruct (ptr =? end_)%nat; [done|].
    apply IH in Hloop as [Hl Hp]; [|lia].
    by rewrite length_insert in Hl.
Qed.

Lemma shift_parts_length n lo missing parts :
  length (shift_parts n lo missing parts) = length parts.
Proof.
  revert parts. induction n as [|n IH]; intros parts; [done|].
  cbn [shift_parts]. destruct (lo <=? Z.of_nat n); [|done].
  by rewrite IH, length_insert.
Qed.

Lemma zero_parts_length count i parts :
  length (zero_parts count i parts) = length parts.
Proof.
  revert i parts. induction count as [|count IH]; intros i parts; [done|].
  cbn [zero_parts]. by rewrite IH, length_insert.
Qed.

Lemma parts_to_bytes_length parts :
  length (parts_to_bytes parts) = (2 * length parts)%nat.
Proof.
  unfold parts_to_bytes. induction parts as [|p parts IH]; [done|].
  cbn [mbind list_bind app length]. rewrite IH. lia.
Qed.

Lemma parts_to_bytes_bytes parts : Forall is_uint8 (parts_to_bytes parts).
Proof.
  unfold parts_to_bytes. induction parts as [|p parts IH]; [constructor|].
  cbn [mbind list_bind app].
  constructor; [apply to_uint8_range|].
  constructor; [apply to_uint8_range|done].
Qed.

Lemma parse_ipv6_address_bytes str outBytes :
  parse_ipv6_address str = Some outBytes →
  length outBytes = 16%nat ∧ Forall is_uint8 outBytes.
Proof.
  unfold parse_ipv6_address.
  destruct ((length str =? 0)%nat || (45 <? length str)%nat); [done|].
  destruct (if (2 <=? length str)%nat && _ && _ then _ else _) as [start len].
  destruct ((len =? 0)%nat || (39 <? len)%nat); [done|].
  destruct (parse_ipv6_loop _ _ _ _ _ _) as [[|parts pc dcp]|] eqn:Hloop;
    [done| |done].
  apply parse_ipv6_loop_length in Hloop as (Hlen & _); [|lia].
  rewrite length_replicate in Hlen.
  assert (Hout : ∀ ps, length ps = 8%nat →
            length (parts_to_bytes ps) = 16%nat
            ∧ Forall is_uint8 (parts_to_bytes ps)).
  { intros ps Hps. rewrite parts_to_bytes_length, Hps.
    split; [done|apply parts_to_bytes_bytes]. }
  destruct (0 <=? dcp).
  - destruct (8 - Z.of_nat pc <? 0); [done|]. intros <-%(inj Some).
    apply Hout. by rewrite zero_parts_length, shift_parts_length.
  - destruct (negb _); [done|]. intros <-%(inj Some). by apply Hout.
Qed.

(** X6.  Whenever [parse_ipv6_address] succeeds it has written exactly
    sixteen bytes; the input had between 1 and 45 characters. *)
Theorem parse_ipv6_address_output (str outBytes : list Z) :
  parse_ipv6_address str = Some outBytes →
  length outBytes = 16%nat
  ∧ Forall is_uint8 outBytes
  ∧ (1 ≤ length str ≤ 45)%nat.
Proof.
  intros Hparse. destruct (parse_ipv6_address_bytes _ _ Hparse) as [Hlen Hb].
  split; [done|]. split; [done|].
  revert Hparse. unfold parse_ipv6_address.
  destruct (Nat.eqb_spec (length str) 0); [done|].
  destruct (Nat.ltb_spec 45 (length str)); [done|]. lia.
Qed.

Lemma parse_ipv6_address_output_witness :
  length [0; 0; 0; 0; 0; 0; 0; 0; 0; 0; 0; 0; 0; 0; 0; 1] = 16%nat
  ∧ Forall is_uint8 [0; 0; 0; 0; 0; 0; 0; 0; 0; 0; 0; 0; 0; 0; 0; 1]
  ∧ (1 ≤ length (bytes_of_string "::1") ≤ 45)%nat.
Proof.
  apply (parse_ipv6_address_output (bytes_of_string "::1")).
  vm_compute. reflexivity.
Defined.

(** X7.  [parse_vless_address] fails exactly on inputs longer than 255
    bytes: such an input is too long for either address parser and for a
    domain, and every shorter input is at least a domain. *)
Theorem parse_vless_address_fails_iff (str : list Z) :
  parse_vless_address str = None ↔ (255 < length str)%nat.
Proof.
  unfold parse_vless_address. split.
  - destruct (parse_ipv4_address str); [done|].
    destruct (parse_ipv6_address str); [done|].
    by destruct (Nat.ltb_spec 255 (length str)).
  - intros Hlen.
    assert (H4 : parse_ipv4_address str = None).
    { unfold parse_ipv4_address.
      destruct (Nat.ltb_spec 15 (length str)); [|lia].
      by rewrite orb_true_r. }
    assert (H6 : parse_ipv6_address str = None).
    { unfold parse_ipv6_address.
      destruct (Nat.ltb_spec 45 (length str)); [|lia].
      by rewrite orb_true_r. }
    rewrite H4, H6. by destruct (Nat.ltb_spec 255 (length str)); [|lia].
Qed.

(** The typed address a successful [parse_vless_address] stands for. *)
Lemma parse_vless_address_typed str outType outBytes outLen :
  parse_vless_address str = Some (outType, outBytes, outLen) →
  ∃ a, valid_address a
       ∧ address_type a = outType
       ∧ address_bytes a = outBytes
       ∧ length outBytes = outLen
       ∧ (is_domain a = true → outBytes = str).
Proof.
  unfold parse_vless_address.
  destruct (parse_ipv4_address str) as [b4|] eqn:H4.
  { intros [= <- <- <-]. apply parse_ipv4_address_bytes in H4 as [Hl _].
    by exists (IPv4 b4). }
  destruct (parse_ipv6_address str) as [b6|] eqn:H6.
  { intros [= <- <- <-]. apply parse_ipv6_address_bytes in H6 as [Hl _].
    by exists (IPv6 b6). }
  destruct (Nat.ltb_spec 255 (length str)); [done|].
  intros [= <- <- <-]. by exists (Domain str).
Qed.

(** X8.  The output of a successful [parse_vless_address] can be passed
    to [build_vless_request_header] as it is: the type, bytes and length
    always agree (4 bytes for IPv4, 16 for IPv6, at most 255 for a domain,
    which is the input itself), the header is 22 + outLen bytes long, one
    more for a domain, and reading it back gives the parsed address. *)
Theorem parse_then_build_roundtrip
    (str buffer uuid : list Z) (command port outType : Z)
    (outBytes : list Z) (outLen : nat) :
  parse_vless_address str = Some (outType, outBytes, outLen) →
  length uuid = 16%nat →
  is_uint16 port →
  (23 + outLen ≤ length buffer)%nat →
  ∃ a out,
    valid_address a
    ∧ address_type a = outType ∧ address_bytes a = outBytes
    ∧ length outBytes = outLen
    ∧ (is_domain a = true → outBytes = str)
    ∧ build_vless_request_header buffer uuid command port outType
                                 outBytes outLen
      = (out, (22 + outLen + (if is_domain a then 1 else 0))%nat)
    ∧ read_vless_request_header out
      = Some {| h_version := 0x00; h_uuid := uuid; h_addonsLength := 0x00;
                h_command := command; h_port := port; h_address := a |}.
Proof.
  intros Hparse Huuid Hport Hbuf.
  destruct (parse_vless_address_typed _ _ _ _ Hparse)
    as (a & Hvalid & Hty & Hbytes & Hlen & Hdom).
  set (h := {| h_version := 0x00; h_uuid := uuid; h_addonsLength := 0x00;
               h_command := command; h_port := port; h_address := a |}).
  exists a, (header_layout h ++ drop (length (header_layout h)) buffer).
  repeat (split; [done|]).
  assert (Hpayload : (22 + length (address_payload a) ≤ length buffer)%nat).
  { rewrite <-Hlen, <-Hbytes in Hbuf.
    destruct a; cbn [address_payload address_bytes length] in *; lia. }
  pose proof (build_vless_request_header_layout buffer uuid command port a
                Huuid Hvalid Hpayload) as Hbuild.
  cbv zeta in Hbuild. fold h in Hbuild.
  rewrite Hty, Hbytes, Hlen in Hbuild.
  rewrite (header_layout_length h Huuid) in Hbuild at 2.
  cbn [h h_address] in Hbuild. rewrite Hbytes, Hlen in Hbuild.
  split; [exact Hbuild|].
  by apply read_header_layout.
Qed.

Lemma parse_then_build_roundtrip_witness :
  ∃ a out,
    valid_address a
    ∧ address_type a = VLESS_ADDR_IPV4 ∧ address_bytes a = [10; 0; 0; 1]
    ∧ length [10; 0; 0; 1] = 4%nat
    ∧ (is_domain a = true → [10; 0; 0; 1] = bytes_of_string "10.0.0.1")
    ∧ build_vless_request_header (replicate 64 0) (replicate 16 7)
        VLESS_CMD_UDP 53 VLESS_ADDR_IPV4 [10; 0; 0; 1] 4
      = (out, (22 + 4 + (if is_domain a then 1 else 0))%nat)
    ∧ read_vless_request_header out
      = Some {| h_version := 0x00; h_uuid := replicate 16 7;
                h_addonsLength := 0x00; h_command := VLESS_CMD_UDP;
                h_port := 53; h_address := a |}.
Proof.
  apply (parse_then_build_roundtrip (bytes_of_string "10.0.0.1")
           (replicate 64 0) (replicate 16 7) VLESS_CMD_UDP 53).
  - vm_compute. reflexivity.
  - reflexivity.
  - unfold is_uint16. lia.
  - vm_compute. lia.
Defined.

(** X9.  Enclosing brackets are optional: for a string of 1 to 39
    characters that is not itself bracketed, [parse_ipv6_address] gives the
    same result with and without a pair of brackets around it. *)
Theorem parse_ipv6_address_brackets_optional (s : list Z) :
  (1 ≤ length s ≤ 39)%nat →
  ¬ (char_at s 0 = chr "[" ∧ char_at s (length s - 1) = chr "]") →
  parse_ipv6_address ([chr "["] ++ s ++ [chr "]"]) = parse_ipv6_address s.
Proof.
  intros Hlen Hnot. unfold parse_ipv6_address.
  assert (Hl : length ([chr "["] ++ s ++ [chr "]"]) = S (S (length s))).
  { cbn [app length]. rewrite length_app. cbn [length]. lia. }
  rewrite Hl.
  destruct (Nat.eqb_spec (length s) 0); [lia|].
  destruct (Nat.ltb_spec 45 (length s)); [lia|].
  destruct (Nat.ltb_spec 45 (S (S (length s)))); [lia|].
  cbn [Nat.eqb orb].
  assert (Hb1 : (2 <=? S (S (length s)))%nat
                && (char_at ([chr "["] ++ s ++ [chr "]"]) 0 =? chr "[")
                && (char_at ([chr "["] ++ s ++ [chr "]"])
                            (S (S (length s)) - 1) =? chr "]") = true).
  { assert (Hlast : char_at ([chr "["] ++ s ++ [chr "]"]) (S (length s))
                    = chr "]").
    { unfold char_at.
      change ([chr "["] ++ s ++ [chr "]"]) with ((chr "[" :: s) ++ [chr "]"]).
      by rewrite list_lookup_middle by done. }
    cbn [Nat.leb andb Nat.sub]. rewrite ?Nat.sub_0_r, Hlast.
    unfold char_at. cbn [app lookup list_lookup default from_option id].
    by rewrite !Z.eqb_refl. }
  assert (Hb2 : (2 <=? length s)%nat && (char_at s 0 =? chr "[")
                && (char_at s (length s - 1) =? chr "]") = false).
  { destruct (Z.eqb_spec (char_at s 0) (chr "["));
      destruct (Z.eqb_spec (char_at s (length s - 1)) (chr "]"));
      rewrite ?andb_false_r; try done.
    by destruct Hnot. }
  rewrite Hb1, Hb2.
  replace (S (S (length s)) - 2)%nat with (length s) by lia.
  destruct (Nat.eqb_spec (length s) 0); [lia|].
  destruct (Nat.ltb_spec 39 (length s)); [lia|]. cbn [orb].
  cbn [app drop]. rewrite drop_0, take_app_length, firstn_all.
  done.
Qed.

Lemma parse_ipv6_address_brackets_optional_witness :
  parse_ipv6_address ([chr "["] ++ bytes_of_string "2001:db8::1" ++ [chr "]"])
  = parse_ipv6_address (bytes_of_string "2001:db8::1").
Proof.
  apply (parse_ipv6_address_brackets_optional (bytes_of_string "2001:db8::1")).
  - vm_compute. lia.
  - vm_compute. intros [H _]. discriminate H.
Defined.

Lemma digit_in_base_10 d :
  0 <= d <= 9 → digit_in_base 10 (chr "0" + d) = Some d.
Proof.
  intros Hd. unfold digit_in_base, digit_value.
  change (chr "0") with 48. change (chr "9") with 57.
  destruct (Z.leb_spec 48 (48 + d)); [|lia].
  destruct (Z.leb_spec (48 + d) 57); [|lia]. cbn [andb].
  replace (48 + d - 48) with d by lia.
  by destruct (Z.ltb_spec d 10); [|lia].
Qed.

Lemma isspace_digit d : 0 <= d <= 9 → isspace (chr "0" + d) = false.
Proof.
  intros Hd. unfold isspace. change (chr "0") with 48. change (chr " ") with 32.
  destruct (Z.eqb_spec (48 + d) 32); [lia|].
  destruct (Z.leb_spec (48 + d) 13); [lia|]. by rewrite andb_false_r.
Qed.

Lemma decimal_head n :
  is_uint8 n →
  ∃ d tl, decimal n = (chr "0" + d) :: tl ∧ 0 <= d <= 9
          ∧ (length tl ≤ 2)%nat.
Proof.
  unfold is_uint8, decimal. intros Hn.
  destruct (Z.ltb_spec n 10); [|destruct (Z.ltb_spec n 100)].
  - exists n, []. cbn. repeat split; lia.
  - eexists _, _. split; [done|]. cbn [length].
    split; [|lia]. Z.to_euclidean_division_equations. lia.
  - eexists _, _. split; [done|]. cbn [length].
    split; [|lia]. Z.to_euclidean_division_equations. lia.
Qed.

Lemma scan_digits_decimal n c rest :
  is_uint8 n → digit_in_base 10 c = None →
  scan_digits 10 (decimal n ++ c :: rest) 0 = (n, length (decimal n)).
Proof.
  unfold is_uint8, decimal. intros Hn Hc.
  destruct (Z.ltb_spec n 10); [|destruct (Z.ltb_spec n 100)];
    cbn [app scan_digits length];
    rewrite ?digit_in_base_10 by (Z.to_euclidean_division_equations; lia);
    rewrite Hc; f_equal; Z.to_euclidean_division_equations; lia.
Qed.

(** [strtol] on the decimal text of an octet that a non-digit follows. *)
Lemma strtol_decimal pre n c rest :
  is_uint8 n → digit_in_base 10 c = None →
  strtol (pre ++ decimal n ++ c :: rest) (length pre) 10
  = (n, (length pre + length (decimal n))%nat).
Proof.
  intros Hn Hc. unfold strtol. rewrite drop_app_length.
  pose proof (scan_digits_decimal n c rest Hn Hc) as Hscan.
  destruct (decimal_head n Hn) as (d & tl & Hdec & Hd & _).
  rewrite Hdec in *. cbn [app skip_spaces].
  rewrite (isspace_digit d Hd). cbn [drop sign_length].
  change (chr "0") with 48 in *. change (chr "-") with 45. change (chr "+") with 43.
  destruct (Z.eqb_spec (48 + d) 45); [lia|].
  destruct (Z.eqb_spec (48 + d) 43); [lia|].
  cbn [drop]. unfold hex_prefix_length.
  change (10 =? 16) with false. cbv iota. cbn [drop].
  cbn [app] in Hscan. rewrite Hscan. cbn [length Nat.eqb].
  unfold clamp_long, LONG_MAX, LONG_MIN. unfold is_uint8 in Hn.
  destruct (Z.ltb_spec (2 ^ 63 - 1) n); [lia|].
  destruct (Z.ltb_spec n (- 2 ^ 63)); [lia|].
  f_equal. lia.
Qed.

(** One turn of the loop of [parse_ipv4_address] on the decimal text of an
    octet: at the terminator the loop ends, at a dot it goes on behind the
    dot. *)
Lemma parse_ipv4_loop_decimal remaining buf pre n c rest parts :
  buf = pre ++ decimal n ++ c :: rest →
  is_uint8 n → c = 0 ∨ c = chr "." →
  parse_ipv4_loop (S remaining) buf (length pre) parts
  = if c =? 0 then Some (parts ++ [n])
    else parse_ipv4_loop remaining buf (length (pre ++ decimal n ++ [c]))
           (parts ++ [n]).
Proof.
  intros -> Hn Hc.
  assert (Hnd : digit_in_base 10 c = None) by (by destruct Hc as [->| ->]).
  cbn [parse_ipv4_loop]. rewrite strtol_decimal by done.
  unfold is_uint8 in Hn.
  destruct (Z.ltb_spec n 0); [lia|]. destruct (Z.ltb_spec 255 n); [lia|].
  cbn [orb].
  destruct (decimal_head n ltac:(done)) as (d & tl & Hdec & _).
  destruct (Nat.eqb_spec (length pre) (length pre + length (decimal n))) as [E|_].
  { rewrite Hdec in E. cbn [length] in E. lia. }
  assert (Hat : char_at (pre ++ decimal n ++ c :: rest)
                        (length pre + length (decimal n)) = c).
  { unfold char_at. rewrite app_assoc.
    by rewrite list_lookup_middle by by rewrite length_app. }
  rewrite Hat. destruct Hc as [->| ->].
  - done.
  - change (chr "." =? 0) with false. rewrite Z.eqb_refl. cbn [negb].
    do 2 f_equal. rewrite !length_app. cbn [length]. lia.
Qed.

(** X10.  The dotted-quad text of any four octets, written in decimal
    without leading zeros, is parsed by [parse_ipv4_address] to these four
    octets. *)
Theorem parse_ipv4_address_dotted_quad (a b c d : Z) :
  is_uint8 a → is_uint8 b → is_uint8 c → is_uint8 d →
  parse_ipv4_address (dotted_quad a b c d) = Some [a; b; c; d].
Proof.
  intros Ha Hb Hc Hd. unfold parse_ipv4_address.
  destruct (decimal_head a Ha) as (da & ta & Hda & _ & Hla).
  destruct (decimal_head b Hb) as (db & tb & Hdb & _ & Hlb).
  destruct (decimal_head c Hc) as (dc & tc & Hdc & _ & Hlc).
  destruct (decimal_head d Hd) as (dd & td & Hdd & _ & Hld).
  assert (Hlen : (7 ≤ length (dotted_quad a b c d) ≤ 15)%nat).
  { unfold dotted_quad. rewrite Hda, Hdb, Hdc, Hdd.
    rewrite !length_app. cbn [length]. rewrite ?length_app. cbn [length]. lia. }
  destruct (Nat.eqb_spec (length (dotted_quad a b c d)) 0); [lia|].
  destruct (Nat.ltb_spec 15 (length (dotted_quad a b c d))); [lia|].
  cbn [orb]. clear Hda Hdb Hdc Hdd Hlen.
  set (buf := dotted_quad a b c d ++ [0]).
  change 0%nat with (length (@nil Z)) at 1.
  rewrite (parse_ipv4_loop_decimal 3 buf [] a (chr ".")
             (decimal b ++ [chr "."] ++ decimal c ++ [chr "."] ++ decimal d ++ [0]));
    [|unfold buf, dotted_quad; by rewrite <-?app_assoc|done|by right].
  change (chr "." =? 0) with false. cbv iota.
  rewrite (parse_ipv4_loop_decimal 2 buf _ b (chr ".")
             (decimal c ++ [chr "."] ++ decimal d ++ [0]));
    [|unfold buf, dotted_quad; by rewrite <-?app_assoc|done|by right].
  change (chr "." =? 0) with false. cbv iota.
  rewrite (parse_ipv4_loop_decimal 1 buf _ c (chr ".") (decimal d ++ [0]));
    [|unfold buf, dotted_quad; by rewrite <-?app_assoc|done|by right].
  change (chr "." =? 0) with false. cbv iota.
  rewrite (parse_ipv4_loop_decimal 0 buf _ d 0 []);
    [|unfold buf, dotted_quad; by rewrite <-?app_assoc|done|by left].
  cbn [Z.eqb app length Nat.eqb negb fmap list_fmap].
  by rewrite !to_uint8_id.
Qed.

Lemma parse_ipv4_address_dotted_quad_witness :
  parse_ipv4_address (dotted_quad 192 168 1 10) = Some [192; 168; 1; 10].
Proof.
  apply (parse_ipv4_address_dotted_quad 192 168 1 10); unfold is_uint8; lia.
Defined.

(** ** lwip/lwip_bridge.c *)

(** X11.  Only a UDP packet moves the two scratch variables: an IPv4 or
    IPv6 packet with another protocol, or too short to hold a UDP header,
    is handed to the engine with the whole state as it was. *)
Theorem lwip_bridge_input_not_udp
    (pkt : list Z) (len : Z) (pbuf_alloc_ok : bool) (st : bridge) :
  Forall is_uint8 pkt → len <= Z.of_nat (length pkt) →
  (ip_version pkt = 4 ∧ 20 <= len
   ∧ (byte_at pkt 9 ≠ 17 ∨ len < ipv4_header_length pkt + 8))
  ∨ (ip_version pkt = 6 ∧ 40 <= len ∧ (byte_at pkt 6 ≠ 17 ∨ len < 48)) →
  lwip_bridge_input (Some pkt) len pbuf_alloc_ok st
  = if pbuf_alloc_ok
    then InputToEngine (take (Z.to_nat (to_uint16 len)) pkt) st
    else InputAllocFailed st.
Proof.
  intros Hb Hl Hcase.
  assert (Hb0 : is_uint8 (byte_at pkt 0)).
  { apply byte_at_Forall; [done|]. destruct Hcase as [(_&?&_)|(_&?&_)]; lia. }
  cbn. destruct (Z.leb_spec len 0) as [|Hpos].
  { destruct Hcase as [(_&?&_)|(_&?&_)]; lia. }
  rewrite (version_nibble _ Hb0). fold (ip_version pkt).
  rewrite (header_length_bytes _ Hb0). fold (ipv4_header_length pkt).
  destruct Hcase as [(-> & Hlen & Hno)|(-> & Hlen & Hno)].
  - destruct (Z.leb_spec 20 len); [|lia]. cbn [Z.eqb Pos.eqb andb].
    destruct Hno as [Hp|Hs].
    + by destruct (Z.eqb_spec (byte_at pkt 9) 17).
    + destruct (Z.leb_spec (ipv4_header_length pkt + 8) len); [lia|].
      by rewrite andb_false_r.
  - destruct (Z.leb_spec 40 len); [|lia]. cbn [Z.eqb Pos.eqb andb].
    destruct Hno as [Hp|Hs].
    + by destruct (Z.eqb_spec (byte_at pkt 6) 17).
    + destruct (Z.leb_spec 48 len); [lia|]. by rewrite andb_false_r.
Qed.

Lemma lwip_bridge_input_not_udp_witness :
  let tcp4 := [0x45; 0; 0; 40; 0; 0; 0; 0; 64; 6; 0; 0;
               10; 0; 0; 1; 1; 1; 1; 1] ++ replicate 20 0 in
  lwip_bridge_input (Some tcp4) 40 true (bridge_after_init true)
  = InputToEngine tcp4 (bridge_after_init true).
Proof.
  intros tcp4.
  rewrite (lwip_bridge_input_not_udp tcp4 40 true (bridge_after_init true)).
  - reflexivity.
  - apply Forall_forall. intros b Hin. apply list_elem_of_In in Hin.
    assert (Hall : forallb (λ b, (0 <=? b) && (b <? 256)) tcp4 = true)
      by reflexivity.
    pose proof (proj1 (forallb_forall _ tcp4) Hall b Hin) as Hr.
    apply andb_true_iff in Hr as [Hlo Hhi].
    apply Z.leb_le in Hlo. apply Z.ltb_lt in Hhi. unfold is_uint8. lia.
  - vm_compute. discriminate.
  - left. split; [reflexivity|]. split; [lia|]. left. vm_compute. discriminate.
Defined.

(** Aborting the head of the active list, whether or not Swift has
    registered its error callback. *)
Lemma tcp_abort_head_calls p rest st :
  tcp_active_pcbs st = p :: rest →
  let st' := tcp_abort (pcb_id p) st in
  tcp_active_pcbs st' = rest
  ∧ tcp_tw_pcbs st' = tcp_tw_pcbs st
  ∧ s_tcp_err_fn st' = s_tcp_err_fn st
  ∧ swift_calls st'
    = swift_calls st ++ (if s_tcp_err_fn st then omap notification [p] else []).
Proof.
  intros Hact. unfold tcp_abort. rewrite Hact.
  cbn [find_pcb tcp_pcb_remove omap list_omap]. rewrite Nat.eqb_refl.
  unfold notification, tcp_err_cb.
  destruct (errf p); [destruct (callback_arg p)|]; cbn;
    destruct (s_tcp_err_fn st) eqn:Hfn; cbn; rewrite ?Hfn, ?app_nil_r; done.
Qed.

Lemma abort_active_pcbs_calls fuel st :
  (length (tcp_active_pcbs st) ≤ fuel)%nat →
  ∃ st',
    abort_active_pcbs fuel st = Some st'
    ∧ tcp_active_pcbs st' = []
    ∧ tcp_tw_pcbs st' = tcp_tw_pcbs st
    ∧ s_tcp_err_fn st' = s_tcp_err_fn st
    ∧ swift_calls st'
      = swift_calls st
        ++ (if s_tcp_err_fn st
            then omap notification (tcp_active_pcbs st) else []).
Proof.
  revert st. induction fuel as [|fuel IH]; intros st Hlen.
  - destruct (tcp_active_pcbs st) as [|p rest] eqn:Hact; [|cbn in Hlen; lia].
    exists st. cbn [abort_active_pcbs]. rewrite Hact.
    destruct (s_tcp_err_fn st); by rewrite app_nil_r.
  - cbn [abort_active_pcbs].
    destruct (tcp_active_pcbs st) as [|p rest] eqn:Hact.
    + exists st. destruct (s_tcp_err_fn st); by rewrite app_nil_r.
    + destruct (tcp_abort_head_calls p rest st Hact) as (Ha & Ht & Hf & Hc).
      destruct (IH (tcp_abort (pcb_id p) st)) as (st' & Hrun & Ha' & Ht' & Hf' & Hc').
      * rewrite Ha. cbn [length] in Hlen. lia.
      * exists st'. split; [done|]. split; [done|]. split; [congruence|].
        split; [congruence|].
        rewrite Hc', Hc, Hf, Ha, <-app_assoc. f_equal.
        destruct (s_tcp_err_fn st); [|done].
        change (p :: rest) with ([p] ++ rest). by rewrite omap_app.
Qed.

(** X13.  [lwip_bridge_shutdown] on any mix of PCBs: an active PCB is
    reported to Swift, once and with [ERR_ABRT], exactly when it has both
    the error callback installed and a non-null argument and Swift has
    registered its error function; PCBs in TIME_WAIT are freed without a
    call; afterwards both lists are empty and the listeners are gone. *)
Theorem lwip_bridge_shutdown_calls (st : bridge) (fuel : nat) :
  (length (tcp_active_pcbs st) ≤ fuel)%nat →
  (length (tcp_tw_pcbs st) ≤ fuel)%nat →
  ∃ st',
    lwip_bridge_shutdown fuel st = Some st'
    ∧ swift_calls st'
      = swift_calls st
        ++ (if s_tcp_err_fn st
            then omap (λ p, if errf p
                            then (λ c, TcpErr c ERR_ABRT) <$> callback_arg p
                            else None) (tcp_active_pcbs st)
            else [])
    ∧ tcp_active_pcbs st' = [] ∧ tcp_tw_pcbs st' = []
    ∧ tcp_listen_pcb_v4 st' = false ∧ tcp_listen_pcb_v6 st' = false
    ∧ udp_listen_pcb_v4 st' = false ∧ udp_listen_pcb_v6 st' = false
    ∧ tun_netif_up st' = false.
Proof.
  intros Hla Hlt.
  destruct (abort_active_pcbs_calls fuel st Hla)
    as (st2 & Hrun2 & Ha2 & Ht2 & Hf2 & Hc2).
  destruct (free_tw_pcbs_spec fuel st2) as (st3 & Hrun3 & Ht3 & Ha3 & Hc3).
  { by rewrite Ht2. }
  exists (close_listeners st3). split.
  { unfold lwip_bridge_shutdown. rewrite Hrun2. cbn. by rewrite Hrun3. }
  cbn [close_listeners swift_calls tcp_active_pcbs tcp_tw_pcbs
       tcp_listen_pcb_v4 tcp_listen_pcb_v6 udp_listen_pcb_v4
       udp_listen_pcb_v6 tun_netif_up].
  split; [|split; [congruence|by repeat split]].
  rewrite Hc3, Hc2. reflexivity.
Qed.

Lemma lwip_bridge_shutdown_calls_witness :
  let st :=
    {| s_tcp_err_fn := false;
       tcp_active_pcbs := [bound_pcb (1, 101)%nat; fresh_pcb 2];
       tcp_tw_pcbs := [fresh_pcb 3];
       tcp_listen_pcb_v4 := true; tcp_listen_pcb_v6 := true;
       udp_listen_pcb_v4 := true; udp_listen_pcb_v6 := true;
       tun_netif_up := true;
       s_current_udp_dst_port := 0;
       s_current_udp_dst_ip := IPADDR_TYPE_V4 [0; 0; 0; 0];
       swift_calls := [] |} in
  ∃ st', lwip_bridge_shutdown 2 st = Some st' ∧ swift_calls st' = [].
Proof.
  intros st.
  destruct (lwip_bridge_shutdown_calls st 2) as (st' & Hrun & Hcalls & _).
  - vm_compute. lia.
  - vm_compute. lia.
  - exists st'. split; [exact Hrun|]. rewrite Hcalls. reflexivity.
Defined.

Lemma filter_not_elem_singleton (id : nat) (l : list tcp_pcb) :
  filter (λ p, pcb_id p ∉ [id]) l = filter (λ p, pcb_id p ≠ id) l.
Proof.
  apply list_filter_iff. intros p. rewrite list_elem_of_singleton. done.
Qed.

(** X14.  [lwip_bridge_tcp_abort] is silent: it makes no call into Swift,
    and at a later shutdown the aborted connection is not reported either,
    while every other connection is reported as if nothing had happened. *)
Theorem lwip_bridge_tcp_abort_silent (pcb : nat) (st : bridge) (fuel : nat) :
  (length (tcp_active_pcbs st) ≤ fuel)%nat →
  (length (tcp_tw_pcbs st) ≤ fuel)%nat →
  let st1 := lwip_bridge_tcp_abort pcb st in
  swift_calls st1 = swift_calls st
  ∧ ∃ st',
      lwip_bridge_shutdown fuel st1 = Some st'
      ∧ swift_calls st'
        = swift_calls st
          ++ (if s_tcp_err_fn st
              then omap notification
                     (filter (λ p, pcb_id p ≠ pcb) (tcp_active_pcbs st))
              else []).
Proof.
  intros Hla Hlt st1.
  pose proof (teardown_clear pcb [] _ _ (teardown_refl (tcp_active_pcbs st)))
    as Ht1.
  assert (Hin : pcb ∈ [pcb]) by apply list_elem_of_here.
  pose proof (teardown_remove pcb _ _ _ Hin Ht1) as Ht2.
  assert (Hst1 : swift_calls st1 = swift_calls st
                 ∧ s_tcp_err_fn st1 = s_tcp_err_fn st
                 ∧ teardown [pcb] (tcp_active_pcbs st) (tcp_active_pcbs st1)
                 ∧ (length (tcp_tw_pcbs st1) ≤ length (tcp_tw_pcbs st))%nat).
  { subst st1. unfold lwip_bridge_tcp_abort. rewrite clear_callbacks.
    unfold tcp_abort.
    cbn [update_pcb set_pcbs tcp_active_pcbs tcp_tw_pcbs swift_calls
         s_tcp_err_fn].
    destruct (find_pcb pcb _) as [p|] eqn:Ef.
    - rewrite (find_pcb_cleared _ _ _ Ef).
      cbn [set_pcbs tcp_active_pcbs tcp_tw_pcbs swift_calls s_tcp_err_fn].
      repeat split; [done|]. by rewrite length_fmap.
    - cbn [set_pcbs tcp_active_pcbs tcp_tw_pcbs swift_calls s_tcp_err_fn].
      repeat split; [done|]. pcb_lengths. }
  destruct Hst1 as (Hc & Hf & Ht & Hl). split; [done|].
  pose proof (teardown_length _ _ _ Ht) as Hla1.
  destruct (abort_active_pcbs_calls fuel st1)
    as (st2 & Hrun2 & Ha2 & Ht2' & Hf2 & Hc2); [lia|].
  destruct (free_tw_pcbs_spec fuel st2) as (st3 & Hrun3 & Ht3 & Ha3 & Hc3).
  { rewrite Ht2'. lia. }
  exists (close_listeners st3). split.
  { unfold lwip_bridge_shutdown. rewrite Hrun2. cbn. by rewrite Hrun3. }
  cbn [close_listeners swift_calls]. rewrite Hc3, Hc2, Hc, Hf.
  by rewrite (teardown_notifications _ _ _ Ht), filter_not_elem_singleton.
Qed.

Lemma lwip_bridge_tcp_abort_silent_witness :
  let st :=
    {| s_tcp_err_fn := true;
       tcp_active_pcbs := bound_pcb <$> [(1, 101); (2, 102)]%nat;
       tcp_tw_pcbs := [];
       tcp_listen_pcb_v4 := true; tcp_listen_pcb_v6 := true;
       udp_listen_pcb_v4 := true; udp_listen_pcb_v6 := true;
       tun_netif_up := true;
       s_current_udp_dst_port := 0;
       s_current_udp_dst_ip := IPADDR_TYPE_V4 [0; 0; 0; 0];
       swift_calls := [] |} in
  swift_calls (lwip_bridge_tcp_abort 1 st) = []
  ∧ ∃ st', lwip_bridge_shutdown 2 (lwip_bridge_tcp_abort 1 st) = Some st'
           ∧ swift_calls st' = [TcpErr 102%nat ERR_ABRT].
Proof.
  intros st.
  destruct (lwip_bridge_tcp_abort_silent 1 st 2) as (Hc & st' & Hrun & Hcalls).
  - vm_compute. lia.
  - vm_compute. lia.
  - split; [exact Hc|]. exists st'. split; [exact Hrun|].
    rewrite Hcalls. vm_compute. reflexivity.
Defined.





Lemma memcpy_head (out src : list Z) (n : nat) :
  (n ≤ length src)%nat → (n ≤ length out)%nat →
  memcpy out 0 src n = take n src ++ drop n out.
Proof.
  intros Hs Ho. exact (memcpy_cursor [] out src 0 n eq_refl Hs Ho).
Qed.









(** X18.  [tcp_recv_cb] and the pbuf it is given: on every path a pbuf
    that is not null is freed exactly once, as the last thing done, so
    after any call into Swift, and a heap copy is freed exactly when it
    was obtained; Swift is called at most once; the result is [ERR_ABRT]
    exactly when [arg] is null, and then Swift is not called at all. *)
Theorem tcp_recv_cb_frees_pbuf
    (s_tcp_recv_fn mem_malloc_ok : bool) (arg : option conn)
    (p : option pbuf) :
  let r := tcp_recv_cb s_tcp_recv_fn mem_malloc_ok arg p in
  count_calls is_pbuf_free r.2 = match p with Some _ => 1%nat | None => 0%nat end
  ∧ (∀ q, p = Some q → last r.2 = Some (PbufFree q))
  ∧ count_calls is_mem_free r.2 = count_calls is_mem_malloc r.2
  ∧ (count_calls is_tcp_recv_fn r.2 ≤ 1)%nat
  ∧ (r.1 = ERR_ABRT ↔ arg = None)
  ∧ (r.1 = ERR_OK ↔ arg ≠ None)
  ∧ (arg = None → count_calls is_tcp_recv_fn r.2 = 0%nat).
Proof.
  intros r. subst r. unfold tcp_recv_cb.
  destruct arg as [c|], p as [[pl tl [q|]]|], s_tcp_recv_fn, mem_malloc_ok;
    cbn; repeat split; try done; try lia; try (by intros ? [= <-]).
Qed.

Lemma to_uint16_small len : 0 <= len < 65536 → to_uint16 len = len.
Proof. intros H. unfold to_uint16. by apply Z.mod_small. Qed.

(** X19.  [lwip_bridge_udp_sendto] keeps nothing: whatever fails along the
    way, a UDP PCB that was obtained is removed exactly once, as the last
    call made, and a pbuf that was obtained is freed exactly once; a
    datagram is sent at most once, and only when the PCB, the bind and the
    pbuf all succeeded. *)
Theorem lwip_bridge_udp_sendto_releases
    (udp_new_ok : bool) (bind_err : Z) (pbuf_alloc_ok : bool)
    (src_ip_bytes : list Z) (src_port : Z)
    (dst_ip_bytes : list Z) (dst_port : Z) (is_ipv6 : Z)
    (data : option (list Z)) (len : Z) :
  len < 65536 →
  ∃ calls,
    lwip_bridge_udp_sendto udp_new_ok bind_err pbuf_alloc_ok
      src_ip_bytes src_port dst_ip_bytes dst_port is_ipv6 data len
    = Some calls
    ∧ count_calls is_udp_remove calls = count_calls is_udp_new calls
    ∧ count_calls is_pbuf_free calls = count_calls is_pbuf_alloc calls
    ∧ (0 < count_calls is_udp_new calls → last calls = Some UdpRemove)%nat
    ∧ count_calls is_udp_send calls
      = if decide (is_Some data ∧ 0 < len ∧ udp_new_ok = true
                   ∧ bind_err = ERR_OK ∧ pbuf_alloc_ok = true)
        then 1%nat else 0%nat.
Proof.
  intros Hlen. unfold lwip_bridge_udp_sendto.
  assert (Hno : ∀ calls : list call,
            count_calls is_udp_send calls = 0%nat →
            ¬ (is_Some data ∧ 0 < len ∧ udp_new_ok = true
               ∧ bind_err = ERR_OK ∧ pbuf_alloc_ok = true) →
            count_calls is_udp_send calls
            = if decide (is_Some data ∧ 0 < len ∧ udp_new_ok = true
                         ∧ bind_err = ERR_OK ∧ pbuf_alloc_ok = true)
              then 1%nat else 0%nat).
  { intros calls Hz Hn. by rewrite decide_False. }
  destruct data as [data|].
  2:{ eexists. split; [done|]. split; [done|]. split; [done|].
      split; [cbn; lia|]. apply Hno; [done|]. by intros [[? [=]] _]. }
  destruct (Z.leb_spec len 0) as [Hle|Hpos].
  { eexists. split; [done|]. split; [done|]. split; [done|].
    split; [cbn; lia|]. apply Hno; [done|]. intros (_ & ? & _). lia. }
  destruct udp_new_ok; cbn [negb].
  2:{ eexists. split; [done|]. split; [done|]. split; [done|].
      split; [cbn; lia|]. apply Hno; [done|]. by intros (_ & _ & [=] & _). }
  destruct (Z.eqb_spec bind_err ERR_OK) as [Hb|Hb]; cbn [negb].
  2:{ eexists. split; [done|]. split; [done|]. split; [done|].
      split; [done|]. apply Hno; [done|]. by intros (_ & _ & _ & ? & _). }
  destruct pbuf_alloc_ok; cbn [negb].
  2:{ eexists. split; [done|]. split; [done|]. split; [done|].
      split; [done|]. apply Hno; [done|]. by intros (_ & _ & _ & _ & [=]). }
  rewrite to_uint16_small by lia. rewrite Z.ltb_irrefl. clear Hno.
  eexists. split; [done|]. split; [done|]. split; [done|].
  split; [done|]. rewrite decide_True; [done|]. by repeat split.
Qed.

Lemma lwip_bridge_udp_sendto_releases_witness :
  ∃ calls,
    lwip_bridge_udp_sendto true ERR_OK false
      [10; 0; 0; 1] 5353 [10; 0; 0; 2] 53 0 (Some [1; 2; 3]) 3
    = Some calls
    ∧ count_calls is_udp_remove calls = 1%nat
    ∧ count_calls is_udp_send calls = 0%nat.
Proof.
  destruct (lwip_bridge_udp_sendto_releases true ERR_OK false
              [10; 0; 0; 1] 5353 [10; 0; 0; 2] 53 0 (Some [1; 2; 3]) 3)
    as (calls & Hrun & Hrm & _ & _ & Hsend); [lia|].
  exists calls. split; [exact Hrun|].
  injection Hrun as <-. split; reflexivity.
Defined.

(** X20.  [lwip_bridge_udp_sendto] runs past the pbuf it has allocated
    exactly when [len] exceeds 65535 and nothing made it return before the
    copy: the pbuf is allocated with [(u16_t)len] bytes and [len] bytes are
    copied into it. *)
Theorem lwip_bridge_udp_sendto_overrun
    (udp_new_ok : bool) (bind_err : Z) (pbuf_alloc_ok : bool)
    (src_ip_bytes : list Z) (src_port : Z)
    (dst_ip_bytes : list Z) (dst_port : Z) (is_ipv6 : Z)
    (data : option (list Z)) (len : Z) :
  lwip_bridge_udp_sendto udp_new_ok bind_err pbuf_alloc_ok
    src_ip_bytes src_port dst_ip_bytes dst_port is_ipv6 data len = None
  ↔ is_Some data ∧ 65535 < len ∧ udp_new_ok = true ∧ bind_err = ERR_OK
    ∧ pbuf_alloc_ok = true.
Proof.
  unfold lwip_bridge_udp_sendto.
  destruct data as [data|]; [|split; [done|by intros [[? [=]] _]]].
  destruct (Z.leb_spec len 0) as [Hle|Hpos]; [split; [done|lia]|].
  destruct udp_new_ok; cbn [negb];
    [|split; [done|by intros (_ & _ & [=] & _)]].
  destruct (Z.eqb_spec bind_err ERR_OK) as [Hb|Hb]; cbn [negb];
    [|split; [done|by intros (_ & _ & _ & ? & _)]].
  destruct pbuf_alloc_ok; cbn [negb];
    [|split; [done|by intros (_ & _ & _ & _ & [=])]].
  pose proof (Z.mod_pos_bound len (2 ^ 16) ltac:(lia)) as Hm.
  unfold to_uint16.
  destruct (Z.ltb_spec (len `mod` 2 ^ 16) len) as [Hlt|Hge].
  - split; [|done]. intros _. repeat split; try done.
    destruct (Z.le_gt_cases len 65535) as [Hs|Hs]; [|lia].
    rewrite Z.mod_small in Hlt by lia. lia.
  - split; [done|]. intros (_ & Hbig & _). lia.
Qed.

(** X21.  When everything succeeds and [len] is at most 65535, the one
    datagram [lwip_bridge_udp_sendto] sends is a single pbuf holding the
    first [len] bytes of the data, bound to the source port and sent to
    the destination port it was given; and the two addresses it passes,
    turned back into bytes by [ip_addr_to_bytes], are the 4 or 16 bytes it
    received, with the family flag it received. *)
Theorem lwip_bridge_udp_sendto_sends
    (src_ip_bytes : list Z) (src_port : Z)
    (dst_ip_bytes : list Z) (dst_port : Z) (is_ipv6 : Z)
    (data : list Z) (len : Z) (out : list Z) :
  0 < len < 65536 → len <= Z.of_nat (length data) →
  let n := if is_ipv6 =? 0 then 4%nat else 16%nat in
  (n ≤ length src_ip_bytes)%nat → (n ≤ length dst_ip_bytes)%nat →
  length out = 16%nat →
  ∃ p src_addr dst_addr,
    lwip_bridge_udp_sendto true ERR_OK true
      src_ip_bytes src_port dst_ip_bytes dst_port is_ipv6 (Some data) len
    = Some [UdpNewIpType (negb (is_ipv6 =? 0)) true;
            UdpBind src_addr src_port ERR_OK;
            PbufAlloc len true;
            UdpSendtoIfSrc p dst_addr dst_port src_addr;
            PbufFree p; UdpRemove]
    ∧ payload p = take (Z.to_nat len) data
    ∧ tot_len p = len ∧ next p = None
    ∧ ip_addr_to_bytes src_addr out
      = (take n src_ip_bytes ++ drop n out, if is_ipv6 =? 0 then 0 else 1)
    ∧ ip_addr_to_bytes dst_addr out
      = (take n dst_ip_bytes ++ drop n out, if is_ipv6 =? 0 then 0 else 1).
Proof.
  intros Hlen Hdata n Hsrc Hdst Hout.
  unfold lwip_bridge_udp_sendto.
  destruct (Z.leb_spec len 0) as [|_]; [lia|]. cbn [negb Z.eqb ERR_OK].
  rewrite to_uint16_small by lia. rewrite Z.ltb_irrefl.
  eexists _, _, _. split; [reflexivity|]. cbn [payload tot_len next].
  split.
  { rewrite memcpy_head by (rewrite ?length_replicate; lia).
    rewrite drop_ge by (rewrite length_replicate; lia). apply app_nil_r. }
  split; [done|]. split; [done|].
  unfold ip_addr_of_bytes. subst n.
  destruct (is_ipv6 =? 0); cbn [ip_addr_to_bytes];
    rewrite !(memcpy_head (replicate _ 0))
      by (rewrite ?length_replicate; lia);
    rewrite !(drop_ge (replicate _ 0)) by (rewrite length_replicate; lia);
    rewrite !app_nil_r;
    rewrite !memcpy_head by (rewrite ?length_take; lia);
    rewrite !take_take; done.
Qed.

Lemma lwip_bridge_udp_sendto_sends_witness :
  ∃ p src_addr dst_addr,
    lwip_bridge_udp_sendto true ERR_OK true
      [10; 0; 0; 1] 5353 [10; 0; 0; 2] 53 0 (Some [1; 2; 3; 4]) 3
    = Some [UdpNewIpType false true; UdpBind src_addr 5353 ERR_OK;
            PbufAlloc 3 true; UdpSendtoIfSrc p dst_addr 53 src_addr;
            PbufFree p; UdpRemove]
    ∧ payload p = [1; 2; 3]
    ∧ ip_addr_to_bytes dst_addr (replicate 16 7)
      = ([10; 0; 0; 2] ++ replicate 12 7, 0).
Proof.
  destruct (lwip_bridge_udp_sendto_sends [10; 0; 0; 1] 5353 [10; 0; 0; 2] 53 0
              [1; 2; 3; 4] 3 (replicate 16 7))
    as (p & s & d & Hrun & Hp & _ & _ & _ & Hd);
    [lia|cbn; lia|cbn; lia|cbn; lia|reflexivity|].
  exists p, s, d. split; [exact Hrun|]. split; [exact Hp|exact Hd].
Defined.

(** ** Crypto/blake3_dispatch.c *)

(** X22.  [blake3_xof_many] writes [outblocks] consecutive 64-byte blocks
    at [out]: block [i] is the portable compression function at counter
    [counter + i] (modulo 2^64), with the same chaining value, block and
    flags; the bytes before and after are left alone. *)
Theorem blake3_xof_many_blocks
    (compress : list Z → list Z → Z → Z → Z → list Z)
    (cv block : list Z) (block_len counter flags : Z)
    (out : list Z) (offset outblocks : nat) :
  (∀ cv block block_len counter flags,
     length (compress cv block block_len counter flags) = 64%nat) →
  is_uint64 counter →
  (offset + 64 * outblocks ≤ length out)%nat →
  blake3_xof_many compress cv block block_len counter flags out offset
    outblocks
  = take offset out
    ++ mjoin ((λ i : nat,
                 compress cv block block_len
                   (to_uint64 (counter + Z.of_nat i)) flags)
              <$> seq 0 outblocks)
    ++ drop (offset + 64 * outblocks) out.
Proof.
  intros Hc. revert out offset counter.
  induction outblocks as [|n IH]; intros out offset counter Hcounter Hroom.
  { cbn [blake3_xof_many seq fmap list_fmap mjoin list_join].
    rewrite Nat.mul_0_r, Nat.add_0_r. cbn [app]. by rewrite take_drop. }
  cbn [blake3_xof_many seq fmap list_fmap mjoin list_join].
  rewrite <-(take_drop offset out) at 1.
  rewrite memcpy_cursor
    by (rewrite ?length_take, ?length_drop, ?Hc; lia).
  rewrite (take_ge (compress cv block block_len counter flags))
    by (rewrite Hc; lia).
  rewrite IH; cycle 1.
  { unfold is_uint64, to_uint64. apply Z.mod_pos_bound. lia. }
  { rewrite !length_app, length_take, length_drop, length_drop, Hc. lia. }
  assert (Hw : length (take offset out
                       ++ compress cv block block_len counter flags)
               = (offset + 64)%nat)
    by (rewrite length_app, length_take, Hc; lia).
  rewrite take_app_length' by done.
  replace (offset + 64 + 64 * n)%nat
    with (length (take offset out
                  ++ compress cv block block_len counter flags) + 64 * n)%nat
    by lia.
  rewrite drop_app_add, !drop_drop.
  replace (offset + (64 + 64 * n))%nat with (offset + 64 * S n)%nat by lia.
  rewrite <-!app_assoc. f_equal.
  replace (to_uint64 (counter + Z.of_nat 0)) with counter
    by (unfold to_uint64, is_uint64 in *; rewrite Z.add_0_r, Z.mod_small; lia).
  f_equal. f_equal. f_equal.
  rewrite <-fmap_S_seq, <-list_fmap_compose.
  apply list_fmap_ext. intros _ i _. cbn. f_equal.
  unfold to_uint64. rewrite Zplus_mod_idemp_l. f_equal. lia.
Qed.

Lemma blake3_xof_many_blocks_witness :
  let compress := λ (_ _ : list Z) (_ counter _ : Z), replicate 64 counter in
  blake3_xof_many compress [] [] 64 (2 ^ 64 - 1) 0 (replicate 130 7) 1 2
  = [7] ++ replicate 64 (2 ^ 64 - 1) ++ replicate 64 0 ++ [7].
Proof.
  intros compress.
  rewrite (blake3_xof_many_blocks compress [] [] 64 (2 ^ 64 - 1) 0
             (replicate 130 7) 1 2).
  - reflexivity.
  - intros. apply length_replicate.
  - unfold is_uint64. lia.
  - cbn. lia.
Defined.


(** ** lwip/port/sys_arch.c *)

(** X23.  The difference of two [sys_now] readings, taken as lwIP takes it
    in 32-bit unsigned arithmetic, is the number of milliseconds between
    the two tick counts, also across the wrap of the millisecond counter
    at 2^32, as long as fewer than 2^32 milliseconds lie between them and
    the tick count times [numer] fits 64 bits.  The time base is read at
    the first call only. *)
Theorem sys_now_elapsed
    (tb1 tb2 : mach_timebase_info_data_t) (ticks1 ticks2 : Z) (st : sys_arch) :
  timebase_initialized st = false →
  0 < denom tb1 → 0 <= numer tb1 →
  0 <= ticks1 <= ticks2 → ticks2 * numer tb1 < 2 ^ 64 →
  let ms t := ((t * numer tb1) `div` denom tb1) `div` 1000000 in
  ms ticks2 - ms ticks1 < 2 ^ 32 →
  let r1 := sys_now tb1 ticks1 st in
  let r2 := sys_now tb2 ticks2 r1.2 in
  to_uint32 (r2.1 - r1.1) = ms ticks2 - ms ticks1
  ∧ timebase_info r2.2 = tb1.
Proof.
  intros Hinit Hd Hn Ht Hfit ms Hgap r1 r2.
  assert (Hm : 0 <= ticks1 * numer tb1 <= ticks2 * numer tb1) by nia.
  assert (Hms : 0 <= ms ticks1 <= ms ticks2).
  { subst ms. cbn beta. split.
    - apply Z.div_pos; [apply Z.div_pos|]; lia.
    - apply Z.div_le_mono; [lia|]. apply Z.div_le_mono; lia. }
  assert (H1 : r1 = (to_uint32 (ms ticks1),
                     {| timebase_info := tb1; timebase_initialized := true |})).
  { subst r1 ms. unfold sys_now. rewrite Hinit.
    cbn [negb timebase_info timebase_initialized].
    unfold to_uint64. by rewrite Z.mod_small by lia. }
  assert (H2 : r2 = (to_uint32 (ms ticks2),
                     {| timebase_info := tb1; timebase_initialized := true |})).
  { subst r2 ms. rewrite H1. unfold sys_now.
    cbn [snd negb timebase_info timebase_initialized].
    unfold to_uint64. by rewrite Z.mod_small by lia. }
  rewrite H2, H1. cbn [fst snd timebase_info]. split; [|done].
  unfold to_uint32. rewrite <-Zminus_mod. apply Z.mod_small. lia.
Qed.

Lemma sys_now_elapsed_witness :
  let tb := {| numer := 125; denom := 3 |} in
  let st := {| timebase_info := {| numer := 0; denom := 0 |};
               timebase_initialized := false |} in
  let t1 := 24000 * (2 ^ 32 - 5) in
  let t2 := 24000 * (2 ^ 32 + 7) in
  let r1 := sys_now tb t1 st in
  let r2 := sys_now {| numer := 1; denom := 1 |} t2 r1.2 in
  r1.1 = 2 ^ 32 - 5 ∧ r2.1 = 7 ∧ to_uint32 (r2.1 - r1.1) = 12.
Proof.
  intros tb st t1 t2 r1 r2.
  destruct (sys_now_elapsed tb {| numer := 1; denom := 1 |} t1 t2 st)
    as [Hgap _].
  - reflexivity.
  - cbn. lia.
  - cbn. lia.
  - subst t1 t2. lia.
  - subst t2. cbn. lia.
  - subst t1 t2. vm_compute. reflexivity.
  - split; [reflexivity|]. split; [reflexivity|].
    fold r1 r2 in Hgap. rewrite Hgap. reflexivity.
Defined.


(** ** VLESS/CVLESS.c, continued *)

(** X24.  [parse_ipv4_address] accepts no string without a dot. *)
Theorem parse_ipv4_address_needs_dot (str : list Z) :
  chr "." ∉ str → parse_ipv4_address str = None.
Proof.
  intros Hdot. unfold parse_ipv4_address.
  destruct ((length str =? 0)%nat || (15 <? length str)%nat); [done|].
  cbn [parse_ipv4_loop].
  destruct (strtol (str ++ [0]) 0 10) as [val end_].
  destruct ((val <? 0) || (255 <? val)); [done|].
  destruct (0 =? end_)%nat; [done|].
  destruct (char_at (str ++ [0]) end_ =? 0); [done|].
  destruct (Z.eqb_spec (char_at (str ++ [0]) end_) (chr ".")) as [Hc|]; [|done].
  exfalso. apply Hdot. unfold char_at in Hc.
  destruct ((str ++ [0]) !! end_) as [c|] eqn:Hl; [|done].
  cbn in Hc. subst c. apply list_elem_of_lookup_2 in Hl.
  apply elem_of_app in Hl as [Hl|Hl]; [done|].
  apply list_elem_of_singleton in Hl. done.
Qed.

Lemma parse_ipv4_address_needs_dot_witness :
  parse_ipv4_address (bytes_of_string "2001:db8::1") = None.
Proof.
  apply (parse_ipv4_address_needs_dot (bytes_of_string "2001:db8::1")).
  vm_compute. intros Hin.
  repeat (apply elem_of_cons in Hin as [Hin|Hin]; [discriminate Hin|]).
  by apply elem_of_nil in Hin.
Defined.

Lemma hex_digit_cases d :
  0 <= d <= 15 →
  (48 <= hex_digit d <= 57 ∨ 97 <= hex_digit d <= 102)
  ∧ (hex_digit d = 48 ↔ d = 0)
  ∧ digit_in_base 16 (hex_digit d) = Some d.
Proof.
  intros Hd. unfold hex_digit, digit_in_base, digit_value.
  change (chr "0") with 48. change (chr "9") with 57.
  change (chr "a") with 97. change (chr "z") with 122.
  destruct (Z.ltb_spec d 10).
  - destruct (Z.leb_spec 48 (48 + d)); [|lia].
    destruct (Z.leb_spec (48 + d) 57); [|lia]. cbn [andb].
    replace (48 + d - 48) with d by lia.
    destruct (Z.ltb_spec d 16); [|lia]. repeat split; lia.
  - destruct (Z.leb_spec (97 + (d - 10)) 57); [lia|]. rewrite andb_false_r.
    destruct (Z.leb_spec 97 (97 + (d - 10))); [|lia].
    destruct (Z.leb_spec (97 + (d - 10)) 122); [|lia]. cbn [andb].
    replace (97 + (d - 10) - 97 + 10) with d by lia.
    destruct (Z.ltb_spec d 16); [|lia]. repeat split; lia.
Qed.

(** The text of a group starts with a hexadecimal digit, which is a zero
    only when the group is zero and the text this one digit. *)
Lemma hex_head g :
  is_uint16 g →
  ∃ d tl, hex g = hex_digit d :: tl ∧ 0 <= d <= 15
          ∧ (length tl ≤ 3)%nat ∧ (d = 0 → tl = []).
Proof.
  unfold is_uint16, hex. intros Hg.
  destruct (Z.ltb_spec g 16); [|destruct (Z.ltb_spec g 256);
                                 [|destruct (Z.ltb_spec g 4096)]].
  - exists g, []. cbn. repeat split; lia.
  - eexists _, _. split; [done|]. cbn [length].
    assert (1 <= g `div` 16 <= 15)
      by (Z.to_euclidean_division_equations; lia).
    repeat split; lia.
  - eexists _, _. split; [done|]. cbn [length].
    assert (1 <= g `div` 256 <= 15)
      by (Z.to_euclidean_division_equations; lia).
    repeat split; lia.
  - eexists _, _. split; [done|]. cbn [length].
    assert (1 <= g `div` 4096 <= 15)
      by (Z.to_euclidean_division_equations; lia).
    repeat split; lia.
Qed.

Lemma scan_digits_hex g c rest :
  is_uint16 g → digit_in_base 16 c = None →
  scan_digits 16 (hex g ++ c :: rest) 0 = (g, length (hex g)).
Proof.
  unfold is_uint16, hex. intros Hg Hc.
  assert (Hdig : ∀ d, 0 <= d <= 15 → digit_in_base 16 (hex_digit d) = Some d)
    by (intros d Hd; by apply hex_digit_cases).
  destruct (Z.ltb_spec g 16); [|destruct (Z.ltb_spec g 256);
                                 [|destruct (Z.ltb_spec g 4096)]];
    cbn [app scan_digits length];
    rewrite !Hdig by (Z.to_euclidean_division_equations; lia);
    rewrite Hc; f_equal; Z.to_euclidean_division_equations; lia.
Qed.

(** [strtol] in base 16 on the text of a group that a colon or the
    terminator follows. *)
Lemma strtol_hex pre g c rest :
  is_uint16 g → c = 0 ∨ c = chr ":" →
  strtol (pre ++ hex g ++ c :: rest) (length pre) 16
  = (g, (length pre + length (hex g))%nat).
Proof.
  intros Hg Hc.
  assert (Hnd : digit_in_base 16 c = None) by (by destruct Hc as [->| ->]).
  unfold strtol. rewrite drop_app_length.
  pose proof (scan_digits_hex g c rest Hg Hnd) as Hscan.
  destruct (hex_head g Hg) as (d & tl & Hhex & Hd & _ & Hzero).
  destruct (hex_digit_cases d Hd) as (Hrange & Hz & _).
  rewrite Hhex in *. cbn [app skip_spaces].
  assert (Hsp : isspace (hex_digit d) = false).
  { unfold isspace. change (chr " ") with 32.
    destruct (Z.eqb_spec (hex_digit d) 32); [lia|].
    destruct (Z.leb_spec (hex_digit d) 13); [lia|]. by rewrite andb_false_r. }
  rewrite Hsp. cbn [drop sign_length].
  change (chr "-") with 45. change (chr "+") with 43.
  destruct (Z.eqb_spec (hex_digit d) 45); [lia|].
  destruct (Z.eqb_spec (hex_digit d) 43); [lia|].
  cbn [drop].
  assert (Hpx : hex_prefix_length 16 (hex_digit d :: tl ++ c :: rest) = 0%nat).
  { unfold hex_prefix_length. change (16 =? 16) with true. cbv iota.
    change (chr "0") with 48.
    destruct (Z.eqb_spec (hex_digit d) 48) as [E|]; [|done].
    rewrite (Hzero (proj1 Hz E)). cbn [app].
    by destruct Hc as [->| ->]. }
  rewrite Hpx. cbn [drop]. cbn [app] in Hscan. rewrite Hscan.
  cbn [length Nat.eqb].
  unfold clamp_long, LONG_MAX, LONG_MIN. unfold is_uint16 in Hg.
  destruct (Z.ltb_spec (2 ^ 63 - 1) g); [lia|].
  destruct (Z.ltb_spec g (- 2 ^ 63)); [lia|].
  f_equal. lia.
Qed.

(** One turn of the loop of [parse_ipv6_address] at the start of a group,
    and one at a single colon. *)
Lemma parse_ipv6_loop_group fuel pre g c rest parts k dcp :
  is_uint16 g → (k < 8)%nat → c = 0 ∨ c = chr ":" →
  parse_ipv6_loop (S fuel) (pre ++ hex g ++ c :: rest) (length pre) parts k dcp
  = parse_ipv6_loop fuel (pre ++ hex g ++ c :: rest) (length (pre ++ hex g))
      (<[k := g]> parts) (S k) dcp.
Proof.
  intros Hg Hk Hc. cbn [parse_ipv6_loop].
  destruct (hex_head g Hg) as (d & tl & Hhex & Hd & _ & _).
  destruct (hex_digit_cases d Hd) as (Hrange & _ & _).
  assert (Hat : char_at (pre ++ hex g ++ c :: rest) (length pre) = hex_digit d).
  { unfold char_at. rewrite Hhex. cbn [app].
    by rewrite list_lookup_middle by done. }
  rewrite Hat.
  destruct (Z.eqb_spec (hex_digit d) 0); [lia|].
  destruct (Nat.ltb_spec k 8); [|lia]. cbn [negb orb].
  change (chr ":") with 58.
  destruct (Z.eqb_spec (hex_digit d) 58); [lia|].
  change 58 with (chr ":").
  rewrite strtol_hex by done. unfold is_uint16 in Hg.
  destruct (Z.ltb_spec g 0); [lia|]. destruct (Z.ltb_spec 65535 g); [lia|].
  cbn [orb].
  destruct (Nat.eqb_spec (length pre) (length pre + length (hex g))) as [E|_].
  { rewrite Hhex in E. cbn [length] in E. lia. }
  rewrite to_uint16_id by (unfold is_uint16; lia).
  by rewrite length_app.
Qed.

Lemma parse_ipv6_loop_colon fuel pre h rest parts k dcp :
  (k < 8)%nat → h ≠ chr ":" →
  parse_ipv6_loop (S fuel) (pre ++ chr ":" :: h :: rest) (length pre) parts k
    dcp
  = parse_ipv6_loop fuel (pre ++ chr ":" :: h :: rest)
      (length (pre ++ [chr ":"])) parts k dcp.
Proof.
  intros Hk Hh. cbn [parse_ipv6_loop].
  assert (Hat : char_at (pre ++ chr ":" :: h :: rest) (length pre) = chr ":").
  { unfold char_at. by rewrite list_lookup_middle by done. }
  assert (Hat' : char_at (pre ++ chr ":" :: h :: rest) (length pre + 1) = h).
  { unfold char_at.
    change (pre ++ chr ":" :: h :: rest) with (pre ++ [chr ":"] ++ h :: rest).
    rewrite app_assoc.
    by rewrite list_lookup_middle by (rewrite length_app; cbn; lia). }
  rewrite Hat, Hat'. change (chr ":" =? 0) with false.
  destruct (Nat.ltb_spec k 8); [|lia]. cbn [negb orb].
  rewrite Z.eqb_refl.
  destruct (Z.eqb_spec h (chr ":")); [done|].
  by rewrite length_app.
Qed.

Lemma colon_hex_cons g g' groups :
  colon_hex (g :: g' :: groups) = hex g ++ chr ":" :: colon_hex (g' :: groups).
Proof. done. Qed.

Lemma colon_hex_head g groups :
  Forall is_uint16 (g :: groups) →
  ∃ d tl, colon_hex (g :: groups) = hex_digit d :: tl ∧ 0 <= d <= 15.
Proof.
  intros Hg. apply Forall_cons in Hg as [Hg _].
  destruct (hex_head g Hg) as (d & tl & Hhex & Hd & _).
  destruct groups as [|g' groups].
  - exists d, tl. by cbn [colon_hex].
  - rewrite colon_hex_cons, Hhex. by eexists d, _.
Qed.

(** The loop on the text of eight groups, entered at the start of a group
    with the groups before it stored. *)
Lemma parse_ipv6_loop_groups groups :
  ∀ g pre stored fuel,
    Forall is_uint16 (g :: groups) →
    (length stored + S (length groups) = 8)%nat →
    (2 * S (length groups) ≤ fuel)%nat →
    parse_ipv6_loop fuel (pre ++ colon_hex (g :: groups) ++ [0]) (length pre)
      (stored ++ replicate (S (length groups)) 0) (length stored) (-1)
    = Some (ScanDone (stored ++ g :: groups) 8 (-1)).
Proof.
  induction groups as [|g' groups IH]; intros g pre stored fuel Hall Hlen Hfuel.
  - apply Forall_cons in Hall as [Hg _]. cbn [length] in *.
    destruct fuel as [|[|fuel]]; [lia|lia|].
    cbn [colon_hex].
    rewrite (parse_ipv6_loop_group _ pre g 0 []) by (done || lia || by left).
    cbn [parse_ipv6_loop].
    replace (S (length stored)) with 8%nat by lia.
    cbn [Nat.ltb Nat.leb negb]. rewrite orb_true_r.
    rewrite insert_app_r_alt by lia. rewrite Nat.sub_diag. done.
  - pose proof Hall as Hall'. apply Forall_cons in Hall' as [Hg Hrest].
    cbn [length] in *.
    destruct fuel as [|[|fuel]]; [lia|lia|].
    rewrite colon_hex_cons. rewrite <-(app_assoc (hex g)). cbn [app].
    destruct (colon_hex_head g' groups Hrest) as (d & tl & Htext & Hd).
    destruct (hex_digit_cases d Hd) as (Hrange & _ & _).
    rewrite (parse_ipv6_loop_group _ pre g (chr ":"))
      by (done || lia || by right).
    rewrite Htext. cbn [app].
    rewrite (app_assoc pre (hex g)).
    rewrite parse_ipv6_loop_colon
      by (lia || (change (chr ":") with 58; lia)).
    change (hex_digit d :: tl ++ [0]) with ((hex_digit d :: tl) ++ [0]).
    rewrite <-Htext.
    replace ((pre ++ hex g) ++ chr ":" :: colon_hex (g' :: groups) ++ [0])
      with ((pre ++ hex g ++ [chr ":"]) ++ colon_hex (g' :: groups) ++ [0])
      by (by rewrite <-!app_assoc).
    rewrite <-(app_assoc pre (hex g) [chr ":"]).
    rewrite insert_app_r_alt by lia. rewrite Nat.sub_diag.
    cbn [replicate insert list_insert].
    replace (S (length stored)) with (length (stored ++ [g]))
      by (rewrite length_app; cbn; lia).
    replace (stored ++ g :: 0 :: replicate (length groups) 0)
      with ((stored ++ [g]) ++ replicate (S (length groups)) 0)
      by (by rewrite <-app_assoc).
    rewrite IH; [by rewrite <-app_assoc|done| |lia].
    rewrite length_app. cbn [length]. lia.
Qed.

Lemma colon_hex_length g groups :
  Forall is_uint16 (g :: groups) →
  (2 * S (length groups) ≤ S (length (colon_hex (g :: groups)))
   ≤ 5 * S (length groups))%nat.
Proof.
  revert g. induction groups as [|g' groups IH]; intros g Hall.
  - apply Forall_cons in Hall as [Hg _].
    destruct (hex_head g Hg) as (d & tl & Hhex & _ & Hl & _).
    cbn [colon_hex length]. rewrite Hhex. cbn [length]. lia.
  - apply Forall_cons in Hall as [Hg Hrest].
    destruct (hex_head g Hg) as (d & tl & Hhex & _ & Hl & _).
    rewrite colon_hex_cons, Hhex, length_app. specialize (IH g' Hrest).
    cbn [length] in *. lia.
Qed.

Lemma hex_chars g c : is_uint16 g → c ∈ hex g → 48 <= c <= 57 ∨ 97 <= c <= 102.
Proof.
  unfold is_uint16, hex. intros Hg Hin.
  destruct (Z.ltb_spec g 16); [|destruct (Z.ltb_spec g 256);
                                 [|destruct (Z.ltb_spec g 4096)]];
    repeat (apply elem_of_cons in Hin as [->|Hin];
            [apply hex_digit_cases; Z.to_euclidean_division_equations; lia|]);
    by apply elem_of_nil in Hin.
Qed.

Lemma colon_hex_chars groups c :
  Forall is_uint16 groups → c ∈ colon_hex groups →
  48 <= c <= 58 ∨ 97 <= c <= 102.
Proof.
  induction groups as [|g [|g' groups] IH]; intros Hall Hin.
  - by apply elem_of_nil in Hin.
  - apply Forall_cons in Hall as [Hg _]. cbn [colon_hex] in Hin.
    destruct (hex_chars g c Hg Hin); lia.
  - apply Forall_cons in Hall as [Hg Hrest]. rewrite colon_hex_cons in Hin.
    apply elem_of_app in Hin as [Hin|Hin].
    { destruct (hex_chars g c Hg Hin); lia. }
    apply elem_of_cons in Hin as [->|Hin]; [change (chr ":") with 58; lia|].
    by apply IH.
Qed.

Lemma parts_to_bytes_be groups :
  parts_to_bytes groups = groups ≫= be_bytes 2.
Proof.
  unfold parts_to_bytes. induction groups as [|g groups IH]; [done|].
  cbn [mbind list_bind be_bytes app]. rewrite IH. f_equal; [|f_equal].
  - change (g ≫ 8) with (g ≫ (8 * 1)). rewrite (shiftr_byte g 1) by lia.
    done.
  - change 0xFF with (Z.ones 8). rewrite Z.land_ones by lia.
    unfold to_uint8. change (2 ^ 8) with 256. rewrite Z.mod_mod by lia.
    change (256 ^ Z.of_nat 0) with 1. by rewrite Z.div_1_r.
Qed.

(** X25.  The full text form of an IPv6 address, eight groups in lower-case
    hexadecimal without leading zeros separated by colons, is parsed by
    [parse_ipv6_address] to the sixteen bytes of the groups, each group
    big-endian; and [parse_vless_address] classifies it as IPv6 with
    these bytes, never as IPv4 or as a domain. *)
Theorem parse_ipv6_address_full_form (groups : list Z) :
  length groups = 8%nat → Forall is_uint16 groups →
  parse_ipv6_address (colon_hex groups) = Some (groups ≫= be_bytes 2)
  ∧ parse_vless_address (colon_hex groups)
    = Some (VLESS_ADDR_IPV6, groups ≫= be_bytes 2, 16%nat).
Proof.
  intros Hlen Hall.
  assert (H6 : parse_ipv6_address (colon_hex groups)
               = Some (groups ≫= be_bytes 2)).
  { destruct groups as [|g groups]; [done|].
    pose proof (colon_hex_length g groups Hall) as Hl.
    cbn [length] in Hlen.
    destruct (colon_hex_head g groups Hall) as (d & tl & Htext & Hd).
    destruct (hex_digit_cases d Hd) as (Hrange & _ & _).
    unfold parse_ipv6_address.
    destruct (Nat.eqb_spec (length (colon_hex (g :: groups))) 0); [lia|].
    destruct (Nat.ltb_spec 45 (length (colon_hex (g :: groups)))); [lia|].
    cbn [orb].
    assert (Hb : (2 <=? length (colon_hex (g :: groups)))%nat
                 && (char_at (colon_hex (g :: groups)) 0 =? chr "[")
                 && (char_at (colon_hex (g :: groups))
                       (length (colon_hex (g :: groups)) - 1) =? chr "]")
                 = false).
    { rewrite Htext at 2. unfold char_at at 1.
      cbn [lookup list_lookup default from_option id].
      change (chr "[") with 91.
      destruct (Z.eqb_spec (hex_digit d) 91); [lia|].
      by rewrite andb_false_r. }
    rewrite Hb.
    destruct (Nat.eqb_spec (length (colon_hex (g :: groups))) 0); [lia|].
    destruct (Nat.ltb_spec 39 (length (colon_hex (g :: groups)))); [lia|].
    cbn [orb]. rewrite drop_0, firstn_all.
    pose proof (parse_ipv6_loop_groups groups g [] []
                  (S (length (colon_hex (g :: groups) ++ [0]))) Hall
                  ltac:(cbn [length]; lia)
                  ltac:(rewrite length_app; cbn [length]; lia)) as Hloop.
    cbn [app length] in Hloop.
    replace (S (length groups)) with 8%nat in Hloop by lia.
    rewrite Hloop.
    cbn [app Z.leb Z.compare Nat.eqb negb]. by rewrite parts_to_bytes_be. }
  split; [done|].
  unfold parse_vless_address. rewrite H6.
  assert (H4 : parse_ipv4_address (colon_hex groups) = None).
  { unfold parse_ipv4_address.
    destruct ((length (colon_hex groups) =? 0)%nat
              || (15 <? length (colon_hex groups))%nat); [done|].
    cbn [parse_ipv4_loop].
    destruct (strtol (colon_hex groups ++ [0]) 0 10) as [val end_].
    destruct ((val <? 0) || (255 <? val)); [done|].
    destruct (0 =? end_)%nat; [done|].
    destruct (char_at (colon_hex groups ++ [0]) end_ =? 0); [done|].
    destruct (Z.eqb_spec (char_at (colon_hex groups ++ [0]) end_) (chr "."))
      as [Hc|]; [|done].
    exfalso. unfold char_at in Hc.
    destruct ((colon_hex groups ++ [0]) !! end_) as [c|] eqn:Hl; [|done].
    cbn in Hc. subst c. apply list_elem_of_lookup_2 in Hl.
    apply elem_of_app in Hl as [Hl|Hl].
    - apply (colon_hex_chars _ _ Hall) in Hl. change (chr ".") with 46 in Hl.
      lia.
    - by apply list_elem_of_singleton in Hl. }
  by rewrite H4.
Qed.

Lemma parse_ipv6_address_full_form_witness :
  parse_vless_address (bytes_of_string "2001:db8:0:0:0:ff00:42:8329")
  = Some (VLESS_ADDR_IPV6,
          [0x20; 0x01; 0x0d; 0xb8; 0; 0; 0; 0; 0; 0; 0xff; 0x00; 0; 0x42;
           0x83; 0x29], 16%nat).
Proof.
  destruct (parse_ipv6_address_full_form
              [0x2001; 0xdb8; 0; 0; 0; 0xff00; 0x42; 0x8329]) as [_ Hv].
  - reflexivity.
  - repeat constructor; unfold is_uint16; lia.
  - exact Hv.
Defined.

(** The loop on the text of some groups that a colon or the terminator
    follows: it stores the groups and arrives behind their text. *)
Lemma parse_ipv6_loop_run groups :
  ∀ g pre stored zeros fuel c rest dcp,
    Forall is_uint16 (g :: groups) →
    (length stored + S (length groups) ≤ 8)%nat →
    (S (length groups) ≤ length zeros)%nat →
    c = 0 ∨ c = chr ":" →
    parse_ipv6_loop (2 * length groups + 1 + fuel)
      (pre ++ colon_hex (g :: groups) ++ c :: rest) (length pre)
      (stored ++ zeros) (length stored) dcp
    = parse_ipv6_loop fuel
        (pre ++ colon_hex (g :: groups) ++ c :: rest)
        (length (pre ++ colon_hex (g :: groups)))
        (stored ++ (g :: groups) ++ drop (S (length groups)) zeros)
        (length stored + S (length groups)) dcp.
Proof.
  induction groups as [|g' groups IH];
    intros g pre stored zeros fuel c rest dcp Hall Hlen Hroom Hc.
  - apply Forall_cons in Hall as [Hg _]. cbn [length] in *.
    cbn [colon_hex Nat.mul Nat.add].
    rewrite parse_ipv6_loop_group by (done || lia).
    rewrite store_cursor by (done || lia).
    rewrite <-app_assoc. cbn [app]. by rewrite Nat.add_1_r.
  - pose proof Hall as Hall'. apply Forall_cons in Hall' as [Hg Hrest].
    cbn [length] in *.
    replace (2 * S (length groups) + 1 + fuel)%nat
      with (S (S (2 * length groups + 1 + fuel))) by lia.
    rewrite colon_hex_cons. rewrite <-(app_assoc (hex g)). cbn [app].
    destruct (colon_hex_head g' groups Hrest) as (d & tl & Htext & Hd).
    destruct (hex_digit_cases d Hd) as (Hrange & _ & _).
    rewrite (parse_ipv6_loop_group _ pre g (chr ":"))
      by (done || lia || by right).
    rewrite store_cursor by (done || lia).
    rewrite Htext. cbn [app].
    rewrite (app_assoc pre (hex g)).
    rewrite parse_ipv6_loop_colon
      by (lia || (change (chr ":") with 58; lia)).
    change (hex_digit d :: tl ++ c :: rest)
      with ((hex_digit d :: tl) ++ c :: rest).
    rewrite <-Htext.
    replace ((pre ++ hex g) ++ chr ":" :: colon_hex (g' :: groups) ++ c :: rest)
      with ((pre ++ hex g ++ [chr ":"]) ++ colon_hex (g' :: groups)
            ++ c :: rest)
      by (by rewrite <-!app_assoc).
    rewrite <-(app_assoc pre (hex g) [chr ":"]).
    replace (S (length stored)) with (length (stored ++ [g]))
      by (rewrite length_app; cbn; lia).
    rewrite IH; [|done| | |done].
    + rewrite drop_drop, !length_app. cbn [length].
      rewrite <-!app_assoc. cbn [app].
      f_equal; lia.
    + rewrite length_app. cbn [length]. lia.
    + rewrite length_drop. lia.
Qed.

(** One turn of the loop at a double colon, the first one seen. *)
Lemma parse_ipv6_loop_double_colon fuel pre rest parts k :
  (k < 8)%nat →
  parse_ipv6_loop (S fuel) (pre ++ chr ":" :: chr ":" :: rest) (length pre)
    parts k (-1)
  = if char_at rest 0 =? 0
    then Some (ScanDone parts k (Z.of_nat k))
    else parse_ipv6_loop fuel (pre ++ chr ":" :: chr ":" :: rest)
           (length (pre ++ [chr ":"; chr ":"])) parts k (Z.of_nat k).
Proof.
  intros Hk. cbn [parse_ipv6_loop].
  assert (Hat : ∀ i,
            char_at (pre ++ chr ":" :: chr ":" :: rest) (length pre + i)
            = char_at (chr ":" :: chr ":" :: rest) i).
  { intros i. unfold char_at. by rewrite lookup_app_r, Nat.add_sub' by lia. }
  pose proof (Hat 0%nat) as H0. rewrite Nat.add_0_r in H0.
  pose proof (Hat 1%nat) as H1. pose proof (Hat 2%nat) as H2.
  rewrite H0, H1, H2.
  unfold char_at at 1 2 3 4. cbn [lookup list_lookup default from_option id].
  change (chr ":" =? 0) with false.
  destruct (Nat.ltb_spec k 8); [|lia]. cbn [negb orb].
  rewrite Z.eqb_refl. change (0 <=? -1) with false. cbv iota.
  rewrite length_app. cbn [length]. done.
Qed.

Ltac split_bounded l H :=
  destruct l as [|? l];
  [|cbn [length] in H; first [exfalso; lia | split_bounded l H]].

(** The two loops that expand the double colon, on the parts as the
    scanning loop leaves them. *)
Lemma expand_double_colon (pre post : list Z) :
  (length pre + length post ≤ 8)%nat →
  let missing := 8 - Z.of_nat (length pre + length post) in
  zero_parts (Z.to_nat missing) (length pre)
    (shift_parts 8 (Z.of_nat (length pre) + missing) missing
       (pre ++ post ++ replicate (8 - length pre - length post) 0))
  = pre ++ replicate (8 - length pre - length post) 0 ++ post.
Proof.
  intros Hlen missing. subst missing.
  split_bounded pre Hlen; split_bounded post Hlen; reflexivity.
Qed.

Lemma colon_hex_bounds groups :
  Forall is_uint16 groups →
  (2 * length groups ≤ S (length (colon_hex groups)))%nat
  ∧ (length (colon_hex groups) ≤ 5 * length groups)%nat.
Proof.
  intros Hall. destruct groups as [|g groups]; [cbn; lia|].
  pose proof (colon_hex_length g groups Hall). cbn [length] in *. lia.
Qed.

(** The loop from a double colon on, the first one seen, to the end of
    the text. *)
Lemma parse_ipv6_loop_after_elision post pre stored fuel :
  Forall is_uint16 post →
  (length stored + length post ≤ 7)%nat →
  (2 * length post + 2 ≤ fuel)%nat →
  parse_ipv6_loop fuel (pre ++ chr ":" :: chr ":" :: colon_hex post ++ [0])
    (length pre) (stored ++ replicate (8 - length stored) 0) (length stored)
    (-1)
  = Some (ScanDone
            (stored ++ post
             ++ replicate (8 - length stored - length post) 0)
            (length stored + length post) (Z.of_nat (length stored))).
Proof.
  intros Hall Hlen Hfuel.
  destruct fuel as [|fuel]; [lia|].
  rewrite parse_ipv6_loop_double_colon by lia.
  destruct post as [|g post].
  { cbn [colon_hex app]. unfold char_at.
    cbn [lookup list_lookup default from_option id Z.eqb length].
    by rewrite Nat.add_0_r, Nat.sub_0_r. }
  destruct (colon_hex_head g post Hall) as (d & tl & Htext & Hd).
  destruct (hex_digit_cases d Hd) as (Hrange & _ & _).
  assert (Hnz : (char_at (colon_hex (g :: post) ++ [0]) 0 =? 0) = false).
  { rewrite Htext. unfold char_at.
    cbn [app lookup list_lookup default from_option id]. apply Z.eqb_neq. lia. }
  rewrite Hnz. cbn [length] in *.
  destruct (Nat.le_exists_sub (2 * length post + 1) fuel ltac:(lia))
    as (fuel' & -> & _).
  change (pre ++ chr ":" :: chr ":" :: colon_hex (g :: post) ++ [0])
    with (pre ++ [chr ":"; chr ":"] ++ colon_hex (g :: post) ++ [0]).
  rewrite (app_assoc pre), (Nat.add_comm fuel').
  rewrite parse_ipv6_loop_run
    by (done || lia || (rewrite length_replicate; lia) || by left).
  destruct fuel' as [|fuel']; [lia|]. cbn [parse_ipv6_loop].
  assert (Hend : char_at ((pre ++ [chr ":"; chr ":"])
                          ++ colon_hex (g :: post) ++ [0])
                   (length ((pre ++ [chr ":"; chr ":"])
                            ++ colon_hex (g :: post))) = 0).
  { unfold char_at. rewrite app_assoc.
    by rewrite list_lookup_middle by done. }
  rewrite Hend. cbn [Z.eqb orb].
  by rewrite drop_replicate.
Qed.

Lemma elision_chars pre post c :
  Forall is_uint16 pre → Forall is_uint16 post →
  c ∈ colon_hex pre ++ [chr ":"; chr ":"] ++ colon_hex post →
  48 <= c <= 58 ∨ 97 <= c <= 102.
Proof.
  intros Hpre Hpost Hin.
  apply elem_of_app in Hin as [Hin|Hin];
    [exact (colon_hex_chars pre c Hpre Hin)|].
  apply elem_of_app in Hin as [Hin|Hin];
    [|exact (colon_hex_chars post c Hpost Hin)].
  change (chr ":") with 58 in Hin.
  repeat (apply elem_of_cons in Hin as [->|Hin]; [lia|]).
  by apply elem_of_nil in Hin.
Qed.

(** X26.  [parse_ipv6_address] expands a double colon: for groups before
    and after it, seven at most together, written in lower-case
    hexadecimal without leading zeros, the result is the groups before,
    then as many zero groups as are missing from eight, then the groups
    after, each group as two big-endian bytes; either side may be
    empty. *)
Theorem parse_ipv6_address_expands_elision (pre post : list Z) :
  Forall is_uint16 pre → Forall is_uint16 post →
  (length pre + length post ≤ 7)%nat →
  parse_ipv6_address (colon_hex pre ++ [chr ":"; chr ":"] ++ colon_hex post)
  = Some ((pre ++ replicate (8 - length pre - length post) 0 ++ post)
          ≫= be_bytes 2).
Proof.
  intros Hpre Hpost Hlen.
  destruct (colon_hex_bounds pre Hpre) as [Hlo1 Hhi1].
  destruct (colon_hex_bounds post Hpost) as [Hlo2 Hhi2].
  set (text := colon_hex pre ++ [chr ":"; chr ":"] ++ colon_hex post).
  assert (Htl : length text
                = (length (colon_hex pre) + 2 + length (colon_hex post))%nat).
  { unfold text. rewrite !length_app. cbn [length]. lia. }
  assert (Hfirst : char_at text 0 ≠ chr "[").
  { unfold char_at. destruct (text !! 0%nat) as [c|] eqn:Hc; [|done].
    apply list_elem_of_lookup_2 in Hc.
    apply (elision_chars pre post c Hpre Hpost) in Hc.
    cbn. change (chr "[") with 91. lia. }
  unfold parse_ipv6_address.
  destruct (Nat.eqb_spec (length text) 0); [lia|].
  destruct (Nat.ltb_spec 45 (length text)); [lia|]. cbn [orb].
  destruct (Z.eqb_spec (char_at text 0) (chr "[")); [done|].
  rewrite andb_false_r. cbn [andb].
  destruct (Nat.eqb_spec (length text) 0); [lia|].
  destruct (Nat.ltb_spec 39 (length text)); [lia|]. cbn [orb].
  rewrite drop_0, firstn_all.
  assert (Hscan :
    parse_ipv6_loop (S (length (text ++ [0]))) (text ++ [0]) 0
      (replicate 8 0) 0 (-1)
    = Some (ScanDone
              (pre ++ post
               ++ replicate (8 - length pre - length post) 0)
              (length pre + length post) (Z.of_nat (length pre)))).
  { rewrite length_app, Htl. cbn [length]. unfold text.
    rewrite <-!app_assoc. cbn [app].
    destruct pre as [|g pre].
    { cbn [colon_hex app length] in *.
      apply (parse_ipv6_loop_after_elision post [] []);
        [done|cbn [length]; lia|lia]. }
    cbn [length] in *.
    destruct (Nat.le_exists_sub (2 * length pre + 1)
                (S (length (colon_hex (g :: pre)) + 2
                    + length (colon_hex post) + 1)) ltac:(lia))
      as (fuel & Hfuel & _).
    rewrite Hfuel, (Nat.add_comm fuel).
    pose proof (parse_ipv6_loop_run pre g [] [] (replicate 8 0) fuel (chr ":")
                  (chr ":" :: colon_hex post ++ [0]) (-1) Hpre
                  ltac:(cbn [length]; lia)
                  ltac:(rewrite length_replicate; lia)
                  ltac:(by right)) as Hrun.
    cbn [app length] in Hrun. rewrite Hrun. clear Hrun.
    rewrite drop_replicate.
    replace (8 - S (length pre))%nat
      with (8 - length (g :: pre))%nat by done.
    replace (0 + S (length pre))%nat with (length (g :: pre)) by done.
    rewrite (parse_ipv6_loop_after_elision post (colon_hex (g :: pre))
               (g :: pre)); [done|done|cbn [length]; lia|].
    lia. }
  rewrite Hscan.
  destruct (Z.leb_spec 0 (Z.of_nat (length pre))); [|lia].
  destruct (Z.ltb_spec (8 - Z.of_nat (length pre + length post)) 0); [lia|].
  rewrite parts_to_bytes_be. do 2 f_equal.
  pose proof (expand_double_colon pre post ltac:(lia)) as Hexp.
  cbn zeta in Hexp. rewrite Nat2Z.id. exact Hexp.
Qed.

Lemma parse_ipv6_address_expands_elision_witness :
  parse_ipv6_address (bytes_of_string "2001:db8::ff00:42:8329")
  = Some [0x20; 0x01; 0x0d; 0xb8; 0; 0; 0; 0; 0; 0; 0xff; 0x00; 0; 0x42;
          0x83; 0x29].
Proof.
  apply (parse_ipv6_address_expands_elision
           [0x2001; 0xdb8] [0xff00; 0x42; 0x8329]).
  - repeat constructor; unfold is_uint16; lia.
  - repeat constructor; unfold is_uint16; lia.
  - cbn. lia.
Defined.

(** ** lwip/lwip_bridge.c, the output path *)

(** X27.  [netif_output_ip4] and [netif_output_ip6] never fail upwards and
    never free the engine's pbuf: both return [ERR_OK] on every path, also
    when the packet is dropped because [mem_malloc] fails; a heap copy is
    freed exactly when it was obtained; Swift gets one call with the
    length of the whole chain exactly when a callback is registered, the
    pbuf is not null and, for a chained pbuf, the copy could be made; and
    the two functions differ in the family flag alone, 0 and 1. *)
Theorem netif_output_spec
    (s_output_fn mem_malloc_ok : bool) (p : option pbuf) :
  let r4 := netif_output_ip4 s_output_fn mem_malloc_ok p in
  let r6 := netif_output_ip6 s_output_fn mem_malloc_ok p in
  let family (v : Z) (c : call) :=
    match c with OutputFn d l _ => OutputFn d l v | _ => c end in
  r4.1 = ERR_OK ∧ r6.1 = ERR_OK
  ∧ r6.2 = family 1 <$> r4.2 ∧ r4.2 = family 0 <$> r4.2
  ∧ count_calls is_pbuf_free r4.2 = 0%nat
  ∧ count_calls is_mem_free r4.2 = count_calls is_mem_malloc r4.2
  ∧ count_calls is_output_fn r4.2
    = match p with
      | Some q =>
          if s_output_fn && (bool_decide (next q = None) || mem_malloc_ok)
          then 1%nat else 0%nat
      | None => 0%nat
      end
  ∧ (∀ d l v, OutputFn d l v ∈ r4.2 → ∃ q, p = Some q ∧ l = tot_len q).
Proof.
  intros r4 r6 family. subst r4 r6 family.
  unfold netif_output_ip4, netif_output_ip6.
  destruct p as [[pl tl [q|]]|], s_output_fn, mem_malloc_ok;
    cbn; repeat split; try done;
    intros d l v Hin;
    repeat (apply elem_of_cons in Hin as [Hin|Hin];
            [by (discriminate Hin || (injection Hin as -> -> ->; eexists))|]);
    by apply elem_of_nil in Hin.
Qed.

(** ** VLESS/CVLESS.c, host names *)

(** [strtol] on text that starts with no digit of the base, no white
    space and no sign: nothing is converted. *)
Lemma strtol_no_digit (c : Z) (rest : list Z) (base : Z) :
  isspace c = false → c ≠ chr "-" → c ≠ chr "+" →
  digit_in_base 16 c = None → base = 10 ∨ base = 16 →
  strtol (c :: rest) 0 base = (0, 0%nat).
Proof.
  intros Hsp Hm Hp Hd Hbase. unfold strtol. cbn [drop skip_spaces].
  rewrite Hsp. cbn [drop sign_length].
  destruct (Z.eqb_spec c (chr "-")); [done|].
  destruct (Z.eqb_spec c (chr "+")); [done|]. cbn [drop].
  assert (Hd' : digit_in_base base c = None).
  { unfold digit_in_base in *. destruct (digit_value c) as [d|]; [|done].
    destruct (Z.ltb_spec d 16); [done|].
    destruct Hbase as [-> | ->].
    - by destruct (Z.ltb_spec d 10); [lia|].
    - by destruct (Z.ltb_spec d 16); [lia|]. }
  assert (Hpx : hex_prefix_length base (c :: rest) = 0%nat).
  { unfold hex_prefix_length. destruct (base =? 16); [|done].
    destruct (Z.eqb_spec c (chr "0")) as [->|]; [|done].
    by vm_compute in Hd. }
  rewrite Hpx. cbn [drop scan_digits]. by rewrite Hd'.
Qed.

(** X28.  A name whose first character is no hexadecimal digit, white
    space, sign, colon or opening bracket (a host name that starts with a
    letter from g to z, say) is never taken for an address:
    [parse_vless_address] returns it unchanged as a domain when it has at
    most 255 bytes. *)
Theorem parse_vless_address_name_is_domain (c : Z) (rest : list Z) :
  digit_in_base 16 c = None → isspace c = false →
  c ≠ chr "-" → c ≠ chr "+" → c ≠ chr ":" → c ≠ chr "[" →
  (S (length rest) ≤ 255)%nat →
  parse_ipv4_address (c :: rest) = None
  ∧ parse_ipv6_address (c :: rest) = None
  ∧ parse_vless_address (c :: rest)
    = Some (VLESS_ADDR_DOMAIN, c :: rest, S (length rest)).
Proof.
  intros Hd Hsp Hm Hp Hcolon Hbr Hlen.
  assert (H4 : parse_ipv4_address (c :: rest) = None).
  { unfold parse_ipv4_address.
    destruct ((length (c :: rest) =? 0)%nat || (15 <? length (c :: rest))%nat);
      [done|].
    cbn [parse_ipv4_loop app].
    rewrite strtol_no_digit by (done || by left). done. }
  assert (H6 : parse_ipv6_address (c :: rest) = None).
  { unfold parse_ipv6_address.
    destruct ((length (c :: rest) =? 0)%nat || (45 <? length (c :: rest))%nat);
      [done|].
    assert (Hb : (2 <=? length (c :: rest))%nat
                 && (char_at (c :: rest) 0 =? chr "[")
                 && (char_at (c :: rest) (length (c :: rest) - 1) =? chr "]")
                 = false).
    { unfold char_at at 1. cbn [lookup list_lookup default from_option id].
      destruct (Z.eqb_spec c (chr "[")); [done|]. by rewrite andb_false_r. }
    rewrite Hb.
    destruct ((length (c :: rest) =? 0)%nat || (39 <? length (c :: rest))%nat);
      [done|].
    rewrite drop_0, firstn_all. cbn [app parse_ipv6_loop].
    unfold char_at at 1 2. cbn [lookup list_lookup default from_option id].
    destruct (Z.eqb_spec c 0) as [_|_]; [done|]. cbn [Nat.ltb Nat.leb negb orb].
    destruct (Z.eqb_spec c (chr ":")); [done|].
    rewrite strtol_no_digit by (done || by right). done. }
  split; [done|]. split; [done|].
  unfold parse_vless_address. rewrite H4, H6.
  destruct (Nat.ltb_spec 255 (length (c :: rest))) as [Hgt|_];
    [cbn [length] in Hgt; lia|done].
Qed.

Lemma parse_vless_address_name_is_domain_witness :
  parse_vless_address (bytes_of_string "github.com")
  = Some (VLESS_ADDR_DOMAIN, bytes_of_string "github.com", 10%nat).
Proof.
  destruct (parse_vless_address_name_is_domain (chr "g")
              (bytes_of_string "ithub.com")) as (_ & _ & Hv);
    [reflexivity|reflexivity|discriminate|discriminate|discriminate
    |discriminate|cbn; lia|].
  exact Hv.
Defined.
